(** * dvm: a shallow embedding of the volume-lifecycle orchestrator

    The development follows the Go packages of the repository:
    - [Strings], [Utf8], [Filepath]: the parts of Go's standard library the
      program calls (byte strings, rune decoding, lexical path functions);
    - [Compose]: internal/compose (project names, volume specs);
    - [Database]: internal/database (the backup ledger and volume metadata);
    - [Engine]: the calls a command makes to Docker, the metadata store,
      the file system and the clock, as a tree of requests;
    - [Commands]: internal/commands (Backup, Swap, Clean, Clone, restore);
    - [ArchiveCommand], [RestoreCommand], [CloneCommand], [HistoryCommand],
      [Format]: the archive, restore-from-file, clone (later revision) and
      history commands and the size formatter of internal/commands;
    - [ConfigPaths]: the path functions of internal/config;
    - [DockerClient]: the container and volume listings of internal/docker.

    Definitions come first; the theorems about them follow in the second
    half of the file. *)

From Stdlib Require Import ZArith Lia List Ascii String Permutation Sorted.
From Stdlib Require Import DecimalString.
From stdpp Require Import base list strings gmap.
From Equations Require Import Equations.
Import ListNotations.

Local Open Scope string_scope.
Local Open Scope Z_scope.

(* ================================================================== *)
(** ** Go strings: bytes *)
(* ================================================================== *)

Module Strings.

(** A Go [string] is a sequence of bytes; [s[i]] is a byte. *)
Definition byte_val (c : ascii) : Z := Z.of_N (N_of_ascii c).

Definition byte_of_Z (z : Z) : ascii := ascii_of_N (Z.to_N (z mod 256)).

(** [lo <= c && c <= hi] on bytes. *)
Definition between (lo hi c : ascii) : bool :=
  (byte_val lo <=? byte_val c) && (byte_val c <=? byte_val hi).

Fixpoint all_bytes (p : ascii -> bool) (s : string) : bool :=
  match s with
  | EmptyString => true
  | String c t => p c && all_bytes p t
  end.

Fixpoint map_bytes (f : ascii -> ascii) (s : string) : string :=
  match s with
  | EmptyString => EmptyString
  | String c t => String (f c) (map_bytes f t)
  end.

Fixpoint contains_byte (c : ascii) (s : string) : bool :=
  match s with
  | EmptyString => false
  | String d t => Ascii.eqb c d || contains_byte c t
  end.

(** [s[n:]]; callers stay within [len(s)]. *)
Fixpoint drop_bytes (n : nat) (s : string) : string :=
  match n, s with
  | O, _ => s
  | S n', String _ t => drop_bytes n' t
  | S _, EmptyString => EmptyString
  end.

(** [s[:n]]: Go panics ("slice bounds out of range") when [n > len(s)];
    the panic is [None]. *)
Fixpoint slice_to (s : string) (n : nat) : option string :=
  match n, s with
  | O, _ => Some EmptyString
  | S n', String c t => option_map (String c) (slice_to t n')
  | S _, EmptyString => None
  end.

(** strings.HasPrefix(s, prefix). *)
Definition HasPrefix (s pre : string) : bool := String.prefix pre s.

(** strings.TrimPrefix(s, prefix). *)
Definition TrimPrefix (s pre : string) : string :=
  if HasPrefix s pre then drop_bytes (String.length pre) s else s.

(** strings.TrimLeft(s, cutset) for a cutset of ASCII bytes, where Go
    compares byte by byte (its asciiSet path). *)
Fixpoint TrimLeft (s cutset : string) : string :=
  match s with
  | EmptyString => EmptyString
  | String c t => if contains_byte c cutset then TrimLeft t cutset else s
  end.

(** strings.Split(s, sep) for a one-byte separator: always at least one
    part. *)
Fixpoint Split (s : string) (sep : ascii) : list string :=
  match s with
  | EmptyString => [EmptyString]
  | String c t =>
      if Ascii.eqb c sep then EmptyString :: Split t sep
      else match Split t sep with
           | h :: r => String c h :: r
           | [] => [String c EmptyString]
           end
  end.

(** strings.Join(parts, sep). *)
Fixpoint Join (parts : list string) (sep : string) : string :=
  match parts with
  | [] => EmptyString
  | [p] => p
  | p :: rest => p +:+ sep +:+ Join rest sep
  end.

(** fmt.Sprintf("%s_%s", a, b). *)
Definition Sprintf_s_s (a b : string) : string := a +:+ "_" +:+ b.

End Strings.

(* ================================================================== *)
(** ** Runes: unicode/utf8 and the range loop over a string *)
(* ================================================================== *)

Module Utf8.

(** A rune is an int32 code point. *)
Definition rune := Z.

Definition RuneError : rune := 65533.   (* U+FFFD *)
Definition RuneSelf : Z := 128.
Definition MaxRune : rune := 1114111.   (* U+10FFFF *)

Definition cont (c : ascii) : bool :=
  (128 <=? Strings.byte_val c) && (Strings.byte_val c <=? 191).

Definition in_range (lo hi : Z) (c : ascii) : bool :=
  (lo <=? Strings.byte_val c) && (Strings.byte_val c <=? hi).

(** utf8.DecodeRuneInString on a non-empty string [String c0 t]: the rune
    and its width in bytes.  The case split is Go's [first] table with its
    accept ranges. *)
Definition decode (c0 : ascii) (t : string) : rune * nat :=
  let b0 := Strings.byte_val c0 in
  if b0 <? 128 then (b0, 1%nat)
  else if (b0 <? 194) || (244 <? b0) then (RuneError, 1%nat)
  else
    let lo1 := if b0 =? 224 then 160 else if b0 =? 240 then 144 else 128 in
    let hi1 := if b0 =? 237 then 159 else if b0 =? 244 then 143 else 191 in
    match t with
    | String c1 t1 =>
        if negb (in_range lo1 hi1 c1) then (RuneError, 1%nat)
        else
          let b1 := Strings.byte_val c1 in
          if b0 <? 224 then
            (Z.lor (Z.shiftl (Z.land b0 31) 6) (Z.land b1 63), 2%nat)
          else
            match t1 with
            | String c2 t2 =>
                if negb (cont c2) then (RuneError, 1%nat)
                else
                  let b2 := Strings.byte_val c2 in
                  if b0 <? 240 then
                    (Z.lor (Z.shiftl (Z.land b0 15) 12)
                       (Z.lor (Z.shiftl (Z.land b1 63) 6) (Z.land b2 63)),
                     3%nat)
                  else
                    match t2 with
                    | String c3 _ =>
                        if negb (cont c3) then (RuneError, 1%nat)
                        else
                          let b3 := Strings.byte_val c3 in
                          (Z.lor (Z.shiftl (Z.land b0 7) 18)
                             (Z.lor (Z.shiftl (Z.land b1 63) 12)
                                (Z.lor (Z.shiftl (Z.land b2 63) 6)
                                   (Z.land b3 63))),
                           4%nat)
                    | EmptyString => (RuneError, 1%nat)
                    end
            | EmptyString => (RuneError, 1%nat)
            end
    | EmptyString => (RuneError, 1%nat)
    end.

(** [for _, r := range s]: the runes in order.  [skip] counts the bytes of
    the current rune still to pass over. *)
Fixpoint runes_from (skip : nat) (s : string) : list rune :=
  match s with
  | EmptyString => []
  | String c t =>
      match skip with
      | S k => runes_from k t
      | O => let '(r, w) := decode c t in r :: runes_from (Nat.pred w) t
      end
  end.

Definition runes (s : string) : list rune := runes_from 0 s.

(** utf8.AppendRune, which strings.Builder.WriteRune calls. *)
Definition encode (r : rune) : string :=
  let b := Strings.byte_of_Z in
  if (0 <=? r) && (r <=? 127) then String (b r) EmptyString
  else if (0 <=? r) && (r <=? 2047) then
    String (b (Z.lor 192 (Z.shiftr r 6)))
      (String (b (Z.lor 128 (Z.land r 63))) EmptyString)
  else
    let r := if (r <? 0) || (MaxRune <? r) || ((55296 <=? r) && (r <=? 57343))
             then RuneError else r in
    if r <=? 65535 then
      String (b (Z.lor 224 (Z.shiftr r 12)))
        (String (b (Z.lor 128 (Z.land (Z.shiftr r 6) 63)))
           (String (b (Z.lor 128 (Z.land r 63))) EmptyString))
    else
      String (b (Z.lor 240 (Z.shiftr r 18)))
        (String (b (Z.lor 128 (Z.land (Z.shiftr r 12) 63)))
           (String (b (Z.lor 128 (Z.land (Z.shiftr r 6) 63)))
              (String (b (Z.lor 128 (Z.land r 63))) EmptyString))).

(** A strings.Builder after one WriteRune per element. *)
Fixpoint write_runes (rs : list rune) : string :=
  match rs with
  | [] => EmptyString
  | r :: rest => encode r +:+ write_runes rest
  end.

Definition rune_of (c : ascii) : rune := Strings.byte_val c.

Section CaseTable.

(** unicode.ToLower on runes above U+007F is a lookup in Unicode's case
    tables, which are Go's and not this repository's: a parameter. *)
Variable lower_table : rune -> rune.

(** unicode.ToLower. *)
Definition unicode_ToLower (r : rune) : rune :=
  if r <=? 127 then
    (if (rune_of "A" <=? r) && (r <=? rune_of "Z") then r + 32 else r)
  else lower_table r.

Definition ascii_ToLower (c : ascii) : ascii :=
  if Strings.between "A" "Z" c then Strings.byte_of_Z (Strings.byte_val c + 32)
  else c.

(** strings.ToLower: a byte loop when every byte is below RuneSelf,
    strings.Map(unicode.ToLower, s) otherwise. *)
Definition ToLower (s : string) : string :=
  if Strings.all_bytes (fun c => Strings.byte_val c <? RuneSelf) s
  then Strings.map_bytes ascii_ToLower s
  else write_runes (map unicode_ToLower (runes s)).

End CaseTable.

End Utf8.

(* ================================================================== *)
(** ** Go errors *)
(* ================================================================== *)

Module Errors.

(** An error value: [errors.New(msg)] (and [fmt.Errorf] without [%w]), or
    the value [fmt.Errorf] builds around its single [%w] operand, which
    keeps the formatted message and the wrapped error. *)
Inductive error : Type :=
| errorString (msg : string)
| wrapError (msg : string) (err : error).

(** err.Error(). *)
Definition Error (e : error) : string :=
  match e with
  | errorString msg => msg
  | wrapError msg _ => msg
  end.

(** errors.Unwrap(err). *)
Definition Unwrap (e : error) : option error :=
  match e with
  | errorString _ => None
  | wrapError _ err => Some err
  end.

(** fmt.Errorf(prefix + "%w", err). *)
Definition Errorf_w (pre : string) (err : error) : error :=
  wrapError (pre +:+ Error err) err.

(** errors.Is(err, target): [target] is [err] or is reached by unwrapping. *)
Fixpoint Is (e target : error) : Prop :=
  e = target \/
  match e with
  | errorString _ => False
  | wrapError _ err => Is err target
  end.

(** A Go result pair [(value, error)] of which exactly one is set. *)
Inductive result (A : Type) : Type :=
| Ok (a : A)
| Err (e : error).

Arguments Ok {A} a.
Arguments Err {A} e.

End Errors.

(* ================================================================== *)
(** ** path/filepath on a system whose separator is the slash *)
(* ================================================================== *)

Module Filepath.

Definition slash : ascii := "/"%char.

(** One path element pushed on the elements kept so far (innermost
    first), as filepath.Clean treats it. *)
Definition clean_step (rooted : bool) (kept : list string) (elem : string)
  : list string :=
  if String.eqb elem "" || String.eqb elem "." then kept
  else if String.eqb elem ".." then
    match kept with
    | top :: below =>
        if String.eqb top ".." then elem :: kept else below
    | [] => if rooted then [] else [elem]
    end
  else elem :: kept.

(** filepath.Clean: the shortest equivalent path, by lexical processing
    alone. *)
Definition Clean (p : string) : string :=
  let rooted := Strings.HasPrefix p "/" in
  let kept := fold_left (clean_step rooted) (Strings.Split p slash) [] in
  let body := Strings.Join (rev kept) "/" in
  if rooted then "/" +:+ body
  else if String.eqb body "" then "." else body.

(** [path[:i+1]] for the last separator at [i]; empty without one. *)
Fixpoint upto_last_slash (p : string) : string :=
  match p with
  | EmptyString => EmptyString
  | String c t =>
      if Strings.contains_byte slash t then String c (upto_last_slash t)
      else if Ascii.eqb c slash then String c EmptyString
      else EmptyString
  end.

(** filepath.Dir. *)
Definition Dir (p : string) : string := Clean (upto_last_slash p).

(** The last element of the separator-split path that is not empty. *)
Fixpoint last_nonempty (parts : list string) (found : string) : string :=
  match parts with
  | [] => found
  | e :: rest => last_nonempty rest (if String.eqb e "" then found else e)
  end.

(** filepath.Base: trailing separators are dropped first; "." for the
    empty path, "/" for a path of separators only. *)
Definition Base (p : string) : string :=
  if String.eqb p "" then "."
  else
    let b := last_nonempty (Strings.Split p slash) "" in
    if String.eqb b "" then "/" else b.

(** filepath.Join of two elements: empty elements are ignored, the result
    is cleaned. *)
Definition Join (a b : string) : string :=
  if String.eqb a "" then (if String.eqb b "" then "" else Clean b)
  else if String.eqb b "" then Clean a
  else Clean (a +:+ "/" +:+ b).

End Filepath.

(* ================================================================== *)
(** ** The process environment *)
(* ================================================================== *)

Module Os.

(** What the program reads of its process: the environment variables, the
    working directory ([None] when os.Getwd fails) and the files it can
    read. *)
Record state : Type := {
  environ : gmap string string;
  cwd : option string;
  files : gmap string string
}.

(** os.Getenv: the empty string for an unset variable. *)
Definition Getenv (st : state) (key : string) : string :=
  default "" (environ st !! key).

(** os.Setenv / t.Setenv. *)
Definition Setenv (st : state) (key value : string) : state :=
  {| environ := <[key := value]> (environ st);
     cwd := cwd st; files := files st |}.

(** os.Unsetenv. *)
Definition Unsetenv (st : state) (key : string) : state :=
  {| environ := delete key (environ st);
     cwd := cwd st; files := files st |}.

(** os.ReadFile. *)
Definition ReadFile (st : state) (path : string) : Errors.result string :=
  match files st !! path with
  | Some data => Errors.Ok data
  | None => Errors.Err (Errors.errorString ("open " +:+ path +:+ ": no such file or directory"))
  end.

End Os.

(* ================================================================== *)
(** ** internal/compose *)
(* ================================================================== *)

Module Compose.

Import Errors.

#[local] Set Warnings "-register-all".

(** A decoded YAML value, as yaml.v3 stores it in an [interface{}]. *)
Inductive yaml : Type :=
| YString (s : string)
| YInt (n : Z)
| YBool (b : bool)
| YNull
| YSeq (items : list yaml)
| YMap (fields : list (string * yaml)).

(** [v[key]] on a map[string]interface{}: the value and whether the key
    is present. *)
Fixpoint index (fields : list (string * yaml)) (key : string) : option yaml :=
  match fields with
  | [] => None
  | (k, v) :: rest => if String.eqb k key then Some v else index rest key
  end.

(** The type assertion [x.(string)]. *)
Definition as_string (v : yaml) : option string :=
  match v with
  | YString s => Some s
  | _ => None
  end.

Record Service : Type := {
  Image : string;
  Volumes : list yaml
}.

(** ComposeFile.  [Services] lists the entries of the Go map; where the
    program ranges over the map, the list order stands for the order of
    the visit, which Go leaves open: statements hold for every order. *)
Record ComposeFile : Type := {
  Name : string;
  Services : list (string * Service);
  TopVolumes : list (string * yaml);
  path : string
}.

(** VolumeMapping; [OfService] is the Go field [Service]. *)
Record VolumeMapping : Type := {
  VolumeName : string;
  MountPath : string;
  OfService : string
}.

(** [cf.Services[serviceName]]. *)
Fixpoint lookup_service (services : list (string * Service)) (name : string)
  : option Service :=
  match services with
  | [] => None
  | (k, s) :: rest =>
      if String.eqb k name then Some s else lookup_service rest name
  end.

Definition allowed_rune (r : Utf8.rune) : bool :=
  ((Utf8.rune_of "a" <=? r) && (r <=? Utf8.rune_of "z"))
  || ((Utf8.rune_of "0" <=? r) && (r <=? Utf8.rune_of "9"))
  || (r =? Utf8.rune_of "-") || (r =? Utf8.rune_of "_")
  || (r =? Utf8.rune_of ".").

Section ProjectName.

Variable lower_table : Utf8.rune -> Utf8.rune.

(** normalizeProjectName. *)
Definition normalizeProjectName (name : string) : string :=
  let normalized := Utf8.ToLower lower_table name in
  let b := Utf8.write_runes (List.filter allowed_rune (Utf8.runes normalized)) in
  Strings.TrimLeft b "-_.".

(** GetProjectName. *)
Definition GetProjectName (os : Os.state) (cf : ComposeFile) (override : string)
  : string :=
  if negb (String.eqb override "") then normalizeProjectName override
  else if negb (String.eqb (Name cf) "") then normalizeProjectName (Name cf)
  else
    let env := Os.Getenv os "COMPOSE_PROJECT_NAME" in
    if negb (String.eqb env "") then normalizeProjectName env
    else
      let dir := Filepath.Dir (path cf) in
      match (if String.eqb dir "." then Os.cwd os else None) with
      | Some cwd => normalizeProjectName (Filepath.Base cwd)
      | None => normalizeProjectName (Filepath.Base dir)
      end.

End ProjectName.

(** The test both forms apply to a source: not a bind mount. *)
Definition not_bind_source (source : string) : bool :=
  negb (Strings.HasPrefix source "/")
  && negb (Strings.HasPrefix source ".")
  && negb (Strings.HasPrefix source "~").

(** The loop of GetVolumeMapping over [service.Volumes]; [mappings] is the
    slice built so far. *)
Fixpoint volume_loop (serviceName : string) (specs : list yaml)
    (mappings : list VolumeMapping) : list VolumeMapping :=
  match specs with
  | [] => mappings
  | volSpec :: rest =>
      match volSpec with
      | YString v =>
          match Strings.Split v ":"%char with
          | source :: target :: _ =>
              if not_bind_source source then
                volume_loop serviceName rest
                  (mappings ++ [{| VolumeName := source; MountPath := target;
                                   OfService := serviceName |}])
              else volume_loop serviceName rest mappings
          | _ => volume_loop serviceName rest mappings
          end
      | YMap v =>
          match index v "source", index v "target" with
          | Some srcVal, Some tgtVal =>
              match as_string srcVal, as_string tgtVal with
              | Some source, Some target =>
                  if String.eqb source "" || String.eqb target "" then
                    volume_loop serviceName rest mappings
                  else
                    let other_type :=
                      match index v "type" with
                      | Some typeVal =>
                          match as_string typeVal with
                          | Some typeStr => negb (String.eqb typeStr "volume")
                          | None => false
                          end
                      | None => false
                      end in
                    if other_type then volume_loop serviceName rest mappings
                    else if not_bind_source source then
                      volume_loop serviceName rest
                        (mappings ++ [{| VolumeName := source; MountPath := target;
                                         OfService := serviceName |}])
                    else volume_loop serviceName rest mappings
              | _, _ => volume_loop serviceName rest mappings
              end
          | _, _ => volume_loop serviceName rest mappings
          end
      | _ => volume_loop serviceName rest mappings
      end
  end.

(** GetVolumeMapping. *)
Definition GetVolumeMapping (cf : ComposeFile) (serviceName : string)
  : result (list VolumeMapping) :=
  match lookup_service (Services cf) serviceName with
  | None => Err (errorString ("service " +:+ serviceName +:+ " not found"))
  | Some service => Ok (volume_loop serviceName (Volumes service) [])
  end.

(** GetAllVolumeMappings: the range over [cf.Services]. *)
Fixpoint all_mappings_loop (cf : ComposeFile) (names : list string)
    (mappings : list VolumeMapping) : list VolumeMapping :=
  match names with
  | [] => mappings
  | serviceName :: rest =>
      match GetVolumeMapping cf serviceName with
      | Ok m => all_mappings_loop cf rest (mappings ++ m)
      | Err _ => all_mappings_loop cf rest mappings
      end
  end.

Definition GetAllVolumeMappings (cf : ComposeFile) : list VolumeMapping :=
  all_mappings_loop cf (map fst (Services cf)) [].

(** GetFullVolumeName. *)
Definition GetFullVolumeName (cf : ComposeFile) (serviceName projectName : string)
  : result string :=
  match GetVolumeMapping cf serviceName with
  | Err e => Err e
  | Ok mappings =>
      match mappings with
      | [] => Err (errorString ("no named volumes found for service " +:+ serviceName))
      | m :: _ => Ok (Strings.Sprintf_s_s projectName (VolumeName m))
      end
  end.

(** The loop of GetAllFullVolumeNames; [seen] is the Go map used as a
    set. *)
Fixpoint full_names_loop (projectName : string) (mappings : list VolumeMapping)
    (names : list string) (seen : gset string) : list string :=
  match mappings with
  | [] => names
  | m :: rest =>
      let fullName := Strings.Sprintf_s_s projectName (VolumeName m) in
      if bool_decide (fullName ∈ seen)
      then full_names_loop projectName rest names seen
      else full_names_loop projectName rest (names ++ [fullName]) ({[fullName]} ∪ seen)
  end.

(** GetAllFullVolumeNames. *)
Definition GetAllFullVolumeNames (cf : ComposeFile) (projectName : string)
  : list string :=
  full_names_loop projectName (GetAllVolumeMappings cf) [] ∅.

(** GetServiceByVolumeName. *)
Fixpoint service_by_volume_loop (cf : ComposeFile) (names : list string)
    (shortName : string) : option string :=
  match names with
  | [] => None
  | serviceName :: rest =>
      match GetVolumeMapping cf serviceName with
      | Err _ => service_by_volume_loop cf rest shortName
      | Ok mappings =>
          if existsb (fun m => String.eqb (VolumeName m) shortName) mappings
          then Some serviceName
          else service_by_volume_loop cf rest shortName
      end
  end.

Definition GetServiceByVolumeName (cf : ComposeFile) (volumeName projectName : string)
  : result string :=
  let pre := projectName +:+ "_" in
  let shortName :=
    if Strings.HasPrefix volumeName pre then Strings.TrimPrefix volumeName pre
    else volumeName in
  match service_by_volume_loop cf (map fst (Services cf)) shortName with
  | Some serviceName => Ok serviceName
  | None => Err (errorString ("no service found using volume " +:+ volumeName))
  end.

Section Load.

(** yaml.Unmarshal into a ComposeFile: the decoder is a library of its
    own, taken as given.  It fills the exported fields; [path] keeps its
    zero value. *)
Variable yaml_Unmarshal : string -> result ComposeFile.

(** LoadComposeFile. *)
Definition LoadComposeFile (os : Os.state) (p : string) : result ComposeFile :=
  match Os.ReadFile os p with
  | Err err => Err err
  | Ok data =>
      match yaml_Unmarshal data with
      | Err err => Err err
      | Ok cf =>
          Ok {| Name := Name cf; Services := Services cf;
                TopVolumes := TopVolumes cf; path := p |}
      end
  end.

End Load.

End Compose.

(* ================================================================== *)
(** ** time *)
(* ================================================================== *)

Module Time.

(** A time.Time as an instant: nanoseconds since the zero Time (January 1
    of year 1, UTC), so that [t.IsZero()] is [t = 0]. *)
Definition Time := Z.

(** A time.Duration: an int64 count of nanoseconds. *)
Definition Duration := Z.

Definition minDuration : Duration := - 2 ^ 63.
Definition maxDuration : Duration := 2 ^ 63 - 1.
Definition Hour : Duration := 3600 * 10 ^ 9.
Definition Second : Duration := 10 ^ 9.

Definition IsZero (t : Time) : bool := t =? 0.

(** t.Sub(u): t - u, held at the largest or smallest Duration when the
    difference does not fit. *)
Definition Sub (t u : Time) : Duration :=
  let d := t - u in
  if d <? minDuration then minDuration
  else if maxDuration <? d then maxDuration
  else d.

(** t.After(u). *)
Definition After (t u : Time) : bool := u <? t.

(** [int(d.Hours() / 24)]: whole days, rounded toward zero.  Go computes
    the quotient in float64; the rounding of that division can matter only
    within a few nanoseconds of a day boundary and is not modelled. *)
Definition whole_days (d : Duration) : Z := Z.quot d (24 * Hour).

(** The instant cut to whole seconds, as SQLite's CURRENT_TIMESTAMP
    stores it. *)
Definition to_seconds (t : Time) : Time := (t / Second) * Second.

End Time.

(* ================================================================== *)
(** ** internal/config *)
(* ================================================================== *)

Module Config.

Record Defaults : Type := {
  CompressFormat : string;
  KeepGenerations : Z;
  StopBeforeBackup : bool
}.

Record Paths : Type := {
  Backups : string;
  Archives : string
}.

(** Project.KeepGenerations, by project name. *)
Record Config : Type := {
  defaults : Defaults;
  paths : Paths;
  Projects : gmap string Z
}.

End Config.

(* ================================================================== *)
(** ** internal/database *)
(* ================================================================== *)

Module Database.

(** VolumeMetadata, as GetVolumeMetadata returns it: a NULL or missing
    timestamp is the zero Time. *)
Record VolumeMetadata : Type := {
  MetaVolumeName : string;
  LastAccessed : Time.Time;
  LastBackup : Time.Time;
  BackupCount : Z
}.

(** BackupRecord, one row of backup_records. *)
Record BackupRecord : Type := {
  ID : Z;
  VolumeName : string;
  ServiceName : string;
  ProjectName : string;
  FilePath : string;
  Size : Z;
  CreatedAt : Time.Time;
  Tag : string;
  Checksum : string
}.

(** A row of volume_metadata (volume_name is the primary key). *)
Record MetaRow : Type := {
  row_volume : string;
  row_last_accessed : option Time.Time;
  row_last_backup : option Time.Time;
  row_backup_count : Z
}.

(** The two tables, and the AUTOINCREMENT counter of backup_records (the
    largest id ever given out). *)
Record DB : Type := {
  volume_metadata : list MetaRow;
  backup_records : list BackupRecord;
  last_id : Z
}.

(** Statements run on a healthy connection: the driver's own failures
    (I/O, locking) are not part of the tables' behaviour and are left to
    the caller's environment. *)

Fixpoint upsert (rows : list MetaRow) (name : string)
    (fresh : MetaRow) (update : MetaRow -> MetaRow) : list MetaRow :=
  match rows with
  | [] => [fresh]
  | r :: rest =>
      if String.eqb (row_volume r) name then update r :: rest
      else r :: upsert rest name fresh update
  end.

(** UpdateLastAccessed, at the instant [now]. *)
Definition UpdateLastAccessed (db : DB) (now : Time.Time) (volumeName : string) : DB :=
  {| volume_metadata :=
       upsert (volume_metadata db) volumeName
         {| row_volume := volumeName; row_last_accessed := Some now;
            row_last_backup := None; row_backup_count := 0 |}
         (fun r => {| row_volume := row_volume r; row_last_accessed := Some now;
                      row_last_backup := row_last_backup r;
                      row_backup_count := row_backup_count r |});
     backup_records := backup_records db;
     last_id := last_id db |}.

(** UpdateLastBackup, at the instant [now]. *)
Definition UpdateLastBackup (db : DB) (now : Time.Time) (volumeName : string) : DB :=
  {| volume_metadata :=
       upsert (volume_metadata db) volumeName
         {| row_volume := volumeName; row_last_accessed := None;
            row_last_backup := Some now; row_backup_count := 1 |}
         (fun r => {| row_volume := row_volume r;
                      row_last_accessed := row_last_accessed r;
                      row_last_backup := Some now;
                      row_backup_count := row_backup_count r + 1 |});
     backup_records := backup_records db;
     last_id := last_id db |}.

(** GetVolumeMetadata. *)
Definition GetVolumeMetadata (db : DB) (volumeName : string) : VolumeMetadata :=
  match List.find (fun r => String.eqb (row_volume r) volumeName) (volume_metadata db) with
  | None =>
      {| MetaVolumeName := volumeName; LastAccessed := 0; LastBackup := 0;
         BackupCount := 0 |}
  | Some r =>
      {| MetaVolumeName := row_volume r;
         LastAccessed := default 0 (row_last_accessed r);
         LastBackup := default 0 (row_last_backup r);
         BackupCount := row_backup_count r |}
  end.

(** AddBackupRecord: the INSERT names neither id nor created_at, so the
    row gets the next id and CURRENT_TIMESTAMP ([now], in whole
    seconds). *)
Definition AddBackupRecord (db : DB) (now : Time.Time) (record : BackupRecord) : DB :=
  {| volume_metadata := volume_metadata db;
     backup_records :=
       backup_records db ++
         [{| ID := last_id db + 1;
             VolumeName := VolumeName record;
             ServiceName := ServiceName record;
             ProjectName := ProjectName record;
             FilePath := FilePath record;
             Size := Size record;
             CreatedAt := Time.to_seconds now;
             Tag := Tag record;
             Checksum := Checksum record |}];
     last_id := last_id db + 1 |}.

(** DeleteBackupRecord. *)
Definition DeleteBackupRecord (db : DB) (id : Z) : DB :=
  {| volume_metadata := volume_metadata db;
     backup_records := List.filter (fun r => negb (ID r =? id)) (backup_records db);
     last_id := last_id db |}.

Section Queries.

(** [ORDER BY created_at DESC]: the engine returns the selected rows
    newest first; among rows of equal created_at the order is the
    engine's choice.  The sorter is a parameter, and theorems assume of it
    only what SQL promises. *)
Variable order_by_created_at_desc : list BackupRecord -> list BackupRecord.

(** GetBackupRecords. *)
Definition GetBackupRecords (db : DB) (volumeName : string) (limit : Z)
  : list BackupRecord :=
  let rows :=
    order_by_created_at_desc
      (List.filter (fun r => String.eqb (VolumeName r) volumeName) (backup_records db)) in
  if 0 <? limit then firstn (Z.to_nat limit) rows else rows.

(** The deletion loop of CleanupOldBackups. *)
Fixpoint delete_loop (db : DB) (toDelete : list BackupRecord) : DB :=
  match toDelete with
  | [] => db
  | record :: rest => delete_loop (DeleteBackupRecord db (ID record)) rest
  end.

(** CleanupOldBackups: the records deleted, and the tables afterwards.
    [records[keepGenerations:]] panics for a negative keepGenerations:
    [None]. *)
Definition CleanupOldBackups (db : DB) (volumeName : string) (keepGenerations : Z)
  : option (list BackupRecord * DB) :=
  let records := GetBackupRecords db volumeName 0 in
  if keepGenerations <? Z.of_nat (length records) then
    if keepGenerations <? 0 then None
    else
      let toDelete := skipn (Z.to_nat keepGenerations) records in
      Some (toDelete, delete_loop db toDelete)
  else Some ([], db).

End Queries.

(** A sorter to run the queries with: insertion sort, newest first, rows
    of equal created_at in table order. *)
Fixpoint insert_desc (r : BackupRecord) (sorted : list BackupRecord)
  : list BackupRecord :=
  match sorted with
  | [] => [r]
  | x :: rest =>
      if CreatedAt x <=? CreatedAt r then r :: sorted
      else x :: insert_desc r rest
  end.

Definition sort_desc (rows : list BackupRecord) : list BackupRecord :=
  fold_right insert_desc [] rows.

End Database.

(* ================================================================== *)
(** ** The outside world of a command *)
(* ================================================================== *)

Module Engine.

Import Errors.

(** What a file's os.Stat reports. *)
Record FileInfo : Type := {
  ModTime : Time.Time;
  FileSize : Z
}.

(** The calls a command makes outside itself, each with the type of its
    answer: the methods of docker.Client and database.DB the commands
    use, the file helpers of commands/utils.go, the clock and the
    terminal prompt.  A Go pair [(value, error)] is a [result]; a lone
    [error] is an [option error] ([None] for nil). *)
Inductive Op : Type -> Type :=
| ListVolumes : Op (result (list string))
| VolumeExists (name : string) : Op bool
| IsVolumeInUse (volumeName : string) : Op (result bool)
| GetContainersUsingVolume (volumeName : string) : Op (result (list string))
| StopContainersUsingVolume (volumeName : string) : Op (option error)
| RestartContainersUsingVolume (volumeName : string) : Op (option error)
| CreateVolume (name : string) : Op (option error)
| RemoveVolume (name : string) (force : bool) : Op (option error)
| BackupVolume (volumeName outputPath : string) (compress : bool) : Op (option error)
| RestoreVolume (volumeName backupPath : string) : Op (option error)
| CopyVolume (sourceVolume targetVolume : string) : Op (option error)
| GetVolumeMetadata (volumeName : string) : Op (result Database.VolumeMetadata)
| AddBackupRecord (record : Database.BackupRecord) : Op (option error)
| UpdateLastBackup (volumeName : string) : Op (option error)
| UpdateLastAccessed (volumeName : string) : Op (option error)
| CleanupOldBackups (volumeName : string) (keepGenerations : Z)
    : Op (option (result (list Database.BackupRecord)))
| EnsureDirectory (dir : string) : Op (option error)
| GetFileSize (file : string) : Op (result Z)
| CalculateChecksum (file : string) : Op (result string)
| Remove (file : string) : Op (option error)
| Now : Op Time.Time
| Confirm (prompt : string) : Op bool.

(** A command: it returns, panics, or makes a call and goes on with the
    answer.  Lines written to the terminal are not part of it. *)
Inductive prog (A : Type) : Type :=
| Ret (a : A)
| Panic
| Vis {X : Type} (op : Op X) (k : X -> prog A).

Arguments Ret {A} a.
Arguments Panic {A}.
Arguments Vis {A X} op k.

Fixpoint bind {A B : Type} (m : prog A) (f : A -> prog B) : prog B :=
  match m with
  | Ret a => f a
  | Panic => Panic
  | Vis op k => Vis op (fun x => bind (k x) f)
  end.

Definition call {X : Type} (op : Op X) : prog X := Vis op Ret.

(** One call with its answer. *)
Inductive event : Type :=
| Event {X : Type} (op : Op X) (answer : X).

Inductive outcome (A : Type) : Type :=
| Returned (a : A)
| Panicked.

Arguments Returned {A} a.
Arguments Panicked {A}.

(** The world answers each call and moves on. *)
Definition handler (W : Type) : Type := forall X : Type, Op X -> W -> X * W.

(** Running a command in a world: how it ends, the world afterwards, and
    the calls it made, in order. *)
Fixpoint run {W A : Type} (h : handler W) (m : prog A) (w : W)
  : outcome A * W * list event :=
  match m with
  | Ret a => (Returned a, w, [])
  | Panic => (Panicked, w, [])
  | Vis op k =>
      let '(x, w1) := h _ op w in
      let '(o, w2, tr) := run h (k x) w1 in
      (o, w2, Event op x :: tr)
  end.

End Engine.

Notation "'let!' x := m 'in' k" := (Engine.bind m (fun x => k))
  (at level 10, x name, m at level 100, k at level 200).

(* ================================================================== *)
(** ** internal/commands *)
(* ================================================================== *)

Module Commands.

Import Errors Engine.

Definition ErrVolumeNotFound : error := errorString "volume not found".
Definition ErrServiceNotFound : error := errorString "service not found".
Definition ErrComposeNotFound : error := errorString "compose file not found".
Definition ErrBackupNotFound : error := errorString "backup not found".

(** Context, without the two client handles: calls through them are the
    [Op]s. *)
Record Context : Type := {
  config : Config.Config;
  Compose : option Compose.ComposeFile;
  ProjectName : string;
  Verbose : bool;
  Quiet : bool
}.

(** ResolveVolumeName. *)
Definition ResolveVolumeName (c : Context) (serviceOrVolume : string)
  : prog (result string) :=
  let resolved :=
    match Compose c with
    | Some cf =>
        match Compose.GetFullVolumeName cf serviceOrVolume (ProjectName c) with
        | Ok fullName => Some fullName
        | Err _ => None
        end
    | None => None
    end in
  match resolved with
  | Some fullName => Ret (Ok fullName)
  | None =>
      let! present := call (VolumeExists serviceOrVolume) in
      if present then Ret (Ok serviceOrVolume)
      else if negb (String.eqb (ProjectName c) "") then
        let withPrefix := ProjectName c +:+ "_" +:+ serviceOrVolume in
        let! present := call (VolumeExists withPrefix) in
        if present then Ret (Ok withPrefix) else Ret (Err ErrVolumeNotFound)
      else Ret (Err ErrVolumeNotFound)
  end.

(** GetServiceName. *)
Definition GetServiceName (c : Context) (volumeName : string) : string :=
  match Compose c with
  | None => ""
  | Some cf =>
      match Compose.GetServiceByVolumeName cf volumeName (ProjectName c) with
      | Ok serviceName => serviceName
      | Err _ => ""
      end
  end.

Section WithClock.

(** time.Time.Format: Go's calendar formatting, taken as given. *)
Variable time_Format : string -> Time.Time -> string.

(** GenerateBackupFilename. *)
Definition GenerateBackupFilename (serviceName format : string) : prog string :=
  let! now := call Now in
  let timestamp := time_Format "2006-01-02_150405" now in
  let extension :=
    if String.eqb format "tar.zst" then ".tar.zst"
    else if String.eqb format "tar" then ".tar"
    else ".tar.gz" in
  Ret (serviceName +:+ "_" +:+ timestamp +:+ extension).

Record BackupOptions : Type := {
  Output : string;
  Format : string;
  NoCompress : bool;
  BackupTag : string;
  Stop : bool;
  BackupServices : list string
}.

(** The loop of backupVolume over the records retention deleted: each
    file is removed, a failure only warned about. *)
Fixpoint remove_files_loop (deleted : list Database.BackupRecord) : prog unit :=
  match deleted with
  | [] => Ret tt
  | record :: rest =>
      let! _err := call (Remove (Database.FilePath record)) in
      remove_files_loop rest
  end.

(** The generations to keep: the project's own setting when positive,
    the default otherwise. *)
Definition keepGenerations_of (c : Context) : Z :=
  match Config.Projects (config c) !! ProjectName c with
  | Some k => if 0 <? k then k else Config.KeepGenerations (Config.defaults (config c))
  | None => Config.KeepGenerations (Config.defaults (config c))
  end.

(** backupVolume. *)
Definition backupVolume (c : Context) (volumeName outputDir : string)
    (opts : BackupOptions) : prog (option error) :=
  let! present := call (VolumeExists volumeName) in
  if negb present then Ret (Some ErrVolumeNotFound)
  else
    let serviceName := GetServiceName c volumeName in
    let! stopped :=
      (if Stop opts then call (StopContainersUsingVolume volumeName) else Ret None) in
    match stopped with
    | Some err => Ret (Some (Errorf_w "failed to stop containers: " err))
    | None =>
        let format :=
          if String.eqb (Format opts) ""
          then Config.CompressFormat (Config.defaults (config c))
          else Format opts in
        let! filename := GenerateBackupFilename volumeName format in
        let outputPath := Filepath.Join outputDir filename in
        let compress :=
          negb (NoCompress opts)
          && (String.eqb format "tar.gz" || String.eqb format "tar.zst") in
        let! moved := call (BackupVolume volumeName outputPath compress) in
        match moved with
        | Some err => Ret (Some (Errorf_w "backup failed: " err))
        | None =>
            let! sized := call (GetFileSize outputPath) in
            let size := match sized with Ok n => n | Err _ => 0 end in
            let! summed := call (CalculateChecksum outputPath) in
            let checksum := match summed with Ok h => h | Err _ => "" end in
            let record :=
              {| Database.ID := 0;
                 Database.VolumeName := volumeName;
                 Database.ServiceName := serviceName;
                 Database.ProjectName := ProjectName c;
                 Database.FilePath := outputPath;
                 Database.Size := size;
                 Database.CreatedAt := 0;
                 Database.Tag := BackupTag opts;
                 Database.Checksum := checksum |} in
            let! added := call (AddBackupRecord record) in
            match added with
            | Some err =>
                Ret (Some (Errorf_w "backup completed but failed to save backup record: " err))
            | None =>
                let! updated := call (UpdateLastBackup volumeName) in
                match updated with
                | Some err =>
                    Ret (Some (Errorf_w
                      ("backup completed but failed to update metadata for volume "
                         +:+ volumeName +:+ ": ") err))
                | None =>
                    let keepGenerations := keepGenerations_of c in
                    if 0 <? keepGenerations then
                      let! cleaned := call (CleanupOldBackups volumeName keepGenerations) in
                      match cleaned with
                      | None => Panic
                      | Some (Ok deleted) =>
                          let! _done := remove_files_loop deleted in
                          Ret None
                      | Some (Err _) => Ret None
                      end
                    else Ret None
                end
            end
        end
    end.

(** Backup: the services named are resolved one by one, the ones not
    found skipped. *)
Fixpoint resolve_loop (c : Context) (services : list string)
    (volumesToBackup : list string) : prog (list string) :=
  match services with
  | [] => Ret volumesToBackup
  | service :: rest =>
      let! resolved := ResolveVolumeName c service in
      match resolved with
      | Err _ => resolve_loop c rest volumesToBackup
      | Ok volumeName => resolve_loop c rest (volumesToBackup ++ [volumeName])
      end
  end.

(** Backup: one backupVolume per volume, a failure reported and passed
    over. *)
Fixpoint backup_loop (c : Context) (volumesToBackup : list string)
    (outputDir : string) (opts : BackupOptions) : prog unit :=
  match volumesToBackup with
  | [] => Ret tt
  | volumeName :: rest =>
      let! _err := backupVolume c volumeName outputDir opts in
      backup_loop c rest outputDir opts
  end.

Definition backup_volumes (c : Context) (volumesToBackup : list string)
    (opts : BackupOptions) : prog (option error) :=
  match volumesToBackup with
  | [] => Ret None
  | _ =>
      let outputDir :=
        if String.eqb (Output opts) ""
        then Filepath.Join (Config.Backups (Config.paths (config c))) (ProjectName c)
        else Output opts in
      let! made := call (EnsureDirectory outputDir) in
      match made with
      | Some err => Ret (Some (Errorf_w "failed to create output directory: " err))
      | None =>
          let! _done := backup_loop c volumesToBackup outputDir opts in
          Ret None
      end
  end.

(** Backup. *)
Definition Backup (c : Context) (opts : BackupOptions) : prog (option error) :=
  match BackupServices opts with
  | [] =>
      match Compose c with
      | None => Ret (Some ErrComposeNotFound)
      | Some cf =>
          match Compose.GetAllFullVolumeNames cf (ProjectName c) with
          | [] => Ret None
          | volumesToBackup => backup_volumes c volumesToBackup opts
          end
      end
  | services =>
      let! volumesToBackup := resolve_loop c services [] in
      backup_volumes c volumesToBackup opts
  end.

Record SwapOptions : Type := {
  Empty : bool;
  NoBackup : bool;
  Restart : bool;
  SwapService : string;
  Source : string
}.

(** Swap, the block under [if !opts.NoBackup]: the current volume is
    archived first; a ledger failure is only warned about. *)
Definition swap_backup (c : Context) (volumeName serviceName : string)
  : prog (option error) :=
  let backupDir :=
    Filepath.Join (Config.Backups (Config.paths (config c))) (ProjectName c) in
  let! made := call (EnsureDirectory backupDir) in
  match made with
  | Some err => Ret (Some (Errorf_w "failed to create backup directory: " err))
  | None =>
      let! filename :=
        GenerateBackupFilename (serviceName +:+ "_swap_backup")
          (Config.CompressFormat (Config.defaults (config c))) in
      let backupPath := Filepath.Join backupDir filename in
      let! moved := call (BackupVolume volumeName backupPath true) in
      match moved with
      | Some err => Ret (Some (Errorf_w "backup failed: " err))
      | None =>
          let! sized := call (GetFileSize backupPath) in
          let size := match sized with Ok n => n | Err _ => 0 end in
          let! summed := call (CalculateChecksum backupPath) in
          let checksum := match summed with Ok h => h | Err _ => "" end in
          let! _added := call (AddBackupRecord
            {| Database.ID := 0;
               Database.VolumeName := volumeName;
               Database.ServiceName := serviceName;
               Database.ProjectName := ProjectName c;
               Database.FilePath := backupPath;
               Database.Size := size;
               Database.CreatedAt := 0;
               Database.Tag := "swap-backup";
               Database.Checksum := checksum |}) in
          Ret None
      end
  end.

(** Swap's closure [restartOnError]. *)
Definition restartOnError (volumeName : string) (containersStopped : bool)
    (containers : list string) (err : error) : prog (option error) :=
  if containersStopped && (0 <? Z.of_nat (length containers)) then
    let! restartErr := call (RestartContainersUsingVolume volumeName) in
    match restartErr with
    | Some restartErr =>
        Ret (Some (wrapError
          (Error err +:+ " (also failed to restart containers: "
             +:+ Error restartErr +:+ ")") err))
    | None => Ret (Some err)
    end
  else Ret (Some err).

(** Swap, from the stop of the containers on. *)
Definition swap_volume (opts : SwapOptions) (volumeName : string)
  : prog (option error) :=
  let! found := call (GetContainersUsingVolume volumeName) in
  let containers := match found with Ok l => l | Err _ => [] end in
  let! stopped :=
    (if 0 <? Z.of_nat (length containers)
     then call (StopContainersUsingVolume volumeName) else Ret None) in
  match stopped with
  | Some err => Ret (Some (Errorf_w "failed to stop containers: " err))
  | None =>
      let containersStopped := 0 <? Z.of_nat (length containers) in
      let! removed := call (RemoveVolume volumeName true) in
      match removed with
      | Some err =>
          restartOnError volumeName containersStopped containers
            (Errorf_w "failed to remove volume: " err)
      | None =>
          let! created := call (CreateVolume volumeName) in
          match created with
          | Some err =>
              restartOnError volumeName containersStopped containers
                (Errorf_w "failed to create volume: " err)
          | None =>
              let! restored :=
                (if negb (String.eqb (Source opts) "") && negb (Empty opts)
                 then call (RestoreVolume volumeName (Source opts)) else Ret None) in
              match restored with
              | Some err =>
                  restartOnError volumeName containersStopped containers
                    (Errorf_w "restore failed: " err)
              | None =>
                  let! _restarted :=
                    (if Restart opts && (0 <? Z.of_nat (length containers))
                     then call (RestartContainersUsingVolume volumeName)
                     else Ret None) in
                  Ret None
              end
          end
      end
  end.

(** Swap. *)
Definition Swap (c : Context) (opts : SwapOptions) : prog (option error) :=
  if String.eqb (SwapService opts) "" then
    Ret (Some (errorString "service name is required"))
  else
    let! resolved := ResolveVolumeName c (SwapService opts) in
    match resolved with
    | Err err => Ret (Some err)
    | Ok volumeName =>
        let serviceName :=
          if String.eqb (GetServiceName c volumeName) "" then SwapService opts
          else GetServiceName c volumeName in
        let! present := call (VolumeExists volumeName) in
        if negb present then Ret (Some ErrVolumeNotFound)
        else
          let! backed :=
            (if negb (NoBackup opts) then swap_backup c volumeName serviceName
             else Ret None) in
          match backed with
          | Some err => Ret (Some err)
          | None => swap_volume opts volumeName
          end
    end.

Record CloneOptions : Type := {
  CloneService : string;
  NewName : string
}.

(** Clone, "Construct target volume name": the target name, or [None]
    where the slice expression [targetVolume[:len(c.ProjectName)]]
    panics. *)
Definition Clone_targetVolume (projectName newName : string) : option string :=
  let targetVolume := newName in
  if negb (String.eqb projectName "") then
    match Strings.slice_to targetVolume (String.length projectName) with
    | None => None
    | Some head =>
        if negb (String.eqb head (projectName +:+ "_"))
        then Some (projectName +:+ "_" +:+ targetVolume)
        else Some targetVolume
    end
  else Some targetVolume.

(** The same step in the later revision of Clone kept beside it in the
    sources, which tests the prefix with strings.HasPrefix. *)
Definition Clone_targetVolume_HasPrefix (projectName newName : string) : string :=
  let targetVolume := newName in
  if negb (String.eqb projectName "") then
    let pre := projectName +:+ "_" in
    if negb (Strings.HasPrefix targetVolume pre) then pre +:+ targetVolume
    else targetVolume
  else targetVolume.

(** Clone. *)
Definition Clone (c : Context) (opts : CloneOptions) : prog (option error) :=
  if String.eqb (CloneService opts) "" then
    Ret (Some (errorString "service name is required"))
  else if String.eqb (NewName opts) "" then
    Ret (Some (errorString "new name is required"))
  else
    let! resolved := ResolveVolumeName c (CloneService opts) in
    match resolved with
    | Err err => Ret (Some err)
    | Ok sourceVolume =>
        match Clone_targetVolume (ProjectName c) (NewName opts) with
        | None => Panic
        | Some targetVolume =>
            let! present := call (VolumeExists targetVolume) in
            let! cleared :=
              (if present then
                 let! yes := call (Confirm
                   ("Volume " +:+ targetVolume +:+ " already exists. Overwrite?")) in
                 if negb yes then Ret (Some (errorString "clone cancelled"))
                 else
                   let! removed := call (RemoveVolume targetVolume true) in
                   match removed with
                   | Some err =>
                       Ret (Some (Errorf_w "failed to remove existing volume: " err))
                   | None => Ret None
                   end
               else Ret None) in
            match cleared with
            | Some err => Ret (Some err)
            | None =>
                let! copied := call (CopyVolume sourceVolume targetVolume) in
                match copied with
                | Some err => Ret (Some (Errorf_w "clone failed: " err))
                | None =>
                    let! _updated := call (UpdateLastAccessed targetVolume) in
                    Ret None
                end
            end
        end
    end.

Record CleanOptions : Type := {
  Unused : bool;
  Stale : Z;
  DryRun : bool;
  Archive : bool;
  Force : bool
}.

(** Clean, "Filter volumes to clean": the loop over the listed volumes;
    [volumesToClean] is the slice built so far. *)
Fixpoint clean_filter_loop (opts : CleanOptions) (volumes : list string)
    (volumesToClean : list string) : prog (list string) :=
  match volumes with
  | [] => Ret volumesToClean
  | vol :: rest =>
      let! unusedClean :=
        (if Unused opts then
           let! used := call (IsVolumeInUse vol) in
           let inUse := match used with Ok b => b | Err _ => false end in
           Ret (negb inUse)
         else Ret false) in
      let! shouldClean :=
        (if 0 <? Stale opts then
           let! got := call (GetVolumeMetadata vol) in
           match got with
           | Ok meta =>
               if negb (Time.IsZero (Database.LastAccessed meta)) then
                 let daysSince :=
                   Time.whole_days
                     (Time.Sub (Database.LastAccessed meta) (Database.LastAccessed meta)) in
                 if Stale opts <=? daysSince then Ret true else Ret unusedClean
               else Ret unusedClean
           | Err _ => Ret unusedClean
           end
         else Ret unusedClean) in
      if shouldClean then clean_filter_loop opts rest (volumesToClean ++ [vol])
      else clean_filter_loop opts rest volumesToClean
  end.

(** cleanVolume. *)
Definition cleanVolume (c : Context) (volumeName archiveDir : string)
  : prog (option error) :=
  let! archived :=
    (if negb (String.eqb archiveDir "") then
       let serviceName :=
         if String.eqb (GetServiceName c volumeName) "" then volumeName
         else GetServiceName c volumeName in
       let! filename :=
         GenerateBackupFilename serviceName
           (Config.CompressFormat (Config.defaults (config c))) in
       let archivePath := Filepath.Join archiveDir filename in
       let! moved := call (BackupVolume volumeName archivePath true) in
       match moved with
       | Some err => Ret (Some (Errorf_w "archive failed: " err))
       | None =>
           let! sized := call (GetFileSize archivePath) in
           let size := match sized with Ok n => n | Err _ => 0 end in
           let! summed := call (CalculateChecksum archivePath) in
           let checksum := match summed with Ok h => h | Err _ => "" end in
           let! _added := call (AddBackupRecord
             {| Database.ID := 0;
                Database.VolumeName := volumeName;
                Database.ServiceName := serviceName;
                Database.ProjectName := ProjectName c;
                Database.FilePath := archivePath;
                Database.Size := size;
                Database.CreatedAt := 0;
                Database.Tag := "cleanup-archive";
                Database.Checksum := checksum |}) in
           Ret None
       end
     else Ret None) in
  match archived with
  | Some err => Ret (Some err)
  | None =>
      let! removed := call (RemoveVolume volumeName false) in
      match removed with
      | Some err => Ret (Some (Errorf_w "failed to delete: " err))
      | None => Ret None
      end
  end.

(** Clean, "Show what will be cleaned": the metadata is read again for
    each volume listed. *)
Fixpoint clean_show_loop (volumesToClean : list string) : prog unit :=
  match volumesToClean with
  | [] => Ret tt
  | volumeName :: rest =>
      let! _meta := call (GetVolumeMetadata volumeName) in
      clean_show_loop rest
  end.

(** Clean, "Clean each volume". *)
Fixpoint clean_each_loop (c : Context) (volumesToClean : list string)
    (archiveDir : string) : prog unit :=
  match volumesToClean with
  | [] => Ret tt
  | volumeName :: rest =>
      let! _err := cleanVolume c volumeName archiveDir in
      clean_each_loop c rest archiveDir
  end.

(** Clean. *)
Definition Clean (c : Context) (opts : CleanOptions) : prog (option error) :=
  let! listed := call ListVolumes in
  match listed with
  | Err err => Ret (Some err)
  | Ok volumes =>
      let! volumesToClean := clean_filter_loop opts volumes [] in
      match volumesToClean with
      | [] => Ret None
      | _ =>
          let! _shown := clean_show_loop volumesToClean in
          if DryRun opts then Ret None
          else
            let! confirmed :=
              (if negb (Force opts) then call (Confirm "
Proceed with cleanup?")
               else Ret true) in
            if negb confirmed then Ret (Some (errorString "cleanup cancelled"))
            else
              let archiveDir :=
                if Archive opts
                then Filepath.Join (Config.Archives (Config.paths (config c))) "cleanup"
                else "" in
              let! made :=
                (if Archive opts then call (EnsureDirectory archiveDir) else Ret None) in
              match made with
              | Some err =>
                  Ret (Some (Errorf_w "failed to create archive directory: " err))
              | None =>
                  let! _done := clean_each_loop c volumesToClean archiveDir in
                  Ret None
              end
      end
  end.

(** The backup directory as FindBackupFile sees it: the files by full
    path, in the name order in which filepath.Glob lists them, each with
    what os.Stat reports ([None] where Stat fails). *)
Definition directory : Type := list (string * option FileInfo).

(** filepath.Match for a pattern of literal bytes and [*], which stands
    for any run of bytes other than the separator.  The class and escape
    syntax is not modelled. *)
Fixpoint glob_match (pattern : string) : string -> bool :=
  match pattern with
  | EmptyString => fun name => String.eqb name ""
  | String p pattern' =>
      if Ascii.eqb p "*" then
        fix star (name : string) : bool :=
          glob_match pattern' name
          || match name with
             | EmptyString => false
             | String c name' => negb (Ascii.eqb c Filepath.slash) && star name'
             end
      else
        fun name =>
          match name with
          | EmptyString => false
          | String c name' => Ascii.eqb p c && glob_match pattern' name'
          end
  end.

(** filepath.Glob for a well-formed pattern whose only syntax is [*]: the
    files that match, in the order of the listing.  The answer
    ErrBadPattern for a malformed pattern is not modelled. *)
Definition Glob (dir : directory) (pattern : string) : list string :=
  map fst (List.filter (fun f => glob_match pattern (fst f)) dir).

(** os.Stat. *)
Fixpoint Stat (dir : directory) (file : string) : option FileInfo :=
  match dir with
  | [] => None
  | (name, info) :: rest => if String.eqb name file then info else Stat rest file
  end.

(** FindBackupFile, "Return the most recent file": the loop over the
    matches with the two variables it updates. *)
Fixpoint latest_loop (dir : directory) (matches : list string)
    (latest : string) (latestTime : Time.Time) : string :=
  match matches with
  | [] => latest
  | m :: rest =>
      match Stat dir m with
      | None => latest_loop dir rest latest latestTime
      | Some info =>
          if String.eqb latest "" || Time.After (ModTime info) latestTime
          then latest_loop dir rest m (ModTime info)
          else latest_loop dir rest latest latestTime
      end
  end.

(** FindBackupFile, where the two patterns are well formed (no pattern
    syntax in the directory or the service name), so that neither call
    of filepath.Glob returns an error. *)
Definition FindBackupFile (dir : directory) (backupDir serviceName : string)
  : result string :=
  let matches := Glob dir (Filepath.Join backupDir (serviceName +:+ "_*.tar.gz")) in
  let matches :=
    match matches with
    | [] => Glob dir (Filepath.Join backupDir (serviceName +:+ "_*.tar.zst"))
    | _ => matches
    end in
  match matches with
  | [] => Err ErrBackupNotFound
  | _ =>
      let latest := latest_loop dir matches "" 0 in
      if String.eqb latest "" then Err ErrBackupNotFound else Ok latest
  end.

(** restoreService when neither [List] nor [Select] is set, up to the
    choice of the backup file: the volume to restore and the file
    chosen. *)
Definition restoreService_latest (c : Context) (dir : directory) (serviceName : string)
  : prog (string * result string) :=
  let! resolved := ResolveVolumeName c serviceName in
  let volumeName := match resolved with Ok v => v | Err _ => serviceName end in
  let svcName :=
    if String.eqb (GetServiceName c volumeName) "" then serviceName
    else GetServiceName c volumeName in
  let backupDir :=
    Filepath.Join (Config.Backups (Config.paths (config c))) (ProjectName c) in
  match FindBackupFile dir backupDir svcName with
  | Err err =>
      Ret (volumeName,
           Err (wrapError ("no backup found for " +:+ svcName +:+ ": " +:+ Error err) err))
  | Ok backupFile => Ret (volumeName, Ok backupFile)
  end.

End WithClock.
End Commands.

(* ================================================================== *)
(** ** internal/commands: archive *)
(* ================================================================== *)

Module ArchiveCommand.

Import Errors Engine.

Section WithClock.

Variable time_Format : string -> Time.Time -> string.

Record ArchiveOptions : Type := {
  Output : string;
  Verify : bool;
  Force : bool;
  Services : list string
}.

(** fmt's [%v] of a []string: the elements between brackets, separated
    by spaces. *)
Definition Sprint_v (l : list string) : string := "[" +:+ Strings.Join l " " +:+ "]".

(** archiveVolume. *)
Definition archiveVolume (c : Commands.Context) (volumeName outputDir : string)
    (opts : ArchiveOptions) : prog (option error) :=
  let! present := call (VolumeExists volumeName) in
  if negb present then Ret (Some Commands.ErrVolumeNotFound)
  else
    let! used := call (IsVolumeInUse volumeName) in
    let inUse := match used with Ok b => b | Err _ => false end in
    if inUse && negb (Force opts) then
      let! found := call (GetContainersUsingVolume volumeName) in
      let containers := match found with Ok l => l | Err _ => [] end in
      Ret (Some (errorString
        ("volume is in use by: " +:+ Sprint_v containers
           +:+ " (use --force to archive anyway)")))
    else
      let serviceName :=
        if String.eqb (Commands.GetServiceName c volumeName) "" then volumeName
        else Commands.GetServiceName c volumeName in
      let! filename :=
        Commands.GenerateBackupFilename time_Format serviceName
          (Config.CompressFormat (Config.defaults (Commands.config c))) in
      let archivePath := Filepath.Join outputDir filename in
      let! moved := call (BackupVolume volumeName archivePath true) in
      match moved with
      | Some err => Ret (Some (Errorf_w "archive backup failed: " err))
      | None =>
          let! summed := call (CalculateChecksum archivePath) in
          match (if Verify opts then summed
                 else Ok match summed with Ok sum => sum | Err _ => "" end) with
          | Err err => Ret (Some (Errorf_w "checksum calculation failed: " err))
          | Ok checksum =>
              let! sized := call (GetFileSize archivePath) in
              let size := match sized with Ok n => n | Err _ => 0 end in
              let! _added := call (AddBackupRecord
                {| Database.ID := 0;
                   Database.VolumeName := volumeName;
                   Database.ServiceName := serviceName;
                   Database.ProjectName := Commands.ProjectName c;
                   Database.FilePath := archivePath;
                   Database.Size := size;
                   Database.CreatedAt := 0;
                   Database.Tag := "archive";
                   Database.Checksum := checksum |}) in
              let! removed := call (RemoveVolume volumeName false) in
              match removed with
              | Some err => Ret (Some (Errorf_w "failed to delete volume: " err))
              | None => Ret None
              end
          end
      end.

(** Archive, "Archive each volume": a failure is reported and passed
    over. *)
Fixpoint archive_loop (c : Commands.Context) (volumesToArchive : list string)
    (outputDir : string) (opts : ArchiveOptions) : prog unit :=
  match volumesToArchive with
  | [] => Ret tt
  | volumeName :: rest =>
      let! _err := archiveVolume c volumeName outputDir opts in
      archive_loop c rest outputDir opts
  end.

(** Archive, from the list of volumes on. *)
Definition archive_volumes (c : Commands.Context) (volumesToArchive : list string)
    (opts : ArchiveOptions) : prog (option error) :=
  match volumesToArchive with
  | [] => Ret None
  | _ =>
      let outputDir :=
        if String.eqb (Output opts) ""
        then Filepath.Join (Config.Archives (Config.paths (Commands.config c))) (Commands.ProjectName c)
        else Output opts in
      let! made := call (EnsureDirectory outputDir) in
      match made with
      | Some err => Ret (Some (Errorf_w "failed to create archive directory: " err))
      | None =>
          let! agreed :=
            (if negb (Force opts) then call (Confirm "Continue?") else Ret true) in
          if negb agreed then Ret (Some (errorString "archive cancelled"))
          else
            let! _done := archive_loop c volumesToArchive outputDir opts in
            Ret None
      end
  end.

(** Archive. *)
Definition Archive (c : Commands.Context) (opts : ArchiveOptions) : prog (option error) :=
  match Services opts with
  | [] =>
      match Commands.Compose c with
      | None => Ret (Some Commands.ErrComposeNotFound)
      | Some cf =>
          archive_volumes c (Compose.GetAllFullVolumeNames cf (Commands.ProjectName c)) opts
      end
  | services =>
      let! volumesToArchive := Commands.resolve_loop c services [] in
      archive_volumes c volumesToArchive opts
  end.

End WithClock.

End ArchiveCommand.

(* ================================================================== *)
(** ** internal/commands: restore from a file *)
(* ================================================================== *)

Module RestoreCommand.

Import Errors Engine.

(** strings.HasSuffix(s, suffix):
    [len(s) >= len(suffix) && s[len(s)-len(suffix):] == suffix]. *)
Definition HasSuffix (s suffix : string) : bool :=
  (String.length suffix <=? String.length s)%nat
  && String.eqb (Strings.drop_bytes (String.length s - String.length suffix) s) suffix.

(** strings.TrimSuffix(s, suffix): [s[:len(s)-len(suffix)]] when [s]
    ends with the suffix. *)
Definition TrimSuffix (s suffix : string) : string :=
  if HasSuffix s suffix
  then String.substring 0 (String.length s - String.length suffix) s
  else s.

(** The loop of filepath.Ext, from the last byte backwards: [seen] is the
    text already passed.  It stops at a separator with no extension and
    at a dot with the text from the dot on. *)
Fixpoint ext_loop (backwards : list ascii) (seen : string) : string :=
  match backwards with
  | [] => ""
  | c :: before =>
      if Ascii.eqb c Filepath.slash then ""
      else if Ascii.eqb c "." then String c seen
      else ext_loop before (String c seen)
  end.

(** filepath.Ext. *)
Definition Ext (path : string) : string :=
  ext_loop (rev (list_ascii_of_string path)) "".

Record RestoreOptions : Type := {
  Select : bool;
  List : bool;
  Force : bool;
  Restart : bool;
  Target : string
}.

Section WithQuote.

(** fmt's [%q] of a string (strconv.Quote), taken as given. *)
Variable strconv_Quote : string -> string.

(** restoreFromFile, "If volume name not specified, try to infer from
    backup filename": the service name read off the file name, or the
    error returned. *)
Definition service_of_filename (backupFile : string) : result string :=
  let baseName := Filepath.Base backupFile in
  let baseName := TrimSuffix baseName (Ext baseName) in
  let baseName :=
    if HasSuffix baseName ".tar" then TrimSuffix baseName ".tar" else baseName in
  let parts := Strings.Split baseName "_" in
  if (List.length parts <? 3)%nat then
    Err (errorString
      ("backup filename " +:+ strconv_Quote (Filepath.Base backupFile)
         +:+ " does not match expected format (service_YYYYMMDD_HHMMSS.tar.gz). Please specify volume name explicitly with --target"))
  else
    let serviceName := Strings.Join (firstn (List.length parts - 2) parts) "_" in
    if String.eqb serviceName "" then
      Err (errorString
        ("could not extract service name from backup filename "
           +:+ strconv_Quote (Filepath.Base backupFile)
           +:+ ". Please specify volume name explicitly with --target"))
    else Ok serviceName.

(** restoreFromFile, "Check if volume exists and is in use" and "Confirm
    overwrite": whether the restore may go on. *)
Definition confirm_overwrite (volumeName : string) (opts : RestoreOptions) : prog bool :=
  let! present := call (VolumeExists volumeName) in
  if present then
    let! used := call (IsVolumeInUse volumeName) in
    let inUse := match used with Ok b => b | Err _ => false end in
    let! goes_on :=
      (if inUse && negb (Force opts)
       then call (Confirm ("Volume " +:+ volumeName +:+ " is in use. Continue?"))
       else Ret true) in
    if negb goes_on then Ret false
    else if negb (Force opts)
         then call (Confirm ("This will overwrite " +:+ volumeName +:+ ". Continue?"))
         else Ret true
  else Ret true.

(** restoreFromFile. *)
Definition restoreFromFile (c : Commands.Context) (backupFile volumeName : string)
    (opts : RestoreOptions) : prog (option error) :=
  let! named :=
    (if String.eqb volumeName "" then
       match service_of_filename backupFile with
       | Err err => Ret (Err err)
       | Ok serviceName =>
           let! resolved := Commands.ResolveVolumeName c serviceName in
           Ret (Ok match resolved with
                   | Ok fullName => fullName
                   | Err _ => Commands.ProjectName c +:+ "_" +:+ serviceName
                   end)
       end
     else Ret (Ok volumeName)) in
  match named with
  | Err err => Ret (Some err)
  | Ok volumeName =>
      if String.eqb volumeName "" then
        Ret (Some (errorString
          "cannot determine volume name from backup file. Please specify volume name explicitly with --target"))
      else
        let! agreed := confirm_overwrite volumeName opts in
        if negb agreed then Ret (Some (errorString "restore cancelled"))
        else
          let! restored := call (RestoreVolume volumeName backupFile) in
          match restored with
          | Some err => Ret (Some (Errorf_w "restore failed: " err))
          | None =>
              let! _updated := call (UpdateLastAccessed volumeName) in
              let! _restarted :=
                (if Restart opts then call (RestartContainersUsingVolume volumeName)
                 else Ret None) in
              Ret None
          end
  end.

End WithQuote.

End RestoreCommand.

(* ================================================================== *)
(** ** internal/commands: sizes for display *)
(* ================================================================== *)

Module Format.

(** An int64 (and the int of a 64-bit platform): the value of a result
    after wrap-around. *)
Definition int64 (z : Z) : Z := (z + 2 ^ 63) mod 2 ^ 64 - 2 ^ 63.

Definition unit : Z := 1024.

(** FormatSize, the loop [for n := bytes / unit; n >= unit; n /= unit]
    with the two variables it updates; it returns [div] and [exp]. *)
Equations size_loop (n div exp : Z) : Z * Z by wf (Z.to_nat n) lt :=
  size_loop n div exp with Z_le_dec unit n := {
    | left _ => size_loop (Z.quot n unit) (int64 (div * unit)) (int64 (exp + 1))
    | right _ => (div, exp) }.
Next Obligation.
  unfold unit in *. apply Z2Nat.inj_lt; [apply Z.quot_pos; lia|lia|].
  apply Z.quot_lt; lia.
Qed.

(** ["KMGTPE"[exp]]: Go panics when the index is out of range; the panic
    is [None]. *)
Definition unit_letter (exp : Z) : option ascii :=
  if (0 <=? exp) && (exp <? 6) then String.get (Z.to_nat exp) "KMGTPE" else None.

Section WithFloats.

(** fmt's [%.1f] of [float64(bytes)/float64(div)], taken as given. *)
Variable Sprintf_1f : Z -> Z -> string.

(** FormatSize; [None] for a panic. *)
Definition FormatSize (bytes : Z) : option string :=
  if bytes <? unit then Some (NilEmpty.string_of_int (Z.to_int bytes) +:+ " B")
  else
    let '(div, exp) := size_loop (Z.quot bytes unit) unit 0 in
    match unit_letter exp with
    | Some letter => Some (Sprintf_1f bytes div +:+ " " +:+ String letter "B")
    | None => None
    end.

End WithFloats.

End Format.

(* ================================================================== *)
(** ** internal/config: paths *)
(* ================================================================== *)

Module ConfigPaths.

Import Errors.

Section WithHome.

(** What os.UserHomeDir answers. *)
Variable UserHomeDir : result string.

(** expandPath. *)
Definition expandPath (path : string) : string :=
  match path with
  | String first rest =>
      if Ascii.eqb first "~" then
        match UserHomeDir with
        | Err _ => path
        | Ok home => if String.eqb path "~" then home else Filepath.Join home rest
        end
      else path
  | EmptyString => path
  end.

(** GetConfigPath: [filepath.Join(home, ".dvm", "config.yaml")], the home
    directory empty when it cannot be found. *)
Definition GetConfigPath : string :=
  let home := match UserHomeDir with Ok home => home | Err _ => "" end in
  Filepath.Join (Filepath.Join home ".dvm") "config.yaml".

End WithHome.

End ConfigPaths.

(* ================================================================== *)
(** ** internal/docker: which containers use a volume *)
(* ================================================================== *)

Module DockerClient.

Import Errors.

(** A container as the daemon lists it: its names and, for each of its
    mounts, the name of the volume mounted (empty for a bind mount). *)
Record Container : Type := {
  Names : list string;
  Mounts : list string
}.

(** IsVolumeInUse, the loop over the mounts of one container: whether it
    returns true. *)
Fixpoint in_use_mounts_loop (mounts : list string) (volumeName : string) : bool :=
  match mounts with
  | [] => false
  | mnt :: rest =>
      if String.eqb mnt volumeName then true else in_use_mounts_loop rest volumeName
  end.

(** IsVolumeInUse, the loop over the containers. *)
Fixpoint in_use_loop (containers : list Container) (volumeName : string) : bool :=
  match containers with
  | [] => false
  | cont :: rest =>
      if in_use_mounts_loop (Mounts cont) volumeName then true
      else in_use_loop rest volumeName
  end.

(** GetContainersUsingVolume, the loop over the mounts of one container,
    left at the first mount of the volume. *)
Fixpoint using_mounts_loop (mounts names : list string) (volumeName : string)
    (result : list string) : list string :=
  match mounts with
  | [] => result
  | mnt :: rest =>
      if String.eqb mnt volumeName then
        match names with
        | name :: _ => result ++ [name]
        | [] => result
        end
      else using_mounts_loop rest names volumeName result
  end.

(** GetContainersUsingVolume, the loop over the containers. *)
Fixpoint using_loop (containers : list Container) (volumeName : string)
    (result : list string) : list string :=
  match containers with
  | [] => result
  | cont :: rest =>
      using_loop rest volumeName
        (using_mounts_loop (Mounts cont) (Names cont) volumeName result)
  end.

Section WithDaemon.

(** The daemon: a state, the listing of all containers and the listing
    of the volumes, each of which may fail. *)
Context {W Volume : Type}.
Variable ContainerList : W -> result (list Container) * W.
Variable VolumeList : W -> result (list Volume) * W.
Variable Name : Volume -> string.

(** IsVolumeInUse. *)
Definition IsVolumeInUse (volumeName : string) (w : W) : result bool * W :=
  let '(listed, w1) := ContainerList w in
  match listed with
  | Err err => (Err err, w1)
  | Ok containers => (Ok (in_use_loop containers volumeName), w1)
  end.

(** GetContainersUsingVolume. *)
Definition GetContainersUsingVolume (volumeName : string) (w : W)
  : result (list string) * W :=
  let '(listed, w1) := ContainerList w in
  match listed with
  | Err err => (Err err, w1)
  | Ok containers => (Ok (using_loop containers volumeName []), w1)
  end.

(** ListVolumes. *)
Definition ListVolumes (w : W) : result (list Volume) * W := VolumeList w.

(** GetUnusedVolumes, the loop: a volume whose check fails is passed
    over. *)
Fixpoint unused_loop (vols unused : list Volume) (w : W) : list Volume * W :=
  match vols with
  | [] => (unused, w)
  | vol :: rest =>
      let '(checked, w1) := IsVolumeInUse (Name vol) w in
      match checked with
      | Err _ => unused_loop rest unused w1
      | Ok inUse => unused_loop rest (if negb inUse then unused ++ [vol] else unused) w1
      end
  end.

(** GetUnusedVolumes. *)
Definition GetUnusedVolumes (w : W) : result (list Volume) * W :=
  let '(listed, w1) := ListVolumes w in
  match listed with
  | Err err => (Err err, w1)
  | Ok vols => let '(unused, w2) := unused_loop vols [] w1 in (Ok unused, w2)
  end.

End WithDaemon.

End DockerClient.

(* ================================================================== *)
(** ** internal/commands: clone, the later revision *)
(* ================================================================== *)

Module CloneCommand.

Import Errors Engine.

(** The classes of volumeNamePattern, [^[a-zA-Z0-9][a-zA-Z0-9_.-]*$], on
    bytes: a byte outside ASCII is part of a rune that is in neither
    class. *)
Definition first_class (c : ascii) : bool :=
  Strings.between "a" "z" c || Strings.between "A" "Z" c || Strings.between "0" "9" c.

Definition rest_class (c : ascii) : bool :=
  first_class c || Ascii.eqb c "_" || Ascii.eqb c "." || Ascii.eqb c "-".

(** volumeNamePattern.MatchString. *)
Definition volumeNamePattern_MatchString (name : string) : bool :=
  match name with
  | EmptyString => false
  | String c rest => first_class c && Strings.all_bytes rest_class rest
  end.

(** strings.Contains(name, ".."). *)
Fixpoint Contains_dot_dot (name : string) : bool :=
  match name with
  | String "." (String "." _) => true
  | String _ rest => Contains_dot_dot rest
  | EmptyString => false
  end.

Section WithQuote.

(** fmt's [%q] of a string (strconv.Quote), taken as given. *)
Variable strconv_Quote : string -> string.

(** validateVolumeName. *)
Definition validateVolumeName (name : string) : option error :=
  if String.eqb name "" then Some (errorString "volume name cannot be empty")
  else if (255 <? String.length name)%nat then
    Some (errorString "volume name too long (max 255 characters)")
  else if String.eqb name "." || String.eqb name ".." then
    Some (errorString ("volume name " +:+ strconv_Quote name +:+ " is not allowed"))
  else if negb (volumeNamePattern_MatchString name) then
    Some (errorString
      ("volume name " +:+ strconv_Quote name
         +:+ " contains invalid characters (allowed: alphanumeric, underscore, hyphen, period; must start with alphanumeric)"))
  else if Contains_dot_dot name then
    Some (errorString
      ("volume name " +:+ strconv_Quote name +:+ " contains invalid sequence '..'"))
  else None.

(** Clone. *)
Definition Clone (c : Commands.Context) (opts : Commands.CloneOptions)
  : prog (option error) :=
  if String.eqb (Commands.CloneService opts) "" then
    Ret (Some (errorString "service name is required"))
  else if String.eqb (Commands.NewName opts) "" then
    Ret (Some (errorString "new name is required"))
  else
    match validateVolumeName (Commands.NewName opts) with
    | Some err => Ret (Some err)
    | None =>
        let! resolved := Commands.ResolveVolumeName c (Commands.CloneService opts) in
        match resolved with
        | Err err => Ret (Some err)
        | Ok sourceVolume =>
            let targetVolume :=
              Commands.Clone_targetVolume_HasPrefix (Commands.ProjectName c)
                (Commands.NewName opts) in
            let! present := call (VolumeExists targetVolume) in
            let! cleared :=
              (if present then
                 let! yes := call (Confirm
                   ("Volume " +:+ targetVolume +:+ " already exists. Overwrite?")) in
                 if negb yes then Ret (Some (errorString "clone cancelled"))
                 else
                   let! removed := call (RemoveVolume targetVolume true) in
                   match removed with
                   | Some err =>
                       Ret (Some (Errorf_w "failed to remove existing volume: " err))
                   | None => Ret None
                   end
               else Ret None) in
            match cleared with
            | Some err => Ret (Some err)
            | None =>
                let! copied := call (CopyVolume sourceVolume targetVolume) in
                match copied with
                | Some err => Ret (Some (Errorf_w "clone failed: " err))
                | None =>
                    let! updated := call (UpdateLastAccessed targetVolume) in
                    match updated with
                    | Some err =>
                        Ret (Some (wrapError
                          ("clone completed but failed to update metadata for "
                             +:+ targetVolume +:+ ": " +:+ Error err) err))
                    | None => Ret None
                    end
                end
            end
        end
    end.

End WithQuote.

End CloneCommand.

(* ================================================================== *)
(** ** internal/commands: history *)
(* ================================================================== *)

Module HistoryCommand.

Import Errors Engine.

Record HistoryOptions : Type := {
  Limit : Z;
  All : bool;
  Service : string
}.

Section Queries.

(** [ORDER BY created_at DESC], as in [Database]. *)
Variable order_by_created_at_desc :
  list Database.BackupRecord -> list Database.BackupRecord.

(** GetAllBackupRecords. *)
Definition GetAllBackupRecords (db : Database.DB) (limit : Z)
  : list Database.BackupRecord :=
  let rows := order_by_created_at_desc (Database.backup_records db) in
  if 0 <? limit then firstn (Z.to_nat limit) rows else rows.

(** History, "Filter by project": the loop, left once [limit] records
    are collected. *)
Fixpoint project_loop (allRecords : list Database.BackupRecord) (projectName : string)
    (limit : Z) (records : list Database.BackupRecord) : list Database.BackupRecord :=
  match allRecords with
  | [] => records
  | rec :: rest =>
      if String.eqb (Database.ProjectName rec) projectName then
        let records := (records ++ [rec])%list in
        if limit <=? Z.of_nat (List.length records) then records
        else project_loop rest projectName limit records
      else project_loop rest projectName limit records
  end.

(** History, up to the table: the records it shows, read from the store
    [db]. *)
Definition History_records (c : Commands.Context) (opts : HistoryOptions)
    (db : Database.DB) : prog (list Database.BackupRecord) :=
  let limit := if Limit opts =? 0 then 10 else Limit opts in
  if negb (String.eqb (Service opts) "") then
    let! resolved := Commands.ResolveVolumeName c (Service opts) in
    let volumeName := match resolved with Ok v => v | Err _ => Service opts end in
    Ret (Database.GetBackupRecords order_by_created_at_desc db volumeName limit)
  else if All opts then Ret (GetAllBackupRecords db limit)
  else Ret (project_loop (GetAllBackupRecords db 0) (Commands.ProjectName c) limit []).

End Queries.

(** History, "Shorten path for display". *)
Definition displayPath (filePath : string) : string :=
  if (50 <? String.length filePath)%nat
  then "..." +:+ Strings.drop_bytes (String.length filePath - 47) filePath
  else filePath.

End HistoryCommand.

(* ================================================================== *)
(** ** Worlds to run commands in *)
(* ================================================================== *)

Module World.

Import Errors Engine.

(** A world where nothing fails: every volume asked about exists, no
    container mounts any, files are empty, the clock stands at zero and
    the user answers yes. *)
Definition quiet : handler unit :=
  fun X op w =>
    match op in Op X return X * unit with
    | ListVolumes => (Ok [], w)
    | VolumeExists _ => (true, w)
    | IsVolumeInUse _ => (Ok false, w)
    | GetContainersUsingVolume _ => (Ok [], w)
    | StopContainersUsingVolume _ => (None, w)
    | RestartContainersUsingVolume _ => (None, w)
    | CreateVolume _ => (None, w)
    | RemoveVolume _ _ => (None, w)
    | BackupVolume _ _ _ => (None, w)
    | RestoreVolume _ _ => (None, w)
    | CopyVolume _ _ => (None, w)
    | GetVolumeMetadata volumeName =>
        (Ok {| Database.MetaVolumeName := volumeName; Database.LastAccessed := 0;
               Database.LastBackup := 0; Database.BackupCount := 0 |}, w)
    | AddBackupRecord _ => (None, w)
    | UpdateLastBackup _ => (None, w)
    | UpdateLastAccessed _ => (None, w)
    | CleanupOldBackups _ _ => (Some (Ok []), w)
    | EnsureDirectory _ => (None, w)
    | GetFileSize _ => (Ok 0, w)
    | CalculateChecksum _ => (Ok "", w)
    | Remove _ => (None, w)
    | Now => (0, w)
    | Confirm _ => (true, w)
    end.

Section Store.

Variable order_by_created_at_desc :
  list Database.BackupRecord -> list Database.BackupRecord.

Context {E : Type}.

(** The rest of the world: Docker, the files, the clock, the user. *)
Variable env : handler E.

(** A world whose metadata store is the database of [Database], on a
    healthy connection: the four store calls act on the tables, reading
    the clock of [env] where the statement does (time.Now in the Go
    method, CURRENT_TIMESTAMP in the INSERT); every other call is
    [env]'s. *)
Definition with_store : handler (Database.DB * E) :=
  fun X op w =>
    let '(db, e) := w in
    match op in Op X return X * (Database.DB * E) with
    | GetVolumeMetadata volumeName =>
        (Ok (Database.GetVolumeMetadata db volumeName), (db, e))
    | AddBackupRecord record =>
        let '(now, e') := env _ Now e in
        (None, (Database.AddBackupRecord db now record, e'))
    | UpdateLastBackup volumeName =>
        let '(now, e') := env _ Now e in
        (None, (Database.UpdateLastBackup db now volumeName, e'))
    | UpdateLastAccessed volumeName =>
        let '(now, e') := env _ Now e in
        (None, (Database.UpdateLastAccessed db now volumeName, e'))
    | CleanupOldBackups volumeName keepGenerations =>
        match Database.CleanupOldBackups order_by_created_at_desc db
                volumeName keepGenerations with
        | Some (deleted, db') => (Some (Ok deleted), (db', e))
        | None => (None, (db, e))
        end
    | op' => let '(x, e') := env _ op' e in (x, (db, e'))
    end.

End Store.

End World.

(* ================================================================== *)
(** ** Concrete worlds for examples *)
(* ================================================================== *)

Module Scenarios.

Import Errors Engine.

(** A quiet world with a clock that advances one second per reading and
    a Docker engine that lists [volumes]. *)
Definition clocked (volumes : list string) : handler Time.Time :=
  fun X op now =>
    match op in Op X return X * Time.Time with
    | ListVolumes => (Ok volumes, now)
    | Now => (now, now + Time.Second)
    | op' => (fst (World.quiet _ op' tt), now)
    end.

(** A quiet world in which one container mounts every volume, creating a
    volume fails with [createErr], and restarting answers [restartErr]. *)
Definition create_fails (createErr : error) (restartErr : option error)
  : handler unit :=
  fun X op w =>
    match op in Op X return X * unit with
    | GetContainersUsingVolume _ => (Ok ["/web"], w)
    | CreateVolume _ => (Some createErr, w)
    | RestartContainersUsingVolume _ => (restartErr, w)
    | op' => World.quiet _ op' w
    end.

(** Timestamps are not rendered in examples. *)
Definition no_format (layout : string) (t : Time.Time) : string := "T".

(** Timestamps rendered as the count of whole seconds. *)
Definition in_seconds (layout : string) (t : Time.Time) : string :=
  NilEmpty.string_of_int (Z.to_int (t / Time.Second)).

Definition day : Time.Duration := 24 * Time.Hour.

(** The options of a plain [dvm backup]. *)
Definition plain_backup : Commands.BackupOptions :=
  {| Commands.Output := ""; Commands.Format := ""; Commands.NoCompress := false;
     Commands.BackupTag := ""; Commands.Stop := false;
     Commands.BackupServices := [] |}.

(** A project [p] whose services db and web both mount the named volume
    data. *)
Definition shared_volume_project : Compose.ComposeFile :=
  {| Compose.Name := "p";
     Compose.Services :=
       [("db", {| Compose.Image := "postgres";
                  Compose.Volumes := [Compose.YString "data:/var/lib/postgresql/data"] |});
        ("web", {| Compose.Image := "nginx";
                   Compose.Volumes := [Compose.YString "./site:/usr/share/nginx/html";
                                       Compose.YString "data:/srv/data:ro"] |})];
     Compose.TopVolumes := [("data", Compose.YNull)];
     Compose.path := "compose.yaml" |}.

Definition context (keep : Z) (cf : option Compose.ComposeFile) (project : string)
  : Commands.Context :=
  {| Commands.config :=
       {| Config.defaults :=
            {| Config.CompressFormat := "tar.gz"; Config.KeepGenerations := keep;
               Config.StopBeforeBackup := false |};
          Config.paths := {| Config.Backups := "/home/u/.dvm/backups";
                             Config.Archives := "/home/u/.dvm/archives" |};
          Config.Projects := ∅ |};
     Commands.Compose := cf;
     Commands.ProjectName := project;
     Commands.Verbose := false;
     Commands.Quiet := true |}.

Definition empty_db : Database.DB :=
  {| Database.volume_metadata := []; Database.backup_records := [];
     Database.last_id := 0 |}.

(** A backup directory with two .tar.gz archives of db, the one listed
    first modified last. *)
Definition two_archives : Commands.directory :=
  [("/b/p/db_2024-01-01_000000.tar.gz",
    Some {| ModTime := 131 * day; FileSize := 1 |});
   ("/b/p/db_2024-02-01_000000.tar.gz",
    Some {| ModTime := 100 * day; FileSize := 1 |})].

(** A quiet world that lists [volumes] and whose user answers no. *)
Definition declining (volumes : list string) : handler unit :=
  fun X op w =>
    match op in Op X return X * unit with
    | ListVolumes => (Ok volumes, w)
    | Confirm _ => (false, w)
    | op' => World.quiet _ op' w
    end.

(** A quiet world that lists [volumes] and whose data mover fails. *)
Definition mover_fails (volumes : list string) : handler unit :=
  fun X op w =>
    match op in Op X return X * unit with
    | ListVolumes => (Ok volumes, w)
    | BackupVolume _ _ _ => (Some (errorString "no space left on device"), w)
    | op' => World.quiet _ op' w
    end.

(** A quiet world where every volume is mounted by the container web. *)
Definition mounted : handler unit :=
  fun X op w =>
    match op in Op X return X * unit with
    | IsVolumeInUse _ => (Ok true, w)
    | GetContainersUsingVolume _ => (Ok ["web"], w)
    | op' => World.quiet _ op' w
    end.

(** A time format that always gives the same date and clock time. *)
Definition dated : string -> Time.Time -> string :=
  fun _ _ => "2024-01-01_000000".

(** A daemon with two containers: web mounts app_data twice, and a
    container without a name mounts cache. *)
Definition two_containers : list DockerClient.Container :=
  [{| DockerClient.Names := ["/web"; "/web_alias"];
      DockerClient.Mounts := ["app_data"; ""; "app_data"] |};
   {| DockerClient.Names := []; DockerClient.Mounts := ["cache"] |}].

Definition steady_daemon : unit -> result (list DockerClient.Container) * unit :=
  fun w => (Ok two_containers, w).

Definition three_volumes : unit -> result (list string) * unit :=
  fun w => (Ok ["app_data"; "old_data"; "cache"], w).

(** A record of a project, with its id and creation time. *)
Definition record_of (project : string) (id : Z) (created : Time.Time)
  : Database.BackupRecord :=
  {| Database.ID := id; Database.VolumeName := project +:+ "_data";
     Database.ServiceName := "db"; Database.ProjectName := project;
     Database.FilePath := "/b/" +:+ project +:+ "/db.tar.gz"; Database.Size := 1;
     Database.CreatedAt := created; Database.Tag := ""; Database.Checksum := "" |}.

(** A ledger with two records of the project p and one of q between
    them. *)
Definition ledger : Database.DB :=
  {| Database.volume_metadata := [];
     Database.backup_records := [record_of "p" 1 10; record_of "q" 2 20; record_of "p" 3 30];
     Database.last_id := 3 |}.

(** A ledger with three generations of p_data, made at the seconds 10,
    20 and 30. *)
Definition generation (id : Z) (file : string) (created : Time.Time)
  : Database.BackupRecord :=
  {| Database.ID := id; Database.VolumeName := "p_data"; Database.ServiceName := "db";
     Database.ProjectName := "p"; Database.FilePath := file; Database.Size := 1;
     Database.CreatedAt := created; Database.Tag := ""; Database.Checksum := "" |}.

Definition three_generations : Database.DB :=
  {| Database.volume_metadata := [];
     Database.backup_records :=
       [generation 1 "/b/first" 10; generation 2 "/b/second" 20;
        generation 3 "/b/third" 30];
     Database.last_id := 3 |}.

End Scenarios.

(* ================================================================== *)
(** ** What a run shows *)
(* ================================================================== *)

Module Observed.

Import Errors Engine.

(** The runs of the data mover for a backup: the volume and the archive
    path of each call of BackupVolume. *)
Definition data_mover_run (e : event) : option (string * string) :=
  match e with
  | Event op _ =>
      match op with
      | BackupVolume volumeName outputPath _ => Some (volumeName, outputPath)
      | _ => None
      end
  end.

Definition data_mover_runs (tr : list event) : list (string * string) :=
  omap data_mover_run tr.

(** The archives produced: the runs that ended without error. *)
Definition artifact (e : event) : option (string * string) :=
  match e with
  | @Event X op answer =>
      match op in Op X return X -> option (string * string) with
      | BackupVolume volumeName outputPath _ =>
          fun err => match err with
                     | None => Some (volumeName, outputPath)
                     | Some _ => None
                     end
      | _ => fun _ => None
      end answer
  end.

Definition artifacts (tr : list event) : list (string * string) :=
  omap artifact tr.

(** The files removed. *)
Definition removed_file (e : event) : option string :=
  match e with
  | Event op _ =>
      match op with
      | Remove file => Some file
      | _ => None
      end
  end.

Definition removed_files (tr : list event) : list string :=
  omap removed_file tr.

(** A step of Swap from the deletion on that failed: the volume and the
    error the engine gave. *)
Definition failed_step (e : event) : option (string * error) :=
  match e with
  | @Event X op answer =>
      match op in Op X return X -> option (string * error) with
      | RemoveVolume name _ => fun err => option_map (pair name) err
      | CreateVolume name => fun err => option_map (pair name) err
      | RestoreVolume name _ => fun err => option_map (pair name) err
      | _ => fun _ => None
      end answer
  end.

Definition first_failed_step (tr : list event) : option (string * error) :=
  head (omap failed_step tr).

(** The containers of [volumeName] were stopped: a call of
    StopContainersUsingVolume for it that returned nil. *)
Definition stopped (volumeName : string) (e : event) : bool :=
  match e with
  | @Event X op answer =>
      match op in Op X return X -> bool with
      | StopContainersUsingVolume name =>
          fun err => String.eqb name volumeName
                     && match err with None => true | Some _ => false end
      | _ => fun _ => false
      end answer
  end.

Definition containers_stopped (volumeName : string) (tr : list event) : bool :=
  existsb (stopped volumeName) tr.

(** The calls made after the first failed step, if a step failed. *)
Fixpoint after_first_failure (tr : list event) : option (list event) :=
  match tr with
  | [] => None
  | e :: rest =>
      match failed_step e with
      | Some _ => Some rest
      | None => after_first_failure rest
      end
  end.

(** The kinds of call the safety statements speak of. *)
Definition removes_a_volume (X : Type) (op : Op X) : bool :=
  match op with RemoveVolume _ _ => true | _ => false end.

Definition runs_the_data_mover (X : Type) (op : Op X) : bool :=
  match op with BackupVolume _ _ _ => true | _ => false end.

Definition asks_the_user (X : Type) (op : Op X) : bool :=
  match op with Confirm _ => true | _ => false end.

Definition restarts_containers (X : Type) (op : Op X) : bool :=
  match op with RestartContainersUsingVolume _ => true | _ => false end.

(** Calls that change a volume or the containers using it. *)
Definition changes_a_volume (X : Type) (op : Op X) : bool :=
  match op with
  | StopContainersUsingVolume _ | RestartContainersUsingVolume _
  | CreateVolume _ | RemoveVolume _ _ | RestoreVolume _ _ | CopyVolume _ _ => true
  | _ => false
  end.

Definition checks_existence (X : Type) (op : Op X) : bool :=
  match op with VolumeExists _ => true | _ => false end.

Definition copies_a_volume (X : Type) (op : Op X) : bool :=
  match op with CopyVolume _ _ => true | _ => false end.

Definition restores_a_volume (X : Type) (op : Op X) : bool :=
  match op with RestoreVolume _ _ => true | _ => false end.

(** Calls that create, remove or overwrite a volume. *)
Definition alters_a_volume (X : Type) (op : Op X) : bool :=
  match op with
  | CreateVolume _ | RemoveVolume _ _ | RestoreVolume _ _ | CopyVolume _ _ => true
  | _ => false
  end.

(** Calls that write: to a volume, to the containers, to the store or to
    the file system. *)
Definition writes (X : Type) (op : Op X) : bool :=
  match op with
  | StopContainersUsingVolume _ | RestartContainersUsingVolume _
  | CreateVolume _ | RemoveVolume _ _ | RestoreVolume _ _ | CopyVolume _ _
  | BackupVolume _ _ _ | AddBackupRecord _ | UpdateLastBackup _
  | UpdateLastAccessed _ | CleanupOldBackups _ _ | EnsureDirectory _ | Remove _ => true
  | _ => false
  end.

(** Calls that archive a volume or create, remove or overwrite one: the
    steps of a replacement, in the order in which they were made. *)
Definition archives_or_alters (X : Type) (op : Op X) : bool :=
  runs_the_data_mover X op || alters_a_volume X op.

(** The calls of a kind in a run. *)
Definition calls (kind : forall X : Type, Op X -> bool) (tr : list event) : list event :=
  List.filter (fun e => match e with Event op _ => kind _ op end) tr.

(** A command that makes no call of a kind, whatever it is answered. *)
Fixpoint never {A : Type} (kind : forall X : Type, Op X -> bool) (m : prog A) : Prop :=
  match m with
  | Ret _ => True
  | Panic => True
  | Vis op k => kind _ op = false /\ forall x, never kind (k x)
  end.

(** A command that cannot panic, whatever it is answered. *)
Fixpoint always_returns {A : Type} (m : prog A) : Prop :=
  match m with
  | Ret _ => True
  | Panic => False
  | Vis _ k => forall x, always_returns (k x)
  end.

(** The volumes removed, each with the force flag of the call. *)
Definition removal (e : event) : option (string * bool) :=
  match e with
  | Event op _ =>
      match op with
      | RemoveVolume name force => Some (name, force)
      | _ => None
      end
  end.

Definition removals (tr : list event) : list (string * bool) := omap removal tr.

(** The volumes created. *)
Definition creation (e : event) : option string :=
  match e with
  | Event op _ =>
      match op with
      | CreateVolume name => Some name
      | _ => None
      end
  end.

Definition creations (tr : list event) : list string := omap creation tr.

(** The answers the user gave. *)
Definition confirmation (e : event) : option bool :=
  match e with
  | @Event X op answer =>
      match op in Op X return X -> option bool with
      | Confirm _ => fun yes => Some yes
      | _ => fun _ => None
      end answer
  end.

Definition confirmations (tr : list event) : list bool := omap confirmation tr.

(** The volumes whose existence was asked for. *)
Definition existence_check (e : event) : option string :=
  match e with
  | Event op _ =>
      match op with
      | VolumeExists name => Some name
      | _ => None
      end
  end.

Definition existence_checks (tr : list event) : list string := omap existence_check tr.

(** The copies made: source and target of each call of CopyVolume. *)
Definition copy (e : event) : option (string * string) :=
  match e with
  | Event op _ =>
      match op with
      | CopyVolume sourceVolume targetVolume => Some (sourceVolume, targetVolume)
      | _ => None
      end
  end.

Definition copies (tr : list event) : list (string * string) := omap copy tr.

(** The restores run: volume and archive of each call of RestoreVolume. *)
Definition restore (e : event) : option (string * string) :=
  match e with
  | Event op _ =>
      match op with
      | RestoreVolume volumeName backupPath => Some (volumeName, backupPath)
      | _ => None
      end
  end.

Definition restores (tr : list event) : list (string * string) := omap restore tr.

(** The volumes the engine reported to be in use. *)
Definition found_in_use (e : event) : option string :=
  match e with
  | @Event X op answer =>
      match op in Op X return X -> option string with
      | IsVolumeInUse volumeName =>
          fun used => match used with
                      | Ok true => Some volumeName
                      | _ => None
                      end
      | _ => fun _ => None
      end answer
  end.

Definition volumes_found_in_use (tr : list event) : list string := omap found_in_use tr.

(** The volumes deleted: the removals that ended without error. *)
Definition deletion (e : event) : option string :=
  match e with
  | @Event X op answer =>
      match op in Op X return X -> option string with
      | RemoveVolume name _ =>
          fun err => match err with
                     | None => Some name
                     | Some _ => None
                     end
      | _ => fun _ => None
      end answer
  end.

Definition deletions (tr : list event) : list string := omap deletion tr.

(** The files whose checksum could be computed. *)
Definition summed_file (e : event) : option string :=
  match e with
  | @Event X op answer =>
      match op in Op X return X -> option string with
      | CalculateChecksum path =>
          fun summed => match summed with
                        | Ok _ => Some path
                        | Err _ => None
                        end
      | _ => fun _ => None
      end answer
  end.

Definition summed_files (tr : list event) : list string := omap summed_file tr.

(** Every removal in the trace is unforced and comes after an archive of
    the same volume was produced earlier in the trace. *)
Definition removals_follow_archives (tr : list event) : Prop :=
  forall before e after volumeName force,
    tr = (before ++ e :: after)%list ->
    removal e = Some (volumeName, force) ->
    force = false /\ In volumeName (map fst (artifacts before)).

(** The answers of the engine on the existence of volumes, and the last
    of them. *)
Definition existence_answer (e : event) : option (string * bool) :=
  match e with
  | @Event X op answer =>
      match op in Op X return X -> option (string * bool) with
      | VolumeExists name => fun present => Some (name, present)
      | _ => fun _ => None
      end answer
  end.

Definition existence_answers (tr : list event) : list (string * bool) :=
  omap existence_answer tr.

Definition last_existence_answer (tr : list event) : option (string * bool) :=
  match rev (existence_answers tr) with
  | [] => None
  | answer :: _ => Some answer
  end.

End Observed.

(* ================================================================== *)
(** ** Assumptions on a world *)
(* ================================================================== *)

Module Assumed.

Import Errors Engine.


(** What SQL promises of [ORDER BY created_at DESC]: the same rows, no
    row before a newer one. *)
Definition orders_newest_first
    (sorter : list Database.BackupRecord -> list Database.BackupRecord) : Prop :=
  forall rows,
    Permutation (sorter rows) rows
    /\ StronglySorted
         (fun a b => Database.CreatedAt b <= Database.CreatedAt a) (sorter rows).

(** The primary key of backup_records: ids are distinct, and none exceeds
    the AUTOINCREMENT counter. *)
Definition ids_in_order (db : Database.DB) : Prop :=
  NoDup (map Database.ID (Database.backup_records db))
  /\ forall r, In r (Database.backup_records db) -> Database.ID r <= Database.last_id db.

(** A name without the syntax of filepath.Match ([*], [?], [[] and the
    backslash).  In a pattern such a name stands for itself, and a
    pattern made of such names and [*] is well formed: filepath.Glob
    does not answer ErrBadPattern for it. *)
Definition literal_in_patterns (name : string) : Prop :=
  Strings.contains_byte "*" name = false
  /\ Strings.contains_byte "?" name = false
  /\ Strings.contains_byte "[" name = false
  /\ Strings.contains_byte (ascii_of_nat 92) name = false.

End Assumed.

(* ================================================================== *)
(** ** The properties, as the specification words them *)
(* ================================================================== *)

Module Stated.

(** [^[a-z0-9][a-z0-9_.-]*$] on a string without newline. *)
Definition alnum_byte (c : ascii) : bool :=
  Strings.between "a" "z" c || Strings.between "0" "9" c.

Definition name_byte (c : ascii) : bool :=
  alnum_byte c || Ascii.eqb c "_" || Ascii.eqb c "." || Ascii.eqb c "-".

Definition matches_project_name (s : string) : bool :=
  match s with
  | EmptyString => false
  | String c rest => alnum_byte c && Strings.all_bytes name_byte rest
  end.

(** A volume spec of the data model: the short form [source:target],
    or the long form with its optional type. *)
Inductive VolumeSpec : Type :=
| ShortForm (source target : string)
| LongForm (source target : string) (type : option string).

(** The spec an entry of a service's volume list stands for.  The short
    form is the first colon-separated pair of a string; the long form is a
    mapping whose source and target are strings, neither empty.  A type
    counts as given when it is a string; any other entry is no volume
    spec. *)
Definition read_spec (entry : Compose.yaml) : option VolumeSpec :=
  match entry with
  | Compose.YString s =>
      match Strings.Split s ":"%char with
      | source :: target :: _ => Some (ShortForm source target)
      | _ => None
      end
  | Compose.YMap fields =>
      match Compose.index fields "source", Compose.index fields "target" with
      | Some (Compose.YString source), Some (Compose.YString target) =>
          if String.eqb source "" || String.eqb target "" then None
          else Some (LongForm source target
                 match Compose.index fields "type" with
                 | Some (Compose.YString t) => Some t
                 | _ => None
                 end)
      | _, _ => None
      end
  | _ => None
  end.

Definition source_of (spec : VolumeSpec) : string :=
  match spec with
  | ShortForm source _ => source
  | LongForm source _ _ => source
  end.

Definition target_of (spec : VolumeSpec) : string :=
  match spec with
  | ShortForm _ target => target
  | LongForm _ target _ => target
  end.

Definition begins_with (c : ascii) (s : string) : bool :=
  match s with
  | String d _ => Ascii.eqb c d
  | EmptyString => false
  end.

(** A named volume: the source is not absolute, not dot-relative, not
    home-relative, and a type, if given, is "volume". *)
Definition is_named_volume (spec : VolumeSpec) : bool :=
  negb (begins_with "/" (source_of spec))
  && negb (begins_with "." (source_of spec))
  && negb (begins_with "~" (source_of spec))
  && match spec with
     | LongForm _ _ (Some t) => String.eqb t "volume"
     | _ => true
     end.

(** What Swap returns for the failure [primary] of a late step, given the
    answer of the restart. *)
Definition surfaced (primary : Errors.error) (restartErr : option Errors.error)
  : Errors.error :=
  match restartErr with
  | None => primary
  | Some restartErr =>
      Errors.wrapError
        (Errors.Error primary +:+ " (also failed to restart containers: "
           +:+ Errors.Error restartErr +:+ ")") primary
  end.

(** The statement of C4 for a run that ended with [ended] after the calls
    [tr]. *)
Definition compensated (volumeName : string)
    (ended : Engine.outcome (option Errors.error)) (tr : list Engine.event) : Prop :=
  forall v err,
    Observed.first_failed_step tr = Some (v, err) ->
    Observed.containers_stopped v tr = true ->
    v = volumeName
    /\ exists restartErr primary,
         Observed.after_first_failure tr
         = Some [Engine.Event (Engine.RestartContainersUsingVolume volumeName) restartErr]
         /\ Errors.Unwrap primary = Some err
         /\ ended = Engine.Returned (Some (surfaced primary restartErr)).

(** The rows of the ledger that belong to a volume. *)
Definition of_volume (volumeName : string) (r : Database.BackupRecord) : bool :=
  String.eqb (Database.VolumeName r) volumeName.

Definition ledger_of (volumeName : string) (db : Database.DB)
  : list Database.BackupRecord :=
  List.filter (of_volume volumeName) (Database.backup_records db).

(** [n] backups of one volume in a row, each one successful: the run
    stops at the first error. *)
Fixpoint successive_backups (time_Format : string -> Time.Time -> string)
    (c : Commands.Context) (volumeName outputDir : string)
    (opts : Commands.BackupOptions) (n : nat) : Engine.prog (option Errors.error) :=
  match n with
  | O => Engine.Ret None
  | S k =>
      let! err := Commands.backupVolume time_Format c volumeName outputDir opts in
      match err with
      | Some e => Engine.Ret (Some e)
      | None => successive_backups time_Format c volumeName outputDir opts k
      end
  end.

Definition mapping_of (serviceName : string) (spec : VolumeSpec)
  : Compose.VolumeMapping :=
  {| Compose.VolumeName := source_of spec;
     Compose.MountPath := target_of spec;
     Compose.OfService := serviceName |}.

(** The mapping of an entry that is a named volume. *)
Definition named_mapping (serviceName : string) (entry : Compose.yaml)
  : option Compose.VolumeMapping :=
  match read_spec entry with
  | Some spec =>
      if is_named_volume spec then Some (mapping_of serviceName spec) else None
  | None => None
  end.

End Stated.

(* ================================================================== *)
(** * Theorems *)
(* ================================================================== *)

(** ** Bytes and runes *)

Lemma byte_val_range (c : ascii) : 0 <= Strings.byte_val c < 256.
Proof.
  unfold Strings.byte_val.
  pose proof (N_ascii_bounded c) as H. lia.
Qed.

Lemma byte_of_Z_val (c : ascii) : Strings.byte_of_Z (Strings.byte_val c) = c.
Proof.
  unfold Strings.byte_of_Z.
  rewrite Z.mod_small by apply byte_val_range.
  unfold Strings.byte_val. rewrite N2Z.id. apply ascii_N_embedding.
Qed.

Lemma byte_val_of_Z (z : Z) : 0 <= z < 256 -> Strings.byte_val (Strings.byte_of_Z z) = z.
Proof.
  intros Hz. unfold Strings.byte_val, Strings.byte_of_Z.
  rewrite Z.mod_small by lia.
  rewrite N_ascii_embedding by lia. lia.
Qed.

Lemma app_String (c : ascii) (s t : string) : String c s +:+ t = String c (s +:+ t).
Proof. reflexivity. Qed.

Lemma app_Empty (t : string) : "" +:+ t = t.
Proof. reflexivity. Qed.

Lemma length_app (s t : string) :
  String.length (s +:+ t) = (String.length s + String.length t)%nat.
Proof.
  induction s as [|c s IH]; [reflexivity|].
  rewrite app_String. cbn [String.length]. now rewrite IH.
Qed.

Ltac each_byte c :=
  destruct c as [[|] [|] [|] [|] [|] [|] [|] [|]]; vm_compute; try reflexivity; try discriminate; auto.

Lemma allowed_rune_spec (r : Utf8.rune) :
  Compose.allowed_rune r = true <->
  (97 <= r <= 122 \/ 48 <= r <= 57 \/ r = 45 \/ r = 95 \/ r = 46).
Proof.
  unfold Compose.allowed_rune.
  change (Utf8.rune_of "a") with 97. change (Utf8.rune_of "z") with 122.
  change (Utf8.rune_of "0") with 48. change (Utf8.rune_of "9") with 57.
  change (Utf8.rune_of "-") with 45. change (Utf8.rune_of "_") with 95.
  change (Utf8.rune_of ".") with 46.
  rewrite !orb_true_iff, !andb_true_iff, !Z.leb_le, !Z.eqb_eq. tauto.
Qed.

Lemma name_byte_allowed (c : ascii) :
  Stated.name_byte c = Compose.allowed_rune (Strings.byte_val c).
Proof. each_byte c. Qed.

Lemma name_byte_ascii (c : ascii) :
  Stated.name_byte c = true -> (Strings.byte_val c <? Utf8.RuneSelf) = true.
Proof. each_byte c. Qed.

Lemma name_byte_lower (c : ascii) :
  Stated.name_byte c = true -> Utf8.ascii_ToLower c = c.
Proof. each_byte c. Qed.

Lemma name_byte_not_cut (c : ascii) :
  Stated.name_byte c = true -> Strings.contains_byte c "-_." = false ->
  Stated.alnum_byte c = true.
Proof. each_byte c. Qed.

Lemma encode_allowed (r : Utf8.rune) :
  Compose.allowed_rune r = true ->
  Utf8.encode r = String (Strings.byte_of_Z r) EmptyString.
Proof.
  intros H. apply allowed_rune_spec in H. unfold Utf8.encode.
  replace ((0 <=? r) && (r <=? 127)) with true; [reflexivity|].
  symmetry. apply andb_true_iff. split; apply Z.leb_le; lia.
Qed.

Lemma allowed_byte_of_rune (r : Utf8.rune) :
  Compose.allowed_rune r = true -> Stated.name_byte (Strings.byte_of_Z r) = true.
Proof.
  intros H. rewrite name_byte_allowed, byte_val_of_Z; [exact H|].
  apply allowed_rune_spec in H. lia.
Qed.

(** Whatever runes come in, the builder holds name bytes only. *)
Lemma written_runes_are_name_bytes (rs : list Utf8.rune) :
  Strings.all_bytes Stated.name_byte
    (Utf8.write_runes (List.filter Compose.allowed_rune rs)) = true.
Proof.
  induction rs as [|r rs IH]; [reflexivity|].
  cbn [List.filter]. destruct (Compose.allowed_rune r) eqn:Hr; [|exact IH].
  cbn [Utf8.write_runes]. rewrite (encode_allowed r Hr).
  rewrite app_String, app_Empty. cbn [Strings.all_bytes].
  rewrite (allowed_byte_of_rune r Hr). exact IH.
Qed.

Lemma TrimLeft_all_bytes (p : ascii -> bool) (s cutset : string) :
  Strings.all_bytes p s = true -> Strings.all_bytes p (Strings.TrimLeft s cutset) = true.
Proof.
  induction s as [|c s IH]; [reflexivity|].
  cbn. intros H. apply andb_true_iff in H as [Hc Hs].
  destruct (Strings.contains_byte c cutset); [auto|].
  cbn. now rewrite Hc, Hs.
Qed.

Lemma TrimLeft_head (s cutset : string) (c : ascii) (t : string) :
  Strings.TrimLeft s cutset = String c t -> Strings.contains_byte c cutset = false.
Proof.
  induction s as [|d s IH]; [discriminate|].
  cbn. destruct (Strings.contains_byte d cutset) eqn:Hd; [exact IH|].
  intros H. injection H as -> _. exact Hd.
Qed.

(** On a string of name bytes, lowering, ranging over the runes and
    writing them back change nothing. *)
Lemma ToLower_name_bytes (table : Utf8.rune -> Utf8.rune) (s : string) :
  Strings.all_bytes Stated.name_byte s = true -> Utf8.ToLower table s = s.
Proof.
  intros H. unfold Utf8.ToLower.
  assert (Ha : Strings.all_bytes (fun c => Strings.byte_val c <? Utf8.RuneSelf) s = true).
  { induction s as [|c s IH]; [reflexivity|].
    cbn in *. apply andb_true_iff in H as [Hc Hs].
    now rewrite (name_byte_ascii c Hc), IH. }
  rewrite Ha. clear Ha.
  induction s as [|c s IH]; [reflexivity|].
  cbn in *. apply andb_true_iff in H as [Hc Hs].
  now rewrite (name_byte_lower c Hc), IH.
Qed.

Lemma decode_ascii (c : ascii) (t : string) :
  (Strings.byte_val c <? Utf8.RuneSelf) = true ->
  Utf8.decode c t = (Strings.byte_val c, 1%nat).
Proof.
  intros H. unfold Utf8.decode. change Utf8.RuneSelf with 128 in H.
  now rewrite H.
Qed.

Lemma rewrite_name_bytes (s : string) :
  Strings.all_bytes Stated.name_byte s = true ->
  Utf8.write_runes (List.filter Compose.allowed_rune (Utf8.runes s)) = s.
Proof.
  unfold Utf8.runes.
  induction s as [|c s IH]; [reflexivity|].
  cbn [Strings.all_bytes]. intros H. apply andb_true_iff in H as [Hc Hs].
  cbn [Utf8.runes_from]. rewrite (decode_ascii c s (name_byte_ascii c Hc)).
  cbn [Nat.pred List.filter].
  rewrite <- name_byte_allowed, Hc. cbn [Utf8.write_runes].
  rewrite encode_allowed by (now rewrite <- name_byte_allowed).
  rewrite byte_of_Z_val, app_String, app_Empty. now rewrite IH.
Qed.

(** The shape of every normalized name: name bytes only, and no
    separator in front. *)
Lemma normalized_shape (table : Utf8.rune -> Utf8.rune) (x : string) :
  Strings.all_bytes Stated.name_byte (Compose.normalizeProjectName table x) = true /\
  match Compose.normalizeProjectName table x with
  | EmptyString => True
  | String c _ => Strings.contains_byte c "-_." = false
  end.
Proof.
  unfold Compose.normalizeProjectName. split.
  - apply TrimLeft_all_bytes, written_runes_are_name_bytes.
  - destruct (Strings.TrimLeft _ _) eqn:E; [exact I|].
    exact (TrimLeft_head _ _ _ _ E).
Qed.

(** C6. normalizeProjectName is a total function; applying it twice gives
    what applying it once gives, for every input string and whatever the
    Unicode case table holds; and its result is the empty string or matches
    [^[a-z0-9][a-z0-9_.-]*$]. *)
Theorem normalizeProjectName_idempotent_and_wellformed :
  forall (table : Utf8.rune -> Utf8.rune) (x : string),
    Compose.normalizeProjectName table (Compose.normalizeProjectName table x)
      = Compose.normalizeProjectName table x
    /\ (Compose.normalizeProjectName table x = ""
        \/ Stated.matches_project_name (Compose.normalizeProjectName table x) = true).
Proof.
  intros table x.
  destruct (normalized_shape table x) as [Hall Hhead].
  set (y := Compose.normalizeProjectName table x) in *.
  split.
  - unfold Compose.normalizeProjectName at 1.
    rewrite (ToLower_name_bytes table y Hall), (rewrite_name_bytes y Hall).
    destruct y as [|c t]; [reflexivity|].
    cbn [Strings.TrimLeft]. now rewrite Hhead.
  - destruct y as [|c t]; [now left|right].
    cbn in Hall. apply andb_true_iff in Hall as [Hc Ht].
    cbn [Stated.matches_project_name].
    now rewrite (name_byte_not_cut c Hc Hhead), Ht.
Qed.

(** ** Project names *)

Lemma upto_last_slash_none (p : string) :
  Strings.contains_byte Filepath.slash p = false -> Filepath.upto_last_slash p = "".
Proof.
  destruct p as [|c t]; [reflexivity|].
  cbn [Strings.contains_byte Filepath.upto_last_slash].
  intros H. apply orb_false_iff in H as [Hc Ht].
  rewrite Ht. rewrite Ascii.eqb_sym in Hc. now rewrite Hc.
Qed.

(** A path without separator has the directory ".". *)
Lemma Dir_without_separator (p : string) :
  Strings.contains_byte Filepath.slash p = false -> Filepath.Dir p = ".".
Proof.
  intros H. unfold Filepath.Dir. now rewrite (upto_last_slash_none p H).
Qed.

(** C5. GetProjectName returns the normalization of the first source that
    is present (not empty), in the order override, declared name,
    COMPOSE_PROJECT_NAME, directory: each line below is one level of the
    priority, under the absence of all higher ones, so the sixteen
    combinations of presence are covered.  The directory source is the
    base name of the definition file's directory; when that directory is
    "." (as for every path without a separator) and the working directory
    can be read, it is the base name of the working directory. *)
Theorem GetProjectName_follows_priority :
  forall (table : Utf8.rune -> Utf8.rune) (os : Os.state)
         (cf : Compose.ComposeFile) (override : string),
    let norm := Compose.normalizeProjectName table in
    let env := Os.Getenv os "COMPOSE_PROJECT_NAME" in
    let dir := Filepath.Dir (Compose.path cf) in
    let got := Compose.GetProjectName table os cf override in
    (override <> "" -> got = norm override)
    /\ (override = "" -> Compose.Name cf <> "" -> got = norm (Compose.Name cf))
    /\ (override = "" -> Compose.Name cf = "" -> env <> "" -> got = norm env)
    /\ (override = "" -> Compose.Name cf = "" -> env = "" -> dir <> "." ->
        got = norm (Filepath.Base dir))
    /\ (override = "" -> Compose.Name cf = "" -> env = "" -> dir = "." ->
        forall wd, Os.cwd os = Some wd -> got = norm (Filepath.Base wd))
    /\ (Strings.contains_byte Filepath.slash (Compose.path cf) = false -> dir = ".").
Proof.
  intros table os cf override norm env dir got.
  subst got. unfold Compose.GetProjectName. fold env. fold dir.
  repeat split.
  - intros H. apply String.eqb_neq in H. now rewrite H.
  - intros -> H. apply String.eqb_neq in H. cbn. now rewrite H.
  - intros -> -> H. apply String.eqb_neq in H. cbn. now rewrite H.
  - intros -> -> -> H. apply String.eqb_neq in H. cbn. now rewrite H.
  - intros -> -> -> -> wd ->. reflexivity.
  - apply Dir_without_separator.
Qed.

(** The theorem at the inputs of the repository's tests: an override
    beats the declared name, the variable and the directory. *)
Lemma GetProjectName_follows_priority_witness :
  Compose.GetProjectName (fun r => r)
    {| Os.environ := {["COMPOSE_PROJECT_NAME" := "envName"]};
       Os.cwd := Some "/home/dev"; Os.files := ∅ |}
    {| Compose.Name := "fromfile"; Compose.Services := [];
       Compose.TopVolumes := [];
       Compose.path := "/tmp/PriorityProject/compose.yaml" |}
    "OverrideName"
  = "overridename".
Proof.
  pose proof (GetProjectName_follows_priority (fun r => r)
    {| Os.environ := {["COMPOSE_PROJECT_NAME" := "envName"]};
       Os.cwd := Some "/home/dev"; Os.files := ∅ |}
    {| Compose.Name := "fromfile"; Compose.Services := [];
       Compose.TopVolumes := [];
       Compose.path := "/tmp/PriorityProject/compose.yaml" |}
    "OverrideName") as H.
  cbv zeta in H. destruct H as [H _].
  rewrite H by discriminate. vm_compute. reflexivity.
Defined.

Example GetProjectName_declared_name_beats_env :
  Compose.GetProjectName (fun r => r)
    {| Os.environ := {["COMPOSE_PROJECT_NAME" := "envName"]};
       Os.cwd := Some "/home/dev"; Os.files := ∅ |}
    {| Compose.Name := "FromFile"; Compose.Services := [];
       Compose.TopVolumes := [];
       Compose.path := "/tmp/PriorityProject/compose.yaml" |} ""
  = "fromfile".
Proof. vm_compute. reflexivity. Qed.

Example GetProjectName_env_beats_directory :
  Compose.GetProjectName (fun r => r)
    {| Os.environ := {["COMPOSE_PROJECT_NAME" := "EnvName"]};
       Os.cwd := Some "/home/dev"; Os.files := ∅ |}
    {| Compose.Name := ""; Compose.Services := [];
       Compose.TopVolumes := [];
       Compose.path := "/tmp/PriorityProject/compose.yaml" |} ""
  = "envname".
Proof. vm_compute. reflexivity. Qed.

Example GetProjectName_directory_name :
  Compose.GetProjectName (fun r => r)
    {| Os.environ := ∅; Os.cwd := Some "/home/dev"; Os.files := ∅ |}
    {| Compose.Name := ""; Compose.Services := [];
       Compose.TopVolumes := [];
       Compose.path := "/tmp/MyProject/compose.yaml" |} ""
  = "myproject".
Proof. vm_compute. reflexivity. Qed.

Example GetProjectName_working_directory :
  Compose.GetProjectName (fun r => r)
    {| Os.environ := ∅; Os.cwd := Some "/tmp/t1/CapsProject"; Os.files := ∅ |}
    {| Compose.Name := ""; Compose.Services := [];
       Compose.TopVolumes := [];
       Compose.path := "compose.yaml" |} ""
  = "capsproject".
Proof. vm_compute. reflexivity. Qed.

(** ** Named volumes *)

Lemma HasPrefix_one (c : ascii) (s : string) :
  Strings.HasPrefix s (String c EmptyString) = Stated.begins_with c s.
Proof.
  unfold Strings.HasPrefix. destruct s as [|d t]; [reflexivity|].
  cbn. destruct (ascii_dec c d) as [->|Hne].
  - rewrite Ascii.eqb_refl. now destruct t.
  - apply Ascii.eqb_neq in Hne. now rewrite Hne.
Qed.

Lemma not_bind_source_spec (source : string) :
  Compose.not_bind_source source =
  negb (Stated.begins_with "/" source) && negb (Stated.begins_with "." source)
  && negb (Stated.begins_with "~" source).
Proof. unfold Compose.not_bind_source. now rewrite !HasPrefix_one. Qed.

(** The loop appends, in order, the mapping of each entry that is a
    named volume. *)
Lemma volume_loop_spec (serviceName : string) (specs : list Compose.yaml) :
  forall mappings,
    Compose.volume_loop serviceName specs mappings
    = (mappings ++ omap (Stated.named_mapping serviceName) specs)%list.
Proof.
  induction specs as [|entry rest IH]; intros mappings.
  - cbn. now rewrite app_nil_r.
  - cbn [omap list_omap Compose.volume_loop].
    unfold Stated.named_mapping at 1. unfold Stated.read_spec.
    destruct entry as [v| | | | |fields]; try (rewrite IH; reflexivity).
    + destruct (Strings.Split v ":") as [|source [|target more]];
        try (rewrite IH; reflexivity).
      unfold Stated.is_named_volume. cbn [Stated.source_of].
      rewrite andb_true_r, <- not_bind_source_spec.
      destruct (Compose.not_bind_source source); rewrite IH;
        [now rewrite <- app_assoc | reflexivity].
    + destruct (Compose.index fields "source") as [srcVal|];
        [|rewrite IH; reflexivity].
      destruct (Compose.index fields "target") as [tgtVal|];
        [|destruct srcVal; rewrite IH; reflexivity].
      destruct srcVal as [source| | | | |]; cbn [Compose.as_string];
        try (rewrite IH; reflexivity).
      destruct tgtVal as [target| | | | |]; cbn [Compose.as_string];
        try (rewrite IH; reflexivity).
      destruct (String.eqb source "" || String.eqb target "");
        [rewrite IH; reflexivity|].
      unfold Stated.is_named_volume. cbn [Stated.source_of].
      rewrite <- not_bind_source_spec.
      destruct (Compose.index fields "type") as [typeVal|].
      * destruct typeVal as [typeStr| | | | |]; cbn [Compose.as_string];
          try (rewrite andb_true_r;
               destruct (Compose.not_bind_source source); rewrite IH;
               [now rewrite <- app_assoc | reflexivity]).
        destruct (String.eqb typeStr "volume"); cbn [negb].
        -- rewrite andb_true_r.
           destruct (Compose.not_bind_source source); rewrite IH;
             [now rewrite <- app_assoc | reflexivity].
        -- rewrite andb_false_r. rewrite IH. reflexivity.
      * rewrite andb_true_r.
        destruct (Compose.not_bind_source source); rewrite IH;
          [now rewrite <- app_assoc | reflexivity].
Qed.

(** C7. For a service of the file, GetVolumeMapping returns, in the order
    of the service's volume list, the mapping of exactly those entries that
    are named volumes: the source does not begin with '/', '.' or '~', and
    a type given on a long-form entry (one with non-empty source and
    target) is "volume".  So no mapping has a source such as /abs, ./rel or
    ~/home, and every entry whose source is a bare token such as data, with
    no other type, has its mapping. *)
Theorem GetVolumeMapping_selects_named_volumes :
  forall (cf : Compose.ComposeFile) (serviceName : string) (service : Compose.Service),
    Compose.lookup_service (Compose.Services cf) serviceName = Some service ->
    exists mappings,
      Compose.GetVolumeMapping cf serviceName = Errors.Ok mappings
      /\ mappings = omap (Stated.named_mapping serviceName) (Compose.Volumes service)
      /\ (forall m, In m mappings <->
            exists entry spec,
              In entry (Compose.Volumes service)
              /\ Stated.read_spec entry = Some spec
              /\ Stated.is_named_volume spec = true
              /\ m = Stated.mapping_of serviceName spec)
      /\ (forall m, In m mappings ->
            Stated.begins_with "/" (Compose.VolumeName m) = false
            /\ Stated.begins_with "." (Compose.VolumeName m) = false
            /\ Stated.begins_with "~" (Compose.VolumeName m) = false).
Proof.
  intros cf serviceName service Hs.
  exists (omap (Stated.named_mapping serviceName) (Compose.Volumes service)).
  assert (Hin : forall m,
    In m (omap (Stated.named_mapping serviceName) (Compose.Volumes service)) <->
    exists entry spec,
      In entry (Compose.Volumes service)
      /\ Stated.read_spec entry = Some spec
      /\ Stated.is_named_volume spec = true
      /\ m = Stated.mapping_of serviceName spec).
  { intros m. rewrite <- list_elem_of_In, list_elem_of_omap. split.
    - intros (entry & Hentry & Hm). unfold Stated.named_mapping in Hm.
      destruct (Stated.read_spec entry) as [spec|] eqn:Hr; [|discriminate].
      destruct (Stated.is_named_volume spec) eqn:Hn; [|discriminate].
      exists entry, spec. apply list_elem_of_In in Hentry.
      repeat split; congruence.
    - intros (entry & spec & Hentry & Hr & Hn & ->).
      exists entry. split; [now apply list_elem_of_In|].
      unfold Stated.named_mapping. now rewrite Hr, Hn. }
  repeat split.
  - unfold Compose.GetVolumeMapping. rewrite Hs. f_equal.
    apply (volume_loop_spec serviceName (Compose.Volumes service) []).
  - apply Hin.
  - apply Hin.
  - apply Hin in H as (entry & spec & _ & _ & Hn & ->).
    unfold Stated.is_named_volume in Hn. cbn.
    destruct (Stated.begins_with "/" (Stated.source_of spec)); [discriminate|reflexivity].
  - apply Hin in H as (entry & spec & _ & _ & Hn & ->).
    unfold Stated.is_named_volume in Hn. cbn.
    destruct (Stated.begins_with "." (Stated.source_of spec));
      [now rewrite andb_false_r in Hn|reflexivity].
  - apply Hin in H as (entry & spec & _ & _ & Hn & ->).
    unfold Stated.is_named_volume in Hn. cbn.
    destruct (Stated.begins_with "~" (Stated.source_of spec));
      [now rewrite andb_false_r in Hn|reflexivity].
Qed.

(** The theorem on a service that mounts /abs, ./rel, ~/home, a bare
    token, and long-form entries of each type. *)
Lemma GetVolumeMapping_selects_named_volumes_witness :
  Compose.GetVolumeMapping
    {| Compose.Name := ""; Compose.TopVolumes := []; Compose.path := "compose.yaml";
       Compose.Services :=
         [("db",
           {| Compose.Image := "postgres";
              Compose.Volumes :=
                [Compose.YString "/abs:/a";
                 Compose.YString "./rel:/b";
                 Compose.YString "~/home:/c";
                 Compose.YString "data:/var/lib/data:ro";
                 Compose.YString "/anonymous";
                 Compose.YMap [("type", Compose.YString "bind");
                               ("source", Compose.YString "cfg");
                               ("target", Compose.YString "/etc/cfg")];
                 Compose.YMap [("type", Compose.YString "volume");
                               ("source", Compose.YString "logs");
                               ("target", Compose.YString "/var/log")];
                 Compose.YMap [("source", Compose.YString "cache");
                               ("target", Compose.YString "/cache")];
                 Compose.YMap [("source", Compose.YString "");
                               ("target", Compose.YString "/empty")]] |})] |}
    "db"
  = Errors.Ok
      [{| Compose.VolumeName := "data"; Compose.MountPath := "/var/lib/data";
          Compose.OfService := "db" |};
       {| Compose.VolumeName := "logs"; Compose.MountPath := "/var/log";
          Compose.OfService := "db" |};
       {| Compose.VolumeName := "cache"; Compose.MountPath := "/cache";
          Compose.OfService := "db" |}].
Proof.
  destruct (GetVolumeMapping_selects_named_volumes
    {| Compose.Name := ""; Compose.TopVolumes := []; Compose.path := "compose.yaml";
       Compose.Services :=
         [("db",
           {| Compose.Image := "postgres";
              Compose.Volumes :=
                [Compose.YString "/abs:/a";
                 Compose.YString "./rel:/b";
                 Compose.YString "~/home:/c";
                 Compose.YString "data:/var/lib/data:ro";
                 Compose.YString "/anonymous";
                 Compose.YMap [("type", Compose.YString "bind");
                               ("source", Compose.YString "cfg");
                               ("target", Compose.YString "/etc/cfg")];
                 Compose.YMap [("type", Compose.YString "volume");
                               ("source", Compose.YString "logs");
                               ("target", Compose.YString "/var/log")];
                 Compose.YMap [("source", Compose.YString "cache");
                               ("target", Compose.YString "/cache")];
                 Compose.YMap [("source", Compose.YString "");
                               ("target", Compose.YString "/empty")]] |})] |}
    "db" _ eq_refl) as (mappings & Hget & Hmap & _).
  rewrite Hget, Hmap. vm_compute. reflexivity.
Defined.

(** ** Running commands *)

Lemma run_bind {W A B : Type} (h : Engine.handler W) (m : Engine.prog A)
    (f : A -> Engine.prog B) :
  forall w,
    Engine.run h (Engine.bind m f) w =
    let '(o, w1, tr1) := Engine.run h m w in
    match o with
    | Engine.Returned a =>
        let '(o2, w2, tr2) := Engine.run h (f a) w1 in (o2, w2, (tr1 ++ tr2)%list)
    | Engine.Panicked => (Engine.Panicked, w1, tr1)
    end.
Proof.
  induction m as [a| |X op k IH]; intros w; cbn.
  - now destruct (Engine.run h (f a) w) as [[o2 w2] tr2].
  - reflexivity.
  - destruct (h X op w) as [x w1]. rewrite IH.
    destruct (Engine.run h (k x) w1) as [[o w2] tr1].
    destruct o as [a|]; [|reflexivity].
    now destruct (Engine.run h (f a) w2) as [[o2 w3] tr2].
Qed.

(** ** Clean: the staleness predicate *)

Lemma Sub_self (t : Time.Time) : Time.Sub t t = 0.
Proof. unfold Time.Sub. rewrite Z.sub_diag. reflexivity. Qed.

(** C1 (the code at fault). With only the staleness threshold set, the
    filter of Clean selects no volume, whatever the store records and
    whatever the time is: the days since the last access are computed as
    [LastAccessed.Sub(LastAccessed)], which is zero. *)
Theorem Clean_staleness_selects_nothing :
  forall (W : Type) (h : Engine.handler W) (stale : Z) (dryRun archive force : bool)
         (volumes volumesToClean : list string) (w : W),
    fst (fst (Engine.run h
      (Commands.clean_filter_loop
         {| Commands.Unused := false; Commands.Stale := stale;
            Commands.DryRun := dryRun; Commands.Archive := archive;
            Commands.Force := force |} volumes volumesToClean) w))
    = Engine.Returned volumesToClean.
Proof.
  intros W h stale dryRun archive force volumes.
  induction volumes as [|vol rest IH]; intros volumesToClean w; [reflexivity|].
  cbn [Commands.clean_filter_loop Commands.Unused Commands.Stale Engine.bind].
  rewrite run_bind.
  match goal with
  | |- context [Engine.run h ?m w] =>
      assert (Hm : exists w1 tr1, Engine.run h m w = (Engine.Returned false, w1, tr1))
  end.
  { destruct (0 <? stale) eqn:Hs; [|now eexists _, _].
    cbn [Engine.call Engine.bind Engine.run].
    destruct (h _ (Engine.GetVolumeMetadata vol) w) as [got w1].
    destruct got as [meta|err]; [|now eexists _, _].
    destruct (negb (Time.IsZero (Database.LastAccessed meta))); [|now eexists _, _].
    rewrite Sub_self. change (Time.whole_days 0) with 0.
    replace (stale <=? 0) with false; [now eexists _, _|].
    symmetry. apply Z.leb_gt. now apply Z.ltb_lt in Hs. }
  destruct Hm as (w1 & tr1 & ->).
  specialize (IH volumesToClean w1).
  destruct (Engine.run h _ w1) as [[o2 w2] tr2]. exact IH.
Qed.

(** The failing input of C1: the store says the volume was last accessed
    at day 1000, the clock stands at day 1100, the threshold is 30 days;
    the filter selects nothing. *)
Example Clean_ignores_a_volume_stale_for_100_days :
  fst (fst (Engine.run
    (World.with_store Database.sort_desc (Scenarios.clocked ["old_data"]))
    (Commands.clean_filter_loop
       {| Commands.Unused := false; Commands.Stale := 30;
          Commands.DryRun := false; Commands.Archive := false;
          Commands.Force := true |} ["old_data"] [])
    ({| Database.volume_metadata :=
          [{| Database.row_volume := "old_data";
              Database.row_last_accessed := Some (1000 * Scenarios.day);
              Database.row_last_backup := None;
              Database.row_backup_count := 0 |}];
        Database.backup_records := []; Database.last_id := 0 |},
     1100 * Scenarios.day)))
  = Engine.Returned [].
Proof. vm_compute. reflexivity. Qed.

(** ** Loading a definition file *)

(** C2 (the code at fault). LoadComposeFile hands the bytes of the file to
    the YAML decoder as they are: its result is the decoder's on the raw
    text, and setting or unsetting an environment variable never changes
    it.  No substitution takes place. *)
Theorem LoadComposeFile_decodes_the_raw_text :
  forall (yaml_Unmarshal : string -> Errors.result Compose.ComposeFile)
         (os : Os.state) (p key value : string),
    Compose.LoadComposeFile yaml_Unmarshal (Os.Setenv os key value) p
      = Compose.LoadComposeFile yaml_Unmarshal os p
    /\ Compose.LoadComposeFile yaml_Unmarshal (Os.Unsetenv os key) p
      = Compose.LoadComposeFile yaml_Unmarshal os p
    /\ (forall data cf,
          Os.files os !! p = Some data ->
          Compose.LoadComposeFile yaml_Unmarshal os p = Errors.Ok cf ->
          exists decoded,
            yaml_Unmarshal data = Errors.Ok decoded
            /\ Compose.Name cf = Compose.Name decoded).
Proof.
  intros yaml_Unmarshal os p key value. repeat split.
  intros data cf Hfile. unfold Compose.LoadComposeFile, Os.ReadFile.
  rewrite Hfile. destruct (yaml_Unmarshal data) as [decoded|err]; [|discriminate].
  intros [= <-]. now exists decoded.
Qed.

(** So the two cases of the repository's test of loading
    [name: ${TEST_COMPOSE_NAME:-my-project}], which expect the project
    names my-project (variable unset) and custom-name (variable set),
    cannot both pass: both environments give the same project name. *)
Lemma LoadComposeFile_same_project_name_in_both_environments :
  forall (yaml_Unmarshal : string -> Errors.result Compose.ComposeFile)
         (table : Utf8.rune -> Utf8.rune) (os : Os.state) (p : string)
         (cf1 cf2 : Compose.ComposeFile),
    Compose.LoadComposeFile yaml_Unmarshal (Os.Unsetenv os "TEST_COMPOSE_NAME") p
      = Errors.Ok cf1 ->
    Compose.LoadComposeFile yaml_Unmarshal
      (Os.Setenv os "TEST_COMPOSE_NAME" "custom-name") p = Errors.Ok cf2 ->
    Compose.GetProjectName table (Os.Unsetenv os "TEST_COMPOSE_NAME") cf1 ""
    = Compose.GetProjectName table
        (Os.Setenv os "TEST_COMPOSE_NAME" "custom-name") cf2 "".
Proof.
  intros yaml_Unmarshal table os p cf1 cf2 H1 H2.
  change (Compose.LoadComposeFile yaml_Unmarshal os p = Errors.Ok cf1) in H1.
  change (Compose.LoadComposeFile yaml_Unmarshal os p = Errors.Ok cf2) in H2.
  assert (cf1 = cf2) as -> by congruence.
  unfold Compose.GetProjectName, Os.Getenv, Os.Setenv, Os.Unsetenv.
  cbn [Os.environ Os.cwd].
  rewrite lookup_delete_ne by discriminate.
  rewrite lookup_insert_ne by discriminate.
  reflexivity.
Qed.

(** ** Restore: the latest backup *)

(** C9 (the code at fault). A directory with an archive of db made in
    January as .tar.gz and one made in February as .tar.zst: both names
    match the prefix db_, the .tar.zst is the newer by modification time,
    and FindBackupFile returns the .tar.gz.  A .tar archive alone is not
    found at all. *)
Theorem FindBackupFile_prefers_tar_gz_to_newer_tar_zst :
  Commands.FindBackupFile
    [("/b/p/db_2024-01-01_000000.tar.gz",
      Some {| Engine.ModTime := 100 * Scenarios.day; Engine.FileSize := 1 |});
     ("/b/p/db_2024-02-01_000000.tar.zst",
      Some {| Engine.ModTime := 131 * Scenarios.day; Engine.FileSize := 1 |})]
    "/b/p" "db"
  = Errors.Ok "/b/p/db_2024-01-01_000000.tar.gz"
  /\ Commands.FindBackupFile
       [("/b/p/db_2024-02-01_000000.tar.zst",
         Some {| Engine.ModTime := 131 * Scenarios.day; Engine.FileSize := 1 |})]
       "/b/p" "db"
     = Errors.Ok "/b/p/db_2024-02-01_000000.tar.zst"
  /\ Commands.FindBackupFile
       [("/b/p/db_2024-03-01_000000.tar",
         Some {| Engine.ModTime := 160 * Scenarios.day; Engine.FileSize := 1 |})]
       "/b/p" "db"
     = Errors.Err Commands.ErrBackupNotFound.
Proof. vm_compute. repeat split. Qed.

(** ** Clone: the target name *)

Lemma slice_to_length (s : string) :
  forall n head, Strings.slice_to s n = Some head -> String.length head = n.
Proof.
  induction s as [|c t IH]; intros [|n] head; cbn; try discriminate.
  - now intros [= <-].
  - now intros [= <-].
  - destruct (Strings.slice_to t n) as [h|] eqn:E; [|discriminate].
    cbn. intros [= <-]. cbn. f_equal. now apply IH.
Qed.

Lemma slice_to_short (s : string) :
  forall n, (String.length s < n)%nat -> Strings.slice_to s n = None.
Proof.
  induction s as [|c t IH]; intros [|n] H; cbn in *; try lia; [reflexivity|].
  rewrite IH by lia. reflexivity.
Qed.

Lemma slice_to_some (s : string) :
  forall n, (n <= String.length s)%nat -> exists head, Strings.slice_to s n = Some head.
Proof.
  induction s as [|c t IH]; intros [|n] H; cbn in *; try lia; eauto.
  destruct (IH n) as [h ->]; [lia|]. cbn. eauto.
Qed.

(** C10 (the code at fault). With a project name set, the target name of
    Clone is not defined for a new name shorter than the project name
    (the slice expression panics), and for every other new name the
    prefix is prepended, also when the new name already starts with
    [projectName + "_"]: a slice of [len(projectName)] bytes never equals
    a string one byte longer.  The later revision, with
    strings.HasPrefix, does what is asked. *)
Theorem Clone_targetVolume_slices_past_the_end :
  (forall projectName newName,
     projectName <> "" ->
     (String.length newName < String.length projectName)%nat ->
     Commands.Clone_targetVolume projectName newName = None)
  /\ (forall projectName newName,
        projectName <> "" ->
        (String.length projectName <= String.length newName)%nat ->
        Commands.Clone_targetVolume projectName newName
        = Some (projectName +:+ "_" +:+ newName))
  /\ Commands.Clone_targetVolume "myproject" "db" = None
  /\ Commands.Clone_targetVolume "p" "p_data" = Some "p_p_data"
  /\ Commands.Clone_targetVolume_HasPrefix "myproject" "db" = "myproject_db"
  /\ Commands.Clone_targetVolume_HasPrefix "p" "p_data" = "p_data".
Proof.
  split; [|split; [|vm_compute; repeat split]].
  - intros projectName newName Hp Hlen. unfold Commands.Clone_targetVolume.
    apply String.eqb_neq in Hp. rewrite Hp. cbn [negb].
    now rewrite slice_to_short.
  - intros projectName newName Hp Hlen. unfold Commands.Clone_targetVolume.
    apply String.eqb_neq in Hp. rewrite Hp. cbn [negb].
    destruct (slice_to_some newName _ Hlen) as [head Hhead]. rewrite Hhead.
    apply slice_to_length in Hhead.
    destruct (String.eqb_spec head (projectName +:+ "_")) as [->|_]; [|reflexivity].
    rewrite length_app in Hhead. cbn in Hhead. lia.
Qed.

(** The command itself, asked to clone into "db" in the project
    "myproject": it panics as soon as the source volume is resolved,
    whatever the world answers. *)
Example Clone_panics_on_a_short_new_name :
  forall (W : Type) (h : Engine.handler W) (w : W),
    let ended := fst (fst (Engine.run h
      (Commands.Clone (Scenarios.context 5 None "myproject")
         {| Commands.CloneService := "myproject_data"; Commands.NewName := "db" |}) w)) in
    ended = Engine.Panicked
    \/ ended = Engine.Returned (Some Commands.ErrVolumeNotFound).
Proof.
  intros W h w. cbn.
  destruct (h bool (Engine.VolumeExists "myproject_data") w) as [[|] w1]; cbn.
  - left; reflexivity.
  - destruct (h bool (Engine.VolumeExists _) w1) as [[|] w2];
      cbn; [left|right]; reflexivity.
Qed.

(** ** Backup of all project volumes *)

Lemma Sprintf_s_s_inj (a b1 b2 : string) :
  Strings.Sprintf_s_s a b1 = Strings.Sprintf_s_s a b2 -> b1 = b2.
Proof.
  unfold Strings.Sprintf_s_s. induction a as [|c a IH].
  - rewrite !app_Empty, !app_String, !app_Empty. now intros [= ->].
  - rewrite !app_String. intros [= H]. now apply IH.
Qed.



Section BackupRuns.

Variable time_Format : string -> Time.Time -> string.
Context {W : Type}.
Variable h : Engine.handler W.

(** Removing the files of the deleted records runs no data mover and asks
    for exactly their paths, in order. *)
Lemma remove_files_loop_trace (deleted : list Database.BackupRecord) :
  forall w,
    fst (fst (Engine.run h (Commands.remove_files_loop deleted) w)) = Engine.Returned tt
    /\ Observed.data_mover_runs (snd (Engine.run h (Commands.remove_files_loop deleted) w)) = []
    /\ Observed.artifacts (snd (Engine.run h (Commands.remove_files_loop deleted) w)) = []
    /\ Observed.removed_files (snd (Engine.run h (Commands.remove_files_loop deleted) w))
       = map Database.FilePath deleted.
Proof.
  induction deleted as [|record rest IH]; intros w; [now cbn|].
  cbn [Commands.remove_files_loop Engine.bind Engine.call Engine.run].
  destruct (h _ (Engine.Remove (Database.FilePath record)) w) as [ans w1].
  destruct (IH w1) as (H1 & H2 & H3 & H4).
  destruct (Engine.run h (Commands.remove_files_loop rest) w1) as [[o w2] tr].
  cbn in *. now rewrite H4.
Qed.

Tactic Notation "answer" "as" ident(a) ident(w') :=
  cbn [Engine.run Engine.bind Engine.call];
  match goal with
  | |- context [h ?X ?op ?w] => destruct (h X op w) as [a w']
  end.


End BackupRuns.

Section BackupAll.

Variable time_Format : string -> Time.Time -> string.
Context {W : Type}.
Variable h : Engine.handler W.

Tactic Notation "answer" "as" ident(a) ident(w') :=
  cbn [Engine.run Engine.bind Engine.call];
  match goal with
  | |- context [h ?X ?op ?w] => destruct (h X op w) as [a w']
  end.


Lemma artifact_is_run (e : Engine.event) (a : string * string) :
  Observed.artifact e = Some a -> Observed.data_mover_run e = Some a.
Proof.
  destruct e as [X op answer]. destruct op; cbn; try discriminate.
  now destruct answer.
Qed.




End BackupAll.

Lemma lookup_service_key (services : list (string * Compose.Service))
    (name : string) (s : Compose.Service) :
  Compose.lookup_service services name = Some s -> In name (map fst services).
Proof.
  induction services as [|[k v] rest IH]; cbn; [discriminate|].
  destruct (String.eqb_spec k name) as [->|_]; [now left|].
  intros H. right. now apply IH.
Qed.









(** ** Swap: restart on error *)

Lemma Is_refl (e : Errors.error) : Errors.Is e e.
Proof. destruct e; cbn; now left. Qed.

Section SwapRuns.

Variable time_Format : string -> Time.Time -> string.
Context {W : Type}.
Variable h : Engine.handler W.

Tactic Notation "answer" "as" ident(a) ident(w') :=
  cbn [Engine.run Engine.bind Engine.call];
  match goal with
  | |- context [h ?X ?op ?w] => destruct (h X op w) as [a w']
  end.

Lemma swap_volume_compensates (opts : Commands.SwapOptions) (volumeName : string) (w : W) :
  Stated.compensated volumeName
    (fst (fst (Engine.run h (Commands.swap_volume opts volumeName) w)))
    (snd (Engine.run h (Commands.swap_volume opts volumeName) w)).
Proof.
  unfold Commands.swap_volume, Commands.restartOnError.
  answer as found w1.
  assert (Hnone : forall ended (tr : list Engine.event),
    Observed.first_failed_step tr = None -> Stated.compensated volumeName ended tr).
  { intros ended tr Hn v err Hf. congruence. }
  assert (Hunstopped : forall ended (tr : list Engine.event),
    (forall v, Observed.containers_stopped v tr = false) ->
    Stated.compensated volumeName ended tr).
  { intros ended tr Hn v err _ Hs. rewrite Hn in Hs. discriminate. }
  destruct found as [[|c0 cs]|e0].
  - (* no container mounts the volume: nothing is stopped *)
    cbn [length]. change (0 <? Z.of_nat 0) with false. cbn [andb Engine.bind].
    answer as removed w2. destruct removed as [err|].
    { apply Hunstopped. reflexivity. }
    answer as created w3. destruct created as [err|].
    { apply Hunstopped. reflexivity. }
    destruct (negb (String.eqb (Commands.Source opts) "") && negb (Commands.Empty opts)).
    + answer as restored w4. destruct restored as [err|].
      { apply Hunstopped. reflexivity. }
      rewrite andb_false_r. cbn. apply Hnone. reflexivity.
    + rewrite andb_false_r. cbn. apply Hnone. reflexivity.
  - (* containers mount the volume *)
    replace (0 <? Z.of_nat (length (c0 :: cs))) with true
      by (symmetry; apply Z.ltb_lt; cbn [length]; lia).
    answer as stopped w2. destruct stopped as [err|].
    { apply Hnone. reflexivity. }
    cbn [andb].
    answer as removed w3. destruct removed as [err|].
    { answer as restartErr w4.
      destruct restartErr as [restartErr|]; cbn;
        intros v e [= <- <-] _; (split; [reflexivity|]);
        [exists (Some restartErr)|exists None];
        exists (Errors.Errorf_w "failed to remove volume: " err); repeat split. }
    answer as created w4. destruct created as [err|].
    { answer as restartErr w5.
      destruct restartErr as [restartErr|]; cbn;
        intros v e [= <- <-] _; (split; [reflexivity|]);
        [exists (Some restartErr)|exists None];
        exists (Errors.Errorf_w "failed to create volume: " err); repeat split. }
    destruct (negb (String.eqb (Commands.Source opts) "") && negb (Commands.Empty opts)).
    + answer as restored w5. destruct restored as [err|].
      { answer as restartErr w6.
        destruct restartErr as [restartErr|]; cbn;
          intros v e [= <- <-] _; (split; [reflexivity|]);
          [exists (Some restartErr)|exists None];
          exists (Errors.Errorf_w "restore failed: " err); repeat split. }
      destruct (Commands.Restart opts); cbn [andb Engine.bind].
      * answer as restarted w6. cbn. apply Hnone. reflexivity.
      * cbn. apply Hnone. reflexivity.
    + destruct (Commands.Restart opts); cbn [andb Engine.bind].
      * answer as restarted w5. cbn. apply Hnone. reflexivity.
      * cbn. apply Hnone. reflexivity.
  - (* the containers could not be listed: none is stopped *)
    cbn [length]. change (0 <? Z.of_nat 0) with false. cbn [andb Engine.bind].
    answer as removed w2. destruct removed as [err|].
    { apply Hunstopped. reflexivity. }
    answer as created w3. destruct created as [err|].
    { apply Hunstopped. reflexivity. }
    destruct (negb (String.eqb (Commands.Source opts) "") && negb (Commands.Empty opts)).
    + answer as restored w4. destruct restored as [err|].
      { apply Hunstopped. reflexivity. }
      rewrite andb_false_r. cbn. apply Hnone. reflexivity.
    + rewrite andb_false_r. cbn. apply Hnone. reflexivity.
Qed.

End SwapRuns.

Section SwapCommand.

Variable time_Format : string -> Time.Time -> string.
Context {W : Type}.
Variable h : Engine.handler W.

Tactic Notation "answer" "as" ident(a) ident(w') :=
  cbn [Engine.run Engine.bind Engine.call];
  match goal with
  | |- context [h ?X ?op ?w] => destruct (h X op w) as [a w']
  end.

Lemma compensated_without_failure (volumeName : string)
    (ended : Engine.outcome (option Errors.error)) (tr : list Engine.event) :
  Observed.first_failed_step tr = None -> Stated.compensated volumeName ended tr.
Proof. intros Hn v err Hf. congruence. Qed.

(** A call that is neither a late step nor a stop, made first, changes
    nothing. *)
Lemma compensated_after (volumeName : string)
    (ended : Engine.outcome (option Errors.error))
    (e : Engine.event) (tr : list Engine.event) :
  Observed.failed_step e = None ->
  (forall v, Observed.stopped v e = false) ->
  Stated.compensated volumeName ended tr ->
  Stated.compensated volumeName ended (e :: tr).
Proof.
  intros He Hs H v err. unfold Observed.first_failed_step, Observed.containers_stopped.
  cbn [omap list_omap existsb Observed.after_first_failure]. rewrite He, Hs.
  cbn [orb]. exact (H v err).
Qed.

(** The whole command: whatever precedes the stop of the containers
    (resolution, the check that the volume exists, the backup) is neither a
    late step nor a stop. *)
Lemma Swap_compensates (c : Commands.Context) (opts : Commands.SwapOptions) (w : W) :
  exists volumeName,
    Stated.compensated volumeName
      (fst (fst (Engine.run h (Commands.Swap time_Format c opts) w)))
      (snd (Engine.run h (Commands.Swap time_Format c opts) w)).
Proof.
  assert (Htail : forall volumeName wk,
    exists volumeName',
      Stated.compensated volumeName'
        (fst (fst (Engine.run h
           (let! present := Engine.call (Engine.VolumeExists volumeName) in
            if negb present then Engine.Ret (Some Commands.ErrVolumeNotFound)
            else
              let! backed :=
                (if negb (Commands.NoBackup opts)
                 then Commands.swap_backup time_Format c volumeName
                        (if String.eqb (Commands.GetServiceName c volumeName) ""
                         then Commands.SwapService opts
                         else Commands.GetServiceName c volumeName)
                 else Engine.Ret None) in
              match backed with
              | Some err => Engine.Ret (Some err)
              | None => Commands.swap_volume opts volumeName
              end) wk)))
        (snd (Engine.run h
           (let! present := Engine.call (Engine.VolumeExists volumeName) in
            if negb present then Engine.Ret (Some Commands.ErrVolumeNotFound)
            else
              let! backed :=
                (if negb (Commands.NoBackup opts)
                 then Commands.swap_backup time_Format c volumeName
                        (if String.eqb (Commands.GetServiceName c volumeName) ""
                         then Commands.SwapService opts
                         else Commands.GetServiceName c volumeName)
                 else Engine.Ret None) in
              match backed with
              | Some err => Engine.Ret (Some err)
              | None => Commands.swap_volume opts volumeName
              end) wk))).
  { intros volumeName wk. exists volumeName.
    answer as present w1. destruct present; cbn [negb];
      [|now apply compensated_without_failure].
    assert (Hswap : forall wj,
      Stated.compensated volumeName
        (fst (fst (Engine.run h (Commands.swap_volume opts volumeName) wj)))
        (snd (Engine.run h (Commands.swap_volume opts volumeName) wj)))
      by (intros wj; apply swap_volume_compensates).
    destruct (negb (Commands.NoBackup opts)).
    - unfold Commands.swap_backup, Commands.GenerateBackupFilename.
      answer as made w2. destruct made as [err|];
        [now apply compensated_without_failure|].
      answer as now w3. answer as moved w4. destruct moved as [err|];
        [now apply compensated_without_failure|].
      answer as sized w5. answer as summed w6. answer as added w7.
      specialize (Hswap w7).
      destruct (Engine.run h (Commands.swap_volume opts volumeName) w7) as [[o w8] tr8].
      cbn [fst snd] in *.
      repeat (apply compensated_after; [reflexivity|reflexivity|]). exact Hswap.
    - cbn [Engine.bind]. specialize (Hswap w1).
      destruct (Engine.run h (Commands.swap_volume opts volumeName) w1) as [[o w8] tr8].
      cbn [fst snd] in *.
      repeat (apply compensated_after; [reflexivity|reflexivity|]). exact Hswap. }
  unfold Commands.Swap.
  destruct (String.eqb (Commands.SwapService opts) "");
    [exists ""; now apply compensated_without_failure|].
  unfold Commands.ResolveVolumeName.
  destruct (match Commands.Compose c with
            | Some cf =>
                match Compose.GetFullVolumeName cf (Commands.SwapService opts)
                        (Commands.ProjectName c) with
                | Errors.Ok fullName => Some fullName
                | Errors.Err _ => None
                end
            | None => None
            end) as [fullName|].
  { cbn [Engine.bind]. apply Htail. }
  answer as present w1. destruct present.
  { cbn [Engine.bind].
    destruct (Htail (Commands.SwapService opts) w1) as [v Hv]. exists v.
    destruct (Engine.run h _ w1) as [[o w2] tr2]. cbn [fst snd] in *.
    apply compensated_after; [reflexivity|reflexivity|exact Hv]. }
  destruct (negb (String.eqb (Commands.ProjectName c) ""));
    [|exists ""; now apply compensated_without_failure].
  answer as present w2. destruct present;
    [|exists ""; now apply compensated_without_failure].
  cbn [Engine.bind].
  destruct (Htail (Commands.ProjectName c +:+ "_" +:+ Commands.SwapService opts) w2)
    as [v Hv]. exists v.
  destruct (Engine.run h _ w2) as [[o w3] tr3]. cbn [fst snd] in *.
  repeat (apply compensated_after; [reflexivity|reflexivity|]). exact Hv.
Qed.

End SwapCommand.

(** C4. In Swap, when a step from the deletion on (remove the volume,
    create it, populate it from the source archive) fails after the
    containers using the volume were stopped, exactly one more call
    follows the failure before Swap returns: the restart of those
    containers.  Swap then returns the failure of the step, worded as
    [primary], which wraps the engine's error; if the restart fails too,
    the error returned wraps [primary] (errors.Unwrap gives it back) and
    its message is the message of [primary] followed by the restart's in
    parentheses. *)
Theorem Swap_restarts_containers_before_surfacing_a_late_failure :
  forall (time_Format : string -> Time.Time -> string)
         (W : Type) (h : Engine.handler W) (w : W)
         (c : Commands.Context) (opts : Commands.SwapOptions),
    let ended := fst (fst (Engine.run h (Commands.Swap time_Format c opts) w)) in
    let tr := snd (Engine.run h (Commands.Swap time_Format c opts) w) in
    forall v err,
      Observed.first_failed_step tr = Some (v, err) ->
      Observed.containers_stopped v tr = true ->
      exists restartErr primary,
        Observed.after_first_failure tr
        = Some [Engine.Event (Engine.RestartContainersUsingVolume v) restartErr]
        /\ Errors.Unwrap primary = Some err
        /\ ended = Engine.Returned (Some (Stated.surfaced primary restartErr))
        /\ Errors.Is (Stated.surfaced primary restartErr) primary
        /\ (restartErr = None -> Stated.surfaced primary restartErr = primary)
        /\ (forall restartFailure,
              restartErr = Some restartFailure ->
              Errors.Unwrap (Stated.surfaced primary restartErr) = Some primary
              /\ Errors.Error (Stated.surfaced primary restartErr)
                 = Errors.Error primary +:+ " (also failed to restart containers: "
                     +:+ Errors.Error restartFailure +:+ ")").
Proof.
  intros time_Format W h w c opts ended tr v err Hfail Hstopped.
  destruct (Swap_compensates time_Format h c opts w) as [volumeName Hc].
  destruct (Hc v err Hfail Hstopped) as (-> & restartErr & primary & Hafter & Hun & Hend).
  exists restartErr, primary.
  split; [exact Hafter|]. split; [exact Hun|]. split; [exact Hend|].
  split; [|split].
  - destruct restartErr as [re|]; cbn; [right|]; apply Is_refl.
  - now intros ->.
  - intros re ->. now cbn.
Qed.

(** The theorem in a world where one container mounts the volume, the
    creation of the new volume fails and the restart fails too. *)
Lemma Swap_restarts_containers_before_surfacing_a_late_failure_witness :
  (exists restartErr primary,
     Observed.after_first_failure
       (snd (Engine.run
          (Scenarios.create_fails (Errors.errorString "no space left on device")
             (Some (Errors.errorString "no such container")))
          (Commands.Swap Scenarios.no_format (Scenarios.context 5 None "p")
             {| Commands.Empty := true; Commands.NoBackup := true;
                Commands.Restart := true; Commands.SwapService := "p_data";
                Commands.Source := "" |}) tt))
     = Some [Engine.Event (Engine.RestartContainersUsingVolume "p_data") restartErr]
     /\ Errors.Unwrap primary = Some (Errors.errorString "no space left on device")
     /\ fst (fst (Engine.run
          (Scenarios.create_fails (Errors.errorString "no space left on device")
             (Some (Errors.errorString "no such container")))
          (Commands.Swap Scenarios.no_format (Scenarios.context 5 None "p")
             {| Commands.Empty := true; Commands.NoBackup := true;
                Commands.Restart := true; Commands.SwapService := "p_data";
                Commands.Source := "" |}) tt))
        = Engine.Returned (Some (Stated.surfaced primary restartErr)))
  /\ fst (fst (Engine.run
       (Scenarios.create_fails (Errors.errorString "no space left on device")
          (Some (Errors.errorString "no such container")))
       (Commands.Swap Scenarios.no_format (Scenarios.context 5 None "p")
          {| Commands.Empty := true; Commands.NoBackup := true;
             Commands.Restart := true; Commands.SwapService := "p_data";
             Commands.Source := "" |}) tt))
     = Engine.Returned (Some
         (Errors.wrapError
            "failed to create volume: no space left on device (also failed to restart containers: no such container)"
            (Errors.wrapError "failed to create volume: no space left on device"
               (Errors.errorString "no space left on device")))).
Proof.
  split.
  - destruct (Swap_restarts_containers_before_surfacing_a_late_failure
      Scenarios.no_format unit
      (Scenarios.create_fails (Errors.errorString "no space left on device")
         (Some (Errors.errorString "no such container")))
      tt (Scenarios.context 5 None "p")
      {| Commands.Empty := true; Commands.NoBackup := true;
         Commands.Restart := true; Commands.SwapService := "p_data";
         Commands.Source := "" |}
      "p_data" (Errors.errorString "no space left on device"))
      as (restartErr & primary & Hafter & Hun & Hend & _).
    + vm_compute. reflexivity.
    + vm_compute. reflexivity.
    + exists restartErr, primary. repeat split; assumption.
  - vm_compute. reflexivity.
Defined.

(** ** Retention *)

Lemma StronglySorted_app_inv {A : Type} (R : A -> A -> Prop) (l1 l2 : list A) :
  StronglySorted R (l1 ++ l2) ->
  forall x y, In x l1 -> In y l2 -> R x y.
Proof.
  induction l1 as [|a l1 IH]; intros Hs x y Hx Hy; [destruct Hx|].
  cbn in Hs. apply StronglySorted_inv in Hs as [Hs Ha].
  destruct Hx as [<-|Hx].
  - rewrite Forall_forall in Ha. apply Ha.
    apply list_elem_of_In, in_or_app. now right.
  - now apply IH.
Qed.

Lemma record_in_by_id (records : list Database.BackupRecord)
    (r d : Database.BackupRecord) :
  NoDup (map Database.ID records) ->
  In r records -> In d records -> Database.ID d = Database.ID r -> d = r.
Proof.
  induction records as [|x rest IH]; intros Hnd Hr Hd Hid; [destruct Hr|].
  cbn in Hnd. apply NoDup_cons in Hnd as [Hx Hnd].
  assert (Hmem : forall y, In y rest -> Database.ID y <> Database.ID x).
  { intros y Hy Heq. apply Hx. rewrite <- Heq.
    apply list_elem_of_In. now apply in_map. }
  destruct Hr as [<-|Hr], Hd as [<-|Hd]; try reflexivity.
  - exfalso. now apply (Hmem d Hd).
  - exfalso. apply (Hmem r Hr). congruence.
  - now apply IH.
Qed.

(** The deletion loop removes the rows whose id is the id of a record
    given. *)
Lemma delete_loop_records (toDelete : list Database.BackupRecord) :
  forall db,
    Database.backup_records (Database.delete_loop db toDelete)
    = List.filter
        (fun r => negb (existsb (fun d => Database.ID d =? Database.ID r) toDelete))
        (Database.backup_records db)
    /\ Database.volume_metadata (Database.delete_loop db toDelete)
       = Database.volume_metadata db
    /\ Database.last_id (Database.delete_loop db toDelete) = Database.last_id db.
Proof.
  induction toDelete as [|d rest IH]; intros db; cbn [Database.delete_loop existsb].
  - cbn. split; [|now split].
    induction (Database.backup_records db) as [|r l IHl]; [reflexivity|].
    cbn. now rewrite <- IHl.
  - destruct (IH (Database.DeleteBackupRecord db (Database.ID d))) as (H1 & H2 & H3).
    rewrite H1, H2, H3. cbn [Database.DeleteBackupRecord Database.backup_records
      Database.volume_metadata Database.last_id].
    split; [|now split].
    induction (Database.backup_records db) as [|r l IHl]; [reflexivity|].
    cbn [List.filter]. rewrite (Z.eqb_sym (Database.ID d) (Database.ID r)).
    destruct (Database.ID r =? Database.ID d); cbn [negb orb List.filter].
    + exact IHl.
    + now rewrite IHl.
Qed.

Lemma filter_filter_implied {A : Type} (p q : A -> bool) (l : list A) :
  (forall x, In x l -> q x = true -> p x = true) ->
  List.filter q (List.filter p l) = List.filter q l.
Proof.
  induction l as [|a l IH]; intros H; [reflexivity|].
  cbn [List.filter].
  assert (IH' : List.filter q (List.filter p l) = List.filter q l)
    by (apply IH; intros x Hx; apply H; now right).
  destruct (p a) eqn:Hp; cbn [List.filter]; [now rewrite IH'|].
  destruct (q a) eqn:Hq; [|exact IH'].
  rewrite (H a (or_introl eq_refl) Hq) in Hp. discriminate.
Qed.

Lemma NoDup_map_filter {A B : Type} (f : A -> B) (p : A -> bool) (l : list A) :
  NoDup (map f l) -> NoDup (map f (List.filter p l)).
Proof.
  induction l as [|a l IH]; intros H; [exact H|].
  cbn in H. apply NoDup_cons in H as [Ha Hl]. cbn [List.filter].
  destruct (p a); [|now apply IH].
  cbn. apply NoDup_cons. split; [|now apply IH].
  intros Hin. apply Ha. apply list_elem_of_In in Hin. apply list_elem_of_In.
  apply in_map_iff in Hin as (x & <- & Hx). apply in_map.
  now apply List.filter_In in Hx as [Hx _].
Qed.

Lemma NoDup_skipn {A : Type} (n : nat) (l : list A) : NoDup l -> NoDup (skipn n l).
Proof.
  intros H. rewrite <- (firstn_skipn n l) in H.
  now apply NoDup_app in H as (_ & _ & H).
Qed.

Lemma NoDup_firstn {A : Type} (n : nat) (l : list A) : NoDup l -> NoDup (firstn n l).
Proof.
  intros H. rewrite <- (firstn_skipn n l) in H.
  now apply NoDup_app in H as (H & _ & _).
Qed.

Lemma firstn_or_skipn {A : Type} (n : nat) (l : list A) (x : A) :
  NoDup l -> (In x (firstn n l) <-> In x l /\ ~ In x (skipn n l)).
Proof.
  intros H. rewrite <- (firstn_skipn n l) in H at 1.
  apply NoDup_app in H as (_ & Hdis & _). split.
  - intros Hx. split.
    + rewrite <- (firstn_skipn n l). apply in_or_app. now left.
    + intros Hs. apply (Hdis x); now apply list_elem_of_In.
  - intros [Hx Hs]. rewrite <- (firstn_skipn n l) in Hx.
    apply in_app_or in Hx as [Hx|Hx]; [exact Hx|contradiction].
Qed.

Section Retention.

Variable sorter : list Database.BackupRecord -> list Database.BackupRecord.
Hypothesis sorter_ok : Assumed.orders_newest_first sorter.

(** CleanupOldBackups on tables with distinct ids: the records deleted
    are those after the first [keep] of the volume's records, newest
    first; exactly they leave the ledger; what stays of the volume is the
    first [keep]. *)
Lemma CleanupOldBackups_spec (db : Database.DB) (volumeName : string) (keep : Z) :
  Assumed.ids_in_order db ->
  0 <= keep ->
  let deleted := skipn (Z.to_nat keep) (sorter (Stated.ledger_of volumeName db)) in
  exists db',
    Database.CleanupOldBackups sorter db volumeName keep = Some (deleted, db')
    /\ Permutation (Database.backup_records db' ++ deleted) (Database.backup_records db)
    /\ Permutation (Stated.ledger_of volumeName db')
         (firstn (Z.to_nat keep) (sorter (Stated.ledger_of volumeName db)))
    /\ List.filter (fun r => negb (Stated.of_volume volumeName r))
         (Database.backup_records db')
       = List.filter (fun r => negb (Stated.of_volume volumeName r))
           (Database.backup_records db)
    /\ Database.volume_metadata db' = Database.volume_metadata db
    /\ Database.last_id db' = Database.last_id db
    /\ Assumed.ids_in_order db'.
Proof using sorter_ok.
  intros [Hids Hmax] Hkeep deleted.
  set (records := Database.backup_records db) in *.
  set (mine := Stated.ledger_of volumeName db) in *.
  destruct (sorter_ok mine) as [Hperm Hsorted].
  exists (Database.delete_loop db deleted).
  destruct (delete_loop_records deleted db) as (Hrec & Hmeta & Hlast).
  fold records in Hrec.
  set (gone := fun r => existsb (fun d => Database.ID d =? Database.ID r) deleted) in *.
  assert (Hnd : NoDup records).
  { apply NoDup_ListNoDup, (List.NoDup_map_inv Database.ID).
    now apply NoDup_ListNoDup. }
  assert (Hfilter : forall p (l : list Database.BackupRecord),
    NoDup l -> NoDup (List.filter p l)).
  { intros p l Hl. apply NoDup_ListNoDup, List.NoDup_filter.
    now apply NoDup_ListNoDup. }
  assert (Hmine : forall r, In r mine <-> In r records /\ Stated.of_volume volumeName r = true)
    by (intros r; apply List.filter_In).
  assert (Hdel : forall r, In r deleted -> In r mine).
  { intros r Hr. apply (Permutation_in _ Hperm).
    rewrite <- (firstn_skipn (Z.to_nat keep) (sorter mine)). apply in_or_app. now right. }
  assert (Hgone : forall r, In r records -> (gone r = true <-> In r deleted)).
  { intros r Hr. unfold gone. rewrite existsb_exists. split.
    - intros (d & Hd & Hid). apply Z.eqb_eq in Hid.
      assert (d = r) as <-; [|exact Hd].
      apply (record_in_by_id records r d Hids Hr); [|exact Hid].
      now apply Hmine, Hdel.
    - intros Hd. exists r. split; [exact Hd|apply Z.eqb_refl]. }
  assert (Hnds : NoDup (sorter mine)).
  { rewrite Hperm. unfold mine, Stated.ledger_of. now apply Hfilter. }
  assert (Hndd : NoDup deleted) by now apply NoDup_skipn.
  assert (Hkept : forall r,
    In r (Database.backup_records (Database.delete_loop db deleted)) <->
    In r records /\ ~ In r deleted).
  { intros r. rewrite Hrec, List.filter_In. split.
    - intros [Hr Hg]. split; [exact Hr|]. intros Hd.
      apply (Hgone r Hr) in Hd. unfold gone in Hd. rewrite Hd in Hg. discriminate.
    - intros [Hr Hd]. split; [exact Hr|].
      destruct (existsb _ deleted) eqn:Hg; [|reflexivity].
      exfalso. apply Hd, (Hgone r Hr). exact Hg. }
  split.
  { unfold Database.CleanupOldBackups, Database.GetBackupRecords.
    change (0 <? 0) with false. cbn beta iota. fold records.
    change (List.filter (fun r => String.eqb (Database.VolumeName r) volumeName) records)
      with mine.
    destruct (keep <? Z.of_nat (length (sorter mine))) eqn:Hlen.
    - replace (keep <? 0) with false by (symmetry; apply Z.ltb_ge; lia). reflexivity.
    - apply Z.ltb_ge in Hlen.
      assert (deleted = []) as Hnil.
      { unfold deleted. apply skipn_all2. lia. }
      rewrite Hnil. reflexivity. }
  split.
  { apply Permutation.NoDup_Permutation.
    - apply NoDup_ListNoDup, NoDup_app. split; [|split; [|exact Hndd]].
      + rewrite Hrec. now apply Hfilter.
      + intros r Hr Hd. apply list_elem_of_In in Hr, Hd.
        apply Hkept in Hr as [_ Hr]. contradiction.
    - now apply NoDup_ListNoDup.
    - intros r. rewrite in_app_iff, Hkept. split.
      + intros [[Hr _]|Hd]; [exact Hr|now apply Hmine, Hdel].
      + intros Hr. destruct (gone r) eqn:Hg.
        * right. now apply (Hgone r Hr).
        * left. split; [exact Hr|]. intros Hd.
          apply (Hgone r Hr) in Hd. congruence. }
  split.
  { apply Permutation.NoDup_Permutation.
    - apply NoDup_ListNoDup. unfold Stated.ledger_of. apply Hfilter. rewrite Hrec.
      now apply Hfilter.
    - now apply NoDup_ListNoDup, NoDup_firstn.
    - intros r. unfold Stated.ledger_of at 1. rewrite List.filter_In, Hkept.
      rewrite (firstn_or_skipn (Z.to_nat keep) (sorter mine) r Hnds).
      fold deleted. split.
      + intros [[Hr Hd] Hv]. split; [|exact Hd].
        apply (Permutation_in _ (Permutation_sym Hperm)). now apply Hmine.
      + intros [Hs Hd]. apply (Permutation_in _ Hperm) in Hs.
        apply Hmine in Hs as [Hr Hv]. now repeat split. }
  split.
  { rewrite Hrec. apply filter_filter_implied. intros r Hr Hv.
    destruct (existsb _ deleted) eqn:Hg; [|reflexivity].
    assert (Hd : In r deleted) by (apply (Hgone r Hr); exact Hg).
    apply Hdel, Hmine in Hd as [_ Hd].
    rewrite Hd in Hv. discriminate. }
  split; [exact Hmeta|]. split; [exact Hlast|].
  split.
  - rewrite Hrec. now apply NoDup_map_filter.
  - intros r Hr. rewrite Hlast. apply Hmax. now apply Hkept in Hr as [Hr _].
Qed.

End Retention.

Lemma ids_in_order_add (db : Database.DB) (now : Time.Time) (record : Database.BackupRecord) :
  Assumed.ids_in_order db ->
  Assumed.ids_in_order (Database.AddBackupRecord db now record).
Proof.
  intros [Hids Hmax]. unfold Assumed.ids_in_order, Database.AddBackupRecord.
  cbn [Database.backup_records Database.last_id]. split.
  - rewrite map_app. apply NoDup_app. split; [exact Hids|]. split.
    + intros x Hx Hx'. apply list_elem_of_In in Hx, Hx'. cbn in Hx'.
      destruct Hx' as [<-|[]]. apply in_map_iff in Hx as (r & Hr & Hin).
      apply Hmax in Hin. lia.
    + cbn. apply NoDup_singleton.
  - intros r Hr. apply in_app_or in Hr as [Hr|[<-|[]]].
    + apply Hmax in Hr. lia.
    + cbn. lia.
Qed.

Section RetentionRuns.

Variable sorter : list Database.BackupRecord -> list Database.BackupRecord.
Hypothesis sorter_ok : Assumed.orders_newest_first sorter.
Variable time_Format : string -> Time.Time -> string.
Context {E : Type}.
Variable env : Engine.handler E.

Tactic Notation "answer" "as" ident(a) ident(e') :=
  cbn [Engine.run Engine.bind Engine.call World.with_store];
  match goal with
  | |- context [env ?X ?op ?e] => destruct (env X op e) as [a e']
  end.

(** Removing files leaves the tables alone. *)
Lemma remove_files_with_store (deleted : list Database.BackupRecord) (db : Database.DB) :
  forall e,
    exists e1 tr1,
      Engine.run (World.with_store sorter env) (Commands.remove_files_loop deleted) (db, e)
      = (Engine.Returned tt, (db, e1), tr1)
      /\ Observed.removed_files tr1 = map Database.FilePath deleted.
Proof.
  induction deleted as [|record rest IH]; intros e.
  - now exists e, [].
  - cbn [Commands.remove_files_loop]. answer as removed e1.
    destruct (IH e1) as (e2 & tr2 & Hrun & Hfiles). rewrite Hrun.
    eexists _, _. split; [reflexivity|]. cbn. now rewrite <- Hfiles.
Qed.

(** One successful backupVolume on a store with distinct ids, with a
    positive number of generations to keep. *)
Lemma backupVolume_retention (c : Commands.Context) (volumeName outputDir : string)
    (opts : Commands.BackupOptions) (db db' : Database.DB) (e e' : E)
    (tr : list Engine.event) :
  Assumed.ids_in_order db ->
  0 < Commands.keepGenerations_of c ->
  Engine.run (World.with_store sorter env)
    (Commands.backupVolume time_Format c volumeName outputDir opts) (db, e)
  = (Engine.Returned None, (db', e'), tr) ->
  exists new,
    let ledger := (Database.backup_records db ++ [new])%list in
    let newest_first := sorter (List.filter (Stated.of_volume volumeName) ledger) in
    let keep := Z.to_nat (Commands.keepGenerations_of c) in
    Database.VolumeName new = volumeName
    /\ NoDup ledger
    /\ Permutation (Database.backup_records db' ++ skipn keep newest_first) ledger
    /\ Permutation (Stated.ledger_of volumeName db') (firstn keep newest_first)
    /\ (forall d k,
          In d (skipn keep newest_first) -> In k (Stated.ledger_of volumeName db') ->
          Database.CreatedAt d <= Database.CreatedAt k)
    /\ List.filter (fun r => negb (Stated.of_volume volumeName r))
         (Database.backup_records db')
       = List.filter (fun r => negb (Stated.of_volume volumeName r))
           (Database.backup_records db)
    /\ Observed.removed_files tr = map Database.FilePath (skipn keep newest_first)
    /\ Assumed.ids_in_order db'.
Proof using sorter_ok.
  intros Hids Hkeep.
  unfold Commands.backupVolume, Commands.GenerateBackupFilename.
  answer as present e1. destruct present; cbn [negb]; [|intros [=]].
  assert (Hstop : forall (m : Engine.prog (option Errors.error)) k (P : Prop),
    (forall err, k (Some err) = Engine.Ret (Some (Errors.Errorf_w "failed to stop containers: " err))) ->
    (m = Engine.call (Engine.StopContainersUsingVolume volumeName) \/ m = Engine.Ret None) ->
    (forall e2 tr2,
      Engine.run (World.with_store sorter env) (k None) (db, e2)
      = (Engine.Returned None, (db', e'), tr2) ->
      Observed.removed_files tr2 = Observed.removed_files tr -> P) ->
    (let '(o, w2, tr0) := Engine.run (World.with_store sorter env) (Engine.bind m k) (db, e1) in
     (o, w2, Engine.Event (Engine.VolumeExists volumeName) true :: tr0))
    = (Engine.Returned None, (db', e'), tr) -> P).
  { intros m k P Herr [-> | ->] Hk.
    - answer as stopped e2. destruct stopped as [err|].
      + rewrite Herr. intros [=].
      + destruct (Engine.run (World.with_store sorter env) (k None) (db, e2))
          as [[o w2] tr2] eqn:Hrun.
        intros [= -> -> <-]. now apply (Hk e2 tr2).
    - cbn [Engine.bind].
      destruct (Engine.run (World.with_store sorter env) (k None) (db, e1))
        as [[o w2] tr2] eqn:Hrun.
      intros [= -> -> <-]. now apply (Hk e1 tr2). }
  apply Hstop; [reflexivity|destruct (Commands.Stop opts); [now left|now right]|].
  clear Hstop e e1. intros e tr2 Hrun Hfiles. rewrite <- Hfiles. clear Hfiles tr.
  revert Hrun.
  answer as now e1. answer as moved e2. destruct moved as [err|]; [intros [=]|].
  answer as sized e3. answer as summed e4. answer as added_at e5.
  cbn [Engine.run Engine.bind Engine.call World.with_store].
  answer as updated_at e6.
  cbn [Engine.run Engine.bind Engine.call World.with_store].
  replace (0 <? Commands.keepGenerations_of c) with true
    by (symmetry; now apply Z.ltb_lt).
  cbn [Engine.run Engine.bind Engine.call World.with_store].
  match goal with
  | |- context [Database.AddBackupRecord db added_at ?record] =>
      set (db1 := Database.AddBackupRecord db added_at record)
  end.
  set (db2 := Database.UpdateLastBackup db1 updated_at volumeName).
  assert (Hids2 : Assumed.ids_in_order db2).
  { exact (ids_in_order_add db added_at _ Hids). }
  assert (Hledger : exists new,
    Database.backup_records db2 = (Database.backup_records db ++ [new])%list
    /\ Database.VolumeName new = volumeName).
  { eexists. split; reflexivity. }
  destruct Hledger as (new & Hledger & Hnew).
  destruct (CleanupOldBackups_spec sorter sorter_ok db2 volumeName
              (Commands.keepGenerations_of c) Hids2 ltac:(lia))
    as (db3 & Hclean & Hperm & Hmine & Hothers & _ & _ & Hids3).
  rewrite Hclean. rewrite run_bind.
  destruct (remove_files_with_store
              (skipn (Z.to_nat (Commands.keepGenerations_of c))
                 (sorter (Stated.ledger_of volumeName db2))) db3 e6)
    as (e7 & tr7 & Hremove & Hfiles).
  rewrite Hremove. cbn [Engine.run]. intros [= <- <- <-].
  unfold Stated.ledger_of in Hperm, Hmine, Hfiles.
  rewrite Hledger in Hperm, Hmine, Hothers, Hfiles.
  exists new. cbv zeta.
  split; [exact Hnew|].
  split.
  { rewrite <- Hledger. apply NoDup_ListNoDup, (List.NoDup_map_inv Database.ID).
    apply NoDup_ListNoDup. exact (proj1 Hids2). }
  split; [exact Hperm|]. split; [exact Hmine|].
  split.
  { intros d k Hd Hk. apply (Permutation_in _ Hmine) in Hk.
    destruct (sorter_ok (List.filter (Stated.of_volume volumeName)
                (Database.backup_records db ++ [new]))) as [_ Hsorted].
    rewrite <- (firstn_skipn (Z.to_nat (Commands.keepGenerations_of c))) in Hsorted.
    exact (StronglySorted_app_inv _ _ _ Hsorted k d Hk Hd). }
  split.
  { rewrite Hothers, List.filter_app. cbn [List.filter]. unfold Stated.of_volume at 2.
    rewrite Hnew, String.eqb_refl. cbn [negb]. now rewrite app_nil_r. }
  split; [|exact Hids3].
  rewrite app_nil_r.
  unfold Observed.removed_files in *.
  cbn [omap list_omap Observed.removed_file]. exact Hfiles.
Qed.

End RetentionRuns.

Section SuccessiveBackups.

Variable sorter : list Database.BackupRecord -> list Database.BackupRecord.
Hypothesis sorter_ok : Assumed.orders_newest_first sorter.
Variable time_Format : string -> Time.Time -> string.
Context {E : Type}.
Variable env : Engine.handler E.
Variable c : Commands.Context.
Variables volumeName outputDir : string.
Variable opts : Commands.BackupOptions.
Hypothesis keep_positive : 0 < Commands.keepGenerations_of c.

Lemma successive_backups_step (n : nat) :
  Stated.successive_backups time_Format c volumeName outputDir opts (S n)
  = let! err := Commands.backupVolume time_Format c volumeName outputDir opts in
    match err with
    | Some e => Engine.Ret (Some e)
    | None => Stated.successive_backups time_Format c volumeName outputDir opts n
    end.
Proof. reflexivity. Qed.

(** Backups in a row on a store that holds [m] records of the volume,
    the last of them being backup number keep + 1: the earlier ones remove
    nothing, the last one removes one record, an oldest one. *)
Lemma successive_backups_evict_one (j : nat) :
  forall (m : nat) (db db' : Database.DB) (e e' : E) (tr : list Engine.event),
    Assumed.ids_in_order db ->
    length (Stated.ledger_of volumeName db) = m ->
    (m + S j = S (Z.to_nat (Commands.keepGenerations_of c)))%nat ->
    Engine.run (World.with_store sorter env)
      (Stated.successive_backups time_Format c volumeName outputDir opts (S j)) (db, e)
    = (Engine.Returned None, (db', e'), tr) ->
    length (Stated.ledger_of volumeName db') = Z.to_nat (Commands.keepGenerations_of c)
    /\ exists oldest added,
         Observed.removed_files tr = [Database.FilePath oldest]
         /\ Database.VolumeName oldest = volumeName
         /\ ~ In oldest (Database.backup_records db')
         /\ (forall k, In k (Stated.ledger_of volumeName db') ->
               Database.CreatedAt oldest <= Database.CreatedAt k)
         /\ length added = S j
         /\ (forall r, In r added -> Database.VolumeName r = volumeName)
         /\ Permutation (Database.backup_records db' ++ [oldest])
              (Database.backup_records db ++ added).
Proof using sorter_ok keep_positive.
  set (keep := Z.to_nat (Commands.keepGenerations_of c)).
  induction j as [|j IH]; intros m db db' e e' tr Hids Hm Hsum Hrun.
  all: rewrite successive_backups_step, run_bind in Hrun.
  all: destruct (Engine.run (World.with_store sorter env)
         (Commands.backupVolume time_Format c volumeName outputDir opts) (db, e))
         as [[o [db1 e1]] tr1] eqn:Hfirst.
  all: destruct o as [[err|]|]; [discriminate Hrun| |discriminate Hrun].
  all: destruct (backupVolume_retention sorter sorter_ok time_Format env c
         volumeName outputDir opts db db1 e e1 tr1 Hids keep_positive Hfirst)
         as (new & Hnew & Hnd & Hperm & Hmine & Hold & _ & Hfiles & Hids1).
  all: cbv zeta in Hperm, Hmine, Hold, Hfiles, Hnd; fold keep in Hperm, Hmine, Hold, Hfiles.
  all: set (mine := List.filter (Stated.of_volume volumeName)
         (Database.backup_records db ++ [new])) in *.
  all: assert (Hlen : length (sorter mine) = S m);
    [ rewrite (Permutation_length (proj1 (sorter_ok mine))); unfold mine;
      rewrite List.filter_app, List.length_app; cbn [List.filter];
      unfold Stated.of_volume at 2; rewrite Hnew, String.eqb_refl;
      cbn [length]; fold (Stated.ledger_of volumeName db); lia | ].
  - (* the last backup: the store holds keep records of the volume *)
    cbn [Engine.run] in Hrun. injection Hrun as <- <- <-.
    assert (Hm' : m = keep) by lia. subst m.
    assert (Hone : length (skipn keep (sorter mine)) = 1%nat)
      by (rewrite length_skipn; lia).
    destruct (skipn keep (sorter mine)) as [|oldest [|x rest]] eqn:Hskip;
      [discriminate Hone| |discriminate Hone].
    split.
    + rewrite (Permutation_length Hmine), length_firstn. lia.
    + exists oldest, [new]. split; [now rewrite app_nil_r|].
      assert (Hin : In oldest (sorter mine)).
      { rewrite <- (firstn_skipn keep (sorter mine)), Hskip.
        apply in_or_app. right. now left. }
      split.
      { apply (Permutation_in _ (proj1 (sorter_ok mine))) in Hin.
        unfold mine in Hin. apply List.filter_In in Hin as [_ Hin].
        now apply String.eqb_eq in Hin. }
      split.
      { intros Hin'. rewrite <- Hperm in Hnd.
        apply NoDup_app in Hnd as (_ & Hdis & _).
        apply (Hdis oldest); apply list_elem_of_In; [exact Hin'|now left]. }
      split; [intros k Hk; apply (Hold oldest k); [now left|exact Hk]|].
      split; [reflexivity|].
      split; [|exact Hperm].
      intros r [<-|[]]. exact Hnew.
  - (* an earlier backup: fewer than keep records, nothing to remove *)
    assert (Hnone : skipn keep (sorter mine) = []) by (apply skipn_all2; lia).
    rewrite Hnone in Hfiles, Hperm. cbn in Hfiles. rewrite app_nil_r in Hperm.
    assert (Hall : firstn keep (sorter mine) = sorter mine)
      by (apply firstn_all2; lia).
    rewrite Hall in Hmine.
    destruct (Engine.run (World.with_store sorter env)
      (Stated.successive_backups time_Format c volumeName outputDir opts (S j)) (db1, e1))
      as [[o2 [db2 e2]] tr2] eqn:Hrest.
    injection Hrun as -> <- <- <-.
    destruct (IH (S m) db1 db2 e1 e2 tr2 Hids1)
      as (Hkept & oldest & added & Hgone & Hvol & Hout & Holdest & Hcount & Hadded & Hall').
    + now rewrite (Permutation_length Hmine).
    + lia.
    + exact Hrest.
    + split; [exact Hkept|]. exists oldest, (new :: added).
      split.
      { unfold Observed.removed_files in *. rewrite omap_app, Hfiles. exact Hgone. }
      split; [exact Hvol|]. split; [exact Hout|]. split; [exact Holdest|].
      split; [cbn [length]; now rewrite Hcount|].
      split.
      { intros r [<-|Hr]; [exact Hnew|now apply Hadded]. }
      rewrite Hall', Hperm, <- app_assoc. reflexivity.
Qed.

End SuccessiveBackups.

(** Insertion newest first is a sorter of the kind the store promises. *)
Lemma insert_desc_Permutation (r : Database.BackupRecord)
    (sorted : list Database.BackupRecord) :
  Permutation (Database.insert_desc r sorted) (r :: sorted).
Proof.
  induction sorted as [|x rest IH]; cbn [Database.insert_desc]; [reflexivity|].
  destruct (Database.CreatedAt x <=? Database.CreatedAt r); [reflexivity|].
  rewrite IH. apply perm_swap.
Qed.

Lemma insert_desc_sorted (r : Database.BackupRecord)
    (sorted : list Database.BackupRecord) :
  StronglySorted (fun a b => Database.CreatedAt b <= Database.CreatedAt a) sorted ->
  StronglySorted (fun a b => Database.CreatedAt b <= Database.CreatedAt a)
    (Database.insert_desc r sorted).
Proof.
  induction sorted as [|x rest IH]; intros Hs; cbn [Database.insert_desc].
  - constructor; constructor.
  - inversion Hs as [|? ? Hrest Hx]; subst.
    destruct (Database.CreatedAt x <=? Database.CreatedAt r) eqn:Hle.
    + apply Z.leb_le in Hle. constructor; [exact Hs|].
      constructor; [exact Hle|].
      revert Hx. apply List.Forall_impl. intros b Hb. lia.
    + apply Z.leb_gt in Hle. constructor; [now apply IH|].
      apply (Permutation_Forall (Permutation_sym (insert_desc_Permutation r rest))).
      constructor; [lia|exact Hx].
Qed.

Lemma sort_desc_orders_newest_first :
  Assumed.orders_newest_first Database.sort_desc.
Proof.
  intros rows. unfold Database.sort_desc.
  induction rows as [|r rows [IHp IHs]]; cbn [fold_right].
  - split; [reflexivity|constructor].
  - split.
    + rewrite insert_desc_Permutation. now constructor.
    + now apply insert_desc_sorted.
Qed.

Lemma StronglySorted_skipn {A : Type} (R : A -> A -> Prop) (n : nat) :
  forall l, StronglySorted R l -> StronglySorted R (skipn n l).
Proof.
  induction n as [|n IH]; intros l Hs; [exact Hs|].
  destruct l as [|a l]; [exact Hs|]. cbn [skipn]. apply IH.
  now inversion Hs.
Qed.

(** C3, as amended.  Retention after a successful backup of a volume, the
    number N of generations to keep being positive.  With the ledger
    read newest first (creation time, as the store orders it):
    - one backup adds a record [new] of the volume and deletes exactly the
      records of that volume beyond the N newest: what is left and what was
      deleted make up the ledger, nothing deleted is left, the N newest of
      the volume stay, every deleted record is at least as old as every
      kept one, and the records of other volumes are untouched; the files
      of the deleted records are removed in the order of the listing,
      which runs from the newest of the deleted records to the oldest;
    - consequently N + 1 successful backups in a row of a volume without
      records add N + 1 records, remove exactly one of them together with
      its file, and leave exactly N records of the volume; no record that
      stays is older than the one removed, and when the creation times of
      the N + 1 records (whole seconds) are distinct the record removed is
      the single oldest: each record that stays is newer. *)
Theorem backupVolume_retention_keeps_the_newest
    (sorter : list Database.BackupRecord -> list Database.BackupRecord)
    (time_Format : string -> Time.Time -> string)
    {E : Type} (env : Engine.handler E)
    (c : Commands.Context) (volumeName outputDir : string)
    (opts : Commands.BackupOptions) :
  Assumed.orders_newest_first sorter ->
  0 < Commands.keepGenerations_of c ->
  let N := Z.to_nat (Commands.keepGenerations_of c) in
  (forall (db db' : Database.DB) (e e' : E) (tr : list Engine.event),
     Assumed.ids_in_order db ->
     Engine.run (World.with_store sorter env)
       (Commands.backupVolume time_Format c volumeName outputDir opts) (db, e)
     = (Engine.Returned None, (db', e'), tr) ->
     exists new,
       let ledger := (Database.backup_records db ++ [new])%list in
       let newest_first := sorter (List.filter (Stated.of_volume volumeName) ledger) in
       let kept := firstn N newest_first in
       let deleted := skipn N newest_first in
       Database.VolumeName new = volumeName
       /\ Permutation (Database.backup_records db' ++ deleted) ledger
       /\ (forall r, In r deleted -> ~ In r (Database.backup_records db'))
       /\ Permutation (Stated.ledger_of volumeName db') kept
       /\ (forall d k, In d deleted -> In k kept ->
             Database.CreatedAt d <= Database.CreatedAt k)
       /\ List.filter (fun r => negb (Stated.of_volume volumeName r))
            (Database.backup_records db')
          = List.filter (fun r => negb (Stated.of_volume volumeName r))
              (Database.backup_records db)
       /\ Observed.removed_files tr = map Database.FilePath deleted
       /\ StronglySorted
            (fun earlier later => Database.CreatedAt later <= Database.CreatedAt earlier)
            deleted)
  /\ (forall (db db' : Database.DB) (e e' : E) (tr : list Engine.event),
        Assumed.ids_in_order db ->
        Stated.ledger_of volumeName db = [] ->
        Engine.run (World.with_store sorter env)
          (Stated.successive_backups time_Format c volumeName outputDir opts (S N))
          (db, e)
        = (Engine.Returned None, (db', e'), tr) ->
        length (Stated.ledger_of volumeName db') = N
        /\ exists oldest added,
             Observed.removed_files tr = [Database.FilePath oldest]
             /\ Database.VolumeName oldest = volumeName
             /\ ~ In oldest (Database.backup_records db')
             /\ (forall k, In k (Stated.ledger_of volumeName db') ->
                   Database.CreatedAt oldest <= Database.CreatedAt k)
             /\ length added = S N
             /\ (forall r, In r added -> Database.VolumeName r = volumeName)
             /\ Permutation (Database.backup_records db' ++ [oldest])
                  (Database.backup_records db ++ added)
             /\ (List.NoDup (map Database.CreatedAt
                               (oldest :: Stated.ledger_of volumeName db')) ->
                 forall k, In k (Stated.ledger_of volumeName db') ->
                   Database.CreatedAt oldest < Database.CreatedAt k)).
Proof.
  intros Hsorter Hkeep N. split.
  - intros db db' e e' tr Hids Hrun.
    destruct (backupVolume_retention sorter Hsorter time_Format env c
      volumeName outputDir opts db db' e e' tr Hids Hkeep Hrun)
      as (new & Hnew & Hnd & Hperm & Hmine & Hold & Hothers & Hfiles & _).
    cbv zeta in Hnd, Hperm, Hmine, Hold, Hfiles.
    exists new. cbv zeta. fold N in Hperm, Hmine, Hold, Hfiles.
    split; [exact Hnew|]. split; [exact Hperm|].
    split.
    { intros r Hr Hr'. rewrite <- Hperm in Hnd.
      apply NoDup_app in Hnd as (_ & Hdis & _).
      apply (Hdis r); apply list_elem_of_In; assumption. }
    split; [exact Hmine|].
    split.
    { intros d k Hd Hk. apply (Hold d k Hd).
      apply (Permutation_in _ (Permutation_sym Hmine)). exact Hk. }
    split; [exact Hothers|]. split; [exact Hfiles|].
    apply StronglySorted_skipn. exact (proj2 (Hsorter _)).
  - intros db db' e e' tr Hids Hempty Hrun.
    destruct (successive_backups_evict_one sorter Hsorter time_Format env c
      volumeName outputDir opts Hkeep N 0%nat db db' e e' tr Hids
      ltac:(now rewrite Hempty) eq_refl Hrun)
      as (Hlen & oldest & added & Hfiles & Hvol & Hout & Hold & Hcount & Hadded & Hperm).
    split; [exact Hlen|]. exists oldest, added.
    split; [exact Hfiles|]. split; [exact Hvol|]. split; [exact Hout|].
    split; [exact Hold|]. split; [exact Hcount|]. split; [exact Hadded|].
    split; [exact Hperm|].
    intros Hdistinct k Hk. pose proof (Hold k Hk) as Hle.
    apply List.NoDup_cons_iff in Hdistinct as [Hfresh _].
    assert (Hne : Database.CreatedAt oldest <> Database.CreatedAt k).
    { intros Heq. apply Hfresh. rewrite Heq. now apply in_map. }
    lia.
Qed.

(** The theorem on three backups of p_data in a row with two generations
    to keep, on an empty store, one second apart. *)
Lemma backupVolume_retention_keeps_the_newest_witness :
  exists db' e' tr,
    Engine.run (World.with_store Database.sort_desc (Scenarios.clocked []))
      (Stated.successive_backups Scenarios.in_seconds (Scenarios.context 2 None "p")
         "p_data" "/b" Scenarios.plain_backup 3) (Scenarios.empty_db, Scenarios.day)
    = (Engine.Returned None, (db', e'), tr)
    /\ length (Stated.ledger_of "p_data" db') = 2%nat
    /\ exists oldest,
         Observed.removed_files tr = [Database.FilePath oldest]
         /\ ~ In oldest (Database.backup_records db').
Proof.
  destruct (backupVolume_retention_keeps_the_newest Database.sort_desc
    Scenarios.in_seconds (Scenarios.clocked []) (Scenarios.context 2 None "p")
    "p_data" "/b" Scenarios.plain_backup sort_desc_orders_newest_first eq_refl)
    as [_ Hrow].
  assert (Hrun : exists db' e' tr,
    Engine.run (World.with_store Database.sort_desc (Scenarios.clocked []))
      (Stated.successive_backups Scenarios.in_seconds (Scenarios.context 2 None "p")
         "p_data" "/b" Scenarios.plain_backup 3) (Scenarios.empty_db, Scenarios.day)
    = (Engine.Returned None, (db', e'), tr))
    by (vm_compute; do 3 eexists; reflexivity).
  destruct Hrun as (db' & e' & tr & Hrun).
  exists db', e', tr. split; [exact Hrun|].
  destruct (Hrow Scenarios.empty_db db' Scenarios.day e' tr
    (conj (NoDup_nil_2 : NoDup (map Database.ID [])) (fun r (H : In r []) => match H with end))
    eq_refl Hrun)
    as (Hlen & oldest & added & Hfiles & _ & Hout & _).
  split; [exact Hlen|]. exists oldest. split; [exact Hfiles|exact Hout].
Defined.

(** The same run, evaluated: the archive of the first second is removed,
    those of the two later backups stay. *)
Example three_backups_keep_two :
  let '(o, (db', _), tr) :=
    Engine.run (World.with_store Database.sort_desc (Scenarios.clocked []))
      (Stated.successive_backups Scenarios.in_seconds (Scenarios.context 2 None "p")
         "p_data" "/b" Scenarios.plain_backup 3) (Scenarios.empty_db, Scenarios.day) in
  o = Engine.Returned None
  /\ Observed.removed_files tr = ["/b/p_data_86400.tar.gz"]
  /\ map Database.FilePath (Database.backup_records db')
     = ["/b/p_data_86403.tar.gz"; "/b/p_data_86406.tar.gz"].
Proof. vm_compute. repeat split. Qed.

(** The claim as the specification words it fails on the code in two
    ways.  Files are not removed oldest first: one backup with one
    generation to keep, on the ledger of three generations, removes
    /b/third, then /b/second, then /b/first.  And the record removed
    need not be the single oldest: two backups while the clock stands
    still, with one generation to keep, leave the record of the first
    backup in the ledger and remove that of the second, whose file is
    the file the remaining record names. *)
Lemma backupVolume_retention_removes_newest_first_and_ties_by_the_listing :
  (let '(o, _, tr) :=
     Engine.run (World.with_store Database.sort_desc (Scenarios.clocked []))
       (Commands.backupVolume Scenarios.in_seconds (Scenarios.context 1 None "p")
          "p_data" "/b" Scenarios.plain_backup)
       (Scenarios.three_generations, Scenarios.day) in
   o = Engine.Returned None
   /\ Observed.removed_files tr = ["/b/third"; "/b/second"; "/b/first"]
   /\ Observed.removed_files tr <> ["/b/first"; "/b/second"; "/b/third"])
  /\ (let '(o, (db', _), tr) :=
        Engine.run (World.with_store Database.sort_desc World.quiet)
          (Stated.successive_backups Scenarios.in_seconds (Scenarios.context 1 None "p")
             "p_data" "/b" Scenarios.plain_backup 2) (Scenarios.empty_db, tt) in
      o = Engine.Returned None
      /\ map Database.ID (Database.backup_records db') = [1]
      /\ map Database.FilePath (Database.backup_records db') = ["/b/p_data_0.tar.gz"]
      /\ Observed.removed_files tr = ["/b/p_data_0.tar.gz"]).
Proof.
  split.
  - vm_compute. split; [reflexivity|]. split; [reflexivity|discriminate].
  - vm_compute. repeat split.
Qed.

(* ================================================================== *)
(** * Further properties of the code *)
(* ================================================================== *)

(** ** Services and their volumes *)

Lemma prefix_app (pre rest : string) : String.prefix pre (pre +:+ rest) = true.
Proof.
  induction pre as [|c pre IH]; [rewrite app_Empty; now destruct rest|].
  rewrite app_String. cbn [String.prefix].
  destruct (ascii_dec c c) as [_|Hne]; [exact IH|now elim Hne].
Qed.

Lemma drop_bytes_app (pre rest : string) :
  Strings.drop_bytes (String.length pre) (pre +:+ rest) = rest.
Proof.
  induction pre as [|c pre IH]; [now rewrite app_Empty|].
  rewrite app_String. exact IH.
Qed.

Lemma TrimPrefix_app (pre rest : string) : Strings.TrimPrefix (pre +:+ rest) pre = rest.
Proof.
  unfold Strings.TrimPrefix, Strings.HasPrefix.
  now rewrite prefix_app, drop_bytes_app.
Qed.

Lemma append_assoc (a b c : string) : (a +:+ b) +:+ c = a +:+ (b +:+ c).
Proof.
  induction a as [|x a IH]; [now rewrite !app_Empty|].
  now rewrite !app_String, IH.
Qed.

(** The service the loop of GetServiceByVolumeName stops at has a mapping
    of the volume; and the loop stops when some service has one. *)
Lemma service_by_volume_loop_sound (cf : Compose.ComposeFile) (names : list string)
    (shortName serviceName : string) :
  Compose.service_by_volume_loop cf names shortName = Some serviceName ->
  In serviceName names
  /\ exists mappings m,
       Compose.GetVolumeMapping cf serviceName = Errors.Ok mappings
       /\ In m mappings /\ Compose.VolumeName m = shortName.
Proof.
  induction names as [|s rest IH]; cbn [Compose.service_by_volume_loop]; [discriminate|].
  destruct (Compose.GetVolumeMapping cf s) as [mappings|err] eqn:Hget.
  - destruct (existsb _ mappings) eqn:Hex.
    + intros [= <-]. split; [now left|].
      apply existsb_exists in Hex as (m & Hm & Heq).
      exists mappings, m. split; [exact Hget|]. split; [exact Hm|now apply String.eqb_eq].
    + intros H. destruct (IH H) as [Hin Hrest]. split; [now right|exact Hrest].
  - intros H. destruct (IH H) as [Hin Hrest]. split; [now right|exact Hrest].
Qed.

Lemma service_by_volume_loop_complete (cf : Compose.ComposeFile) (names : list string)
    (shortName s : string) (mappings : list Compose.VolumeMapping)
    (m : Compose.VolumeMapping) :
  In s names ->
  Compose.GetVolumeMapping cf s = Errors.Ok mappings ->
  In m mappings -> Compose.VolumeName m = shortName ->
  exists serviceName,
    Compose.service_by_volume_loop cf names shortName = Some serviceName.
Proof.
  intros Hin Hget Hm Hname.
  induction names as [|s0 rest IH]; [destruct Hin|].
  cbn [Compose.service_by_volume_loop].
  destruct (Compose.GetVolumeMapping cf s0) as [ms0|err] eqn:Hget0.
  - destruct (existsb _ ms0) eqn:Hex; [now eexists|].
    destruct Hin as [->|Hin]; [|now apply IH].
    exfalso. rewrite Hget in Hget0. injection Hget0 as <-.
    apply Bool.not_true_iff_false in Hex. apply Hex.
    apply existsb_exists. exists m. split; [exact Hm|now apply String.eqb_eq].
  - destruct Hin as [->|Hin]; [congruence|now apply IH].
Qed.

(** X1. Resolving a service to its full volume name and looking the
    service up again by that name agree: for the name GetFullVolumeName
    gives for a service, GetServiceByVolumeName finds a service of the
    file, and the service found mounts that very volume (it is the
    service asked for when no other service mounts the volume). *)
Theorem GetServiceByVolumeName_finds_the_volume_of_GetFullVolumeName
    (cf : Compose.ComposeFile) (serviceName projectName fullName : string) :
  Compose.GetFullVolumeName cf serviceName projectName = Errors.Ok fullName ->
  exists found mappings m,
    Compose.GetServiceByVolumeName cf fullName projectName = Errors.Ok found
    /\ In found (map fst (Compose.Services cf))
    /\ Compose.GetVolumeMapping cf found = Errors.Ok mappings
    /\ In m mappings
    /\ Strings.Sprintf_s_s projectName (Compose.VolumeName m) = fullName
    /\ ((forall other ms m',
           Compose.GetVolumeMapping cf other = Errors.Ok ms -> In m' ms ->
           Compose.VolumeName m' = Compose.VolumeName m -> other = serviceName) ->
        found = serviceName).
Proof.
  unfold Compose.GetFullVolumeName.
  destruct (Compose.GetVolumeMapping cf serviceName) as [[|m0 ms0]|err] eqn:Hget;
    try discriminate.
  intros [= <-].
  assert (Hin : In serviceName (map fst (Compose.Services cf))).
  { unfold Compose.GetVolumeMapping in Hget.
    destruct (Compose.lookup_service (Compose.Services cf) serviceName) eqn:Hl;
      [|discriminate].
    exact (lookup_service_key _ _ _ Hl). }
  unfold Compose.GetServiceByVolumeName, Strings.Sprintf_s_s.
  rewrite <- append_assoc.
  unfold Strings.HasPrefix at 1. rewrite prefix_app, TrimPrefix_app.
  destruct (service_by_volume_loop_complete cf _ (Compose.VolumeName m0) serviceName
              (m0 :: ms0) m0 Hin Hget (or_introl eq_refl) eq_refl) as [found Hfound].
  rewrite Hfound.
  destruct (service_by_volume_loop_sound cf _ _ _ Hfound)
    as (Hfin & mappings & m & Hmaps & Hm & Hname).
  exists found, mappings, m. rewrite Hname.
  repeat split; try assumption.
  - now rewrite append_assoc.
  - intros Honly. exact (Honly found mappings m Hmaps Hm Hname).
Qed.

(** The theorem on the project whose services db and web share the volume
    data: the full name p_data, asked for web, leads back to db, the first
    service that mounts it. *)
Lemma GetServiceByVolumeName_finds_the_volume_of_GetFullVolumeName_witness :
  Compose.GetFullVolumeName Scenarios.shared_volume_project "web" "p" = Errors.Ok "p_data"
  /\ exists found mappings m,
       Compose.GetServiceByVolumeName Scenarios.shared_volume_project "p_data" "p"
       = Errors.Ok found
       /\ Compose.GetVolumeMapping Scenarios.shared_volume_project found = Errors.Ok mappings
       /\ In m mappings
       /\ Strings.Sprintf_s_s "p" (Compose.VolumeName m) = "p_data".
Proof.
  split; [reflexivity|].
  destruct (GetServiceByVolumeName_finds_the_volume_of_GetFullVolumeName
              Scenarios.shared_volume_project "web" "p" "p_data" eq_refl)
    as (found & mappings & m & H1 & _ & H2 & H3 & H4 & _).
  exists found, mappings, m. repeat split; assumption.
Defined.

Example GetServiceByVolumeName_shared_volume :
  Compose.GetServiceByVolumeName Scenarios.shared_volume_project "p_data" "p"
  = Errors.Ok "db".
Proof. reflexivity. Qed.

(** ** Resolving a name to a volume *)

(** X2. ResolveVolumeName in any world.  A name that the definition file
    resolves (a service with a named volume) is answered from the file
    alone, without a call to the engine, even when a volume of that very
    name exists.  Otherwise the engine is asked for the name as given,
    and, only when that fails and a project name is set, for the name
    with the project prefix; the volume returned is one the engine
    confirmed, and the only error is ErrVolumeNotFound. *)
Theorem ResolveVolumeName_asks_the_file_then_the_engine
    {W : Type} (h : Engine.handler W) (c : Commands.Context)
    (serviceOrVolume : string) (w : W) :
  let '(ended, _, tr) := Engine.run h (Commands.ResolveVolumeName c serviceOrVolume) w in
  let withPrefix := Commands.ProjectName c +:+ "_" +:+ serviceOrVolume in
  let declared :=
    match Commands.Compose c with
    | Some cf =>
        match Compose.GetFullVolumeName cf serviceOrVolume (Commands.ProjectName c) with
        | Errors.Ok fullName => Some fullName
        | Errors.Err _ => None
        end
    | None => None
    end in
  match declared with
  | Some fullName => ended = Engine.Returned (Errors.Ok fullName) /\ tr = []
  | None =>
      (ended = Engine.Returned (Errors.Ok serviceOrVolume)
       /\ tr = [Engine.Event (Engine.VolumeExists serviceOrVolume) true])
      \/ (Commands.ProjectName c = ""
          /\ ended = Engine.Returned (Errors.Err Commands.ErrVolumeNotFound)
          /\ tr = [Engine.Event (Engine.VolumeExists serviceOrVolume) false])
      \/ (Commands.ProjectName c <> ""
          /\ ended = Engine.Returned (Errors.Ok withPrefix)
          /\ tr = [Engine.Event (Engine.VolumeExists serviceOrVolume) false;
                   Engine.Event (Engine.VolumeExists withPrefix) true])
      \/ (Commands.ProjectName c <> ""
          /\ ended = Engine.Returned (Errors.Err Commands.ErrVolumeNotFound)
          /\ tr = [Engine.Event (Engine.VolumeExists serviceOrVolume) false;
                   Engine.Event (Engine.VolumeExists withPrefix) false])
  end.
Proof.
  unfold Commands.ResolveVolumeName.
  destruct (match Commands.Compose c with
            | Some cf =>
                match Compose.GetFullVolumeName cf serviceOrVolume (Commands.ProjectName c) with
                | Errors.Ok fullName => Some fullName
                | Errors.Err _ => None
                end
            | None => None
            end) as [fullName|]; [now cbn|].
  cbn [Engine.run Engine.bind Engine.call].
  destruct (h _ (Engine.VolumeExists serviceOrVolume) w) as [[|] w1];
    [cbn; now left|].
  destruct (String.eqb_spec (Commands.ProjectName c) "") as [Hp|Hp]; cbn [negb].
  - cbn. right; left. now rewrite Hp.
  - cbn [Engine.run Engine.bind Engine.call].
    destruct (h _ (Engine.VolumeExists _) w1) as [[|] w2]; cbn.
    + right; right; left. now repeat split.
    + right; right; right. now repeat split.
Qed.

(** A service of the file is resolved from the file although the engine
    holds a volume named like the service. *)
Example ResolveVolumeName_prefers_the_declared_service :
  Engine.run World.quiet
    (Commands.ResolveVolumeName
       (Scenarios.context 5 (Some Scenarios.shared_volume_project) "p") "db") tt
  = (Engine.Returned (Errors.Ok "p_data"), tt, []).
Proof. reflexivity. Qed.

(** ** The metadata store: what is written is read back *)

Lemma find_upsert_same (rows : list Database.MetaRow) (name : string)
    (fresh : Database.MetaRow) (update : Database.MetaRow -> Database.MetaRow) :
  Database.row_volume fresh = name ->
  (forall r, Database.row_volume (update r) = Database.row_volume r) ->
  List.find (fun r => String.eqb (Database.row_volume r) name)
    (Database.upsert rows name fresh update)
  = Some match List.find (fun r => String.eqb (Database.row_volume r) name) rows with
         | Some r => update r
         | None => fresh
         end.
Proof.
  intros Hfresh Hupdate.
  induction rows as [|a rows IH]; cbn [Database.upsert List.find].
  - now rewrite Hfresh, String.eqb_refl.
  - destruct (String.eqb (Database.row_volume a) name) eqn:Ha; cbn [List.find].
    + now rewrite Hupdate, Ha.
    + now rewrite Ha.
Qed.

Lemma find_upsert_other (rows : list Database.MetaRow) (name other : string)
    (fresh : Database.MetaRow) (update : Database.MetaRow -> Database.MetaRow) :
  other <> name ->
  Database.row_volume fresh = name ->
  (forall r, Database.row_volume (update r) = Database.row_volume r) ->
  List.find (fun r => String.eqb (Database.row_volume r) other)
    (Database.upsert rows name fresh update)
  = List.find (fun r => String.eqb (Database.row_volume r) other) rows.
Proof.
  intros Hne Hfresh Hupdate.
  induction rows as [|a rows IH]; cbn [Database.upsert List.find].
  - rewrite Hfresh. destruct (String.eqb_spec name other); [congruence|reflexivity].
  - destruct (String.eqb_spec (Database.row_volume a) name) as [Ha|Ha]; cbn [List.find].
    + rewrite Hupdate.
      destruct (String.eqb_spec (Database.row_volume a) other); [congruence|reflexivity].
    + destruct (String.eqb (Database.row_volume a) other); [reflexivity|exact IH].
Qed.

Lemma GetVolumeMetadata_name (db : Database.DB) (volumeName : string) :
  Database.MetaVolumeName (Database.GetVolumeMetadata db volumeName) = volumeName.
Proof.
  unfold Database.GetVolumeMetadata.
  destruct (List.find _ (Database.volume_metadata db)) as [r|] eqn:Hfind; [|reflexivity].
  apply List.find_some in Hfind as [_ Hname]. now apply String.eqb_eq in Hname.
Qed.

(** X3. UpdateLastAccessed followed by GetVolumeMetadata: the volume's
    last access is the instant written, also for a volume the store did
    not know; its last backup and backup count are what they were (zero
    for a new volume); no other volume's metadata and no backup record
    changes. *)
Theorem UpdateLastAccessed_is_read_back
    (db : Database.DB) (now : Time.Time) (volumeName : string) :
  let db' := Database.UpdateLastAccessed db now volumeName in
  Database.GetVolumeMetadata db' volumeName
  = {| Database.MetaVolumeName := volumeName;
       Database.LastAccessed := now;
       Database.LastBackup :=
         Database.LastBackup (Database.GetVolumeMetadata db volumeName);
       Database.BackupCount :=
         Database.BackupCount (Database.GetVolumeMetadata db volumeName) |}
  /\ (forall other, other <> volumeName ->
        Database.GetVolumeMetadata db' other = Database.GetVolumeMetadata db other)
  /\ Database.backup_records db' = Database.backup_records db
  /\ Database.last_id db' = Database.last_id db.
Proof.
  cbv zeta. split; [|split; [|now split]].
  - pose proof (GetVolumeMetadata_name db volumeName) as Hname. revert Hname.
    unfold Database.GetVolumeMetadata, Database.UpdateLastAccessed.
    cbn [Database.volume_metadata].
    rewrite find_upsert_same by reflexivity.
    destruct (List.find _ (Database.volume_metadata db)) as [r|]; cbn; [|reflexivity].
    now intros ->.
  - intros other Hne.
    unfold Database.GetVolumeMetadata, Database.UpdateLastAccessed.
    cbn [Database.volume_metadata].
    now rewrite find_upsert_other by (reflexivity || assumption).
Qed.

(** X4. UpdateLastBackup followed by GetVolumeMetadata: the backup count
    of the volume is one more than before (one for a volume the store did
    not know), its last backup is the instant written, its last access is
    untouched, and no other volume's metadata changes. *)
Theorem UpdateLastBackup_counts_one_more
    (db : Database.DB) (now : Time.Time) (volumeName : string) :
  let db' := Database.UpdateLastBackup db now volumeName in
  Database.GetVolumeMetadata db' volumeName
  = {| Database.MetaVolumeName := volumeName;
       Database.LastAccessed :=
         Database.LastAccessed (Database.GetVolumeMetadata db volumeName);
       Database.LastBackup := now;
       Database.BackupCount :=
         Database.BackupCount (Database.GetVolumeMetadata db volumeName) + 1 |}
  /\ (forall other, other <> volumeName ->
        Database.GetVolumeMetadata db' other = Database.GetVolumeMetadata db other)
  /\ Database.backup_records db' = Database.backup_records db
  /\ Database.last_id db' = Database.last_id db.
Proof.
  cbv zeta. split; [|split; [|now split]].
  - pose proof (GetVolumeMetadata_name db volumeName) as Hname. revert Hname.
    unfold Database.GetVolumeMetadata, Database.UpdateLastBackup.
    cbn [Database.volume_metadata].
    rewrite find_upsert_same by reflexivity.
    destruct (List.find _ (Database.volume_metadata db)) as [r|]; cbn; [|reflexivity].
    now intros ->.
  - intros other Hne.
    unfold Database.GetVolumeMetadata, Database.UpdateLastBackup.
    cbn [Database.volume_metadata].
    now rewrite find_upsert_other by (reflexivity || assumption).
Qed.

(** ** A backup and the store *)

Lemma CleanupOldBackups_metadata
    (sorter : list Database.BackupRecord -> list Database.BackupRecord)
    (db db' : Database.DB) (volumeName : string) (keep : Z)
    (deleted : list Database.BackupRecord) :
  Database.CleanupOldBackups sorter db volumeName keep = Some (deleted, db') ->
  Database.volume_metadata db' = Database.volume_metadata db
  /\ Database.last_id db' = Database.last_id db.
Proof.
  unfold Database.CleanupOldBackups.
  destruct (keep <? _); [destruct (keep <? 0); [discriminate|]|];
    intros [= <- <-]; [|now split].
  now destruct (delete_loop_records
    (skipn (Z.to_nat keep) (Database.GetBackupRecords sorter db volumeName 0)) db)
    as (_ & H2 & H3).
Qed.

Lemma CleanupOldBackups_positive
    (sorter : list Database.BackupRecord -> list Database.BackupRecord)
    (db : Database.DB) (volumeName : string) (keep : Z) :
  0 < keep -> Database.CleanupOldBackups sorter db volumeName keep <> None.
Proof.
  intros Hkeep. unfold Database.CleanupOldBackups.
  destruct (keep <? _); [|discriminate].
  replace (keep <? 0) with false by (symmetry; apply Z.ltb_ge; lia). discriminate.
Qed.

Lemma UpdateLastBackup_counts_one_more_aux
    (db : Database.DB) (now : Time.Time) (volumeName : string) :
  Database.GetVolumeMetadata (Database.UpdateLastBackup db now volumeName) volumeName
  = {| Database.MetaVolumeName := volumeName;
       Database.LastAccessed :=
         Database.LastAccessed (Database.GetVolumeMetadata db volumeName);
       Database.LastBackup := now;
       Database.BackupCount :=
         Database.BackupCount (Database.GetVolumeMetadata db volumeName) + 1 |}
  /\ (forall other, other <> volumeName ->
        Database.GetVolumeMetadata (Database.UpdateLastBackup db now volumeName) other
        = Database.GetVolumeMetadata db other).
Proof.
  split.
  - pose proof (GetVolumeMetadata_name db volumeName) as Hname. revert Hname.
    unfold Database.GetVolumeMetadata, Database.UpdateLastBackup.
    cbn [Database.volume_metadata].
    rewrite find_upsert_same by reflexivity.
    destruct (List.find _ (Database.volume_metadata db)) as [r|]; cbn; [|reflexivity].
    now intros ->.
  - intros other Hne.
    unfold Database.GetVolumeMetadata, Database.UpdateLastBackup.
    cbn [Database.volume_metadata].
    now rewrite find_upsert_other by (reflexivity || assumption).
Qed.

Section BackupCommits.

Variable sorter : list Database.BackupRecord -> list Database.BackupRecord.
Variable time_Format : string -> Time.Time -> string.
Context {E : Type}.
Variable env : Engine.handler E.

Tactic Notation "answer" "as" ident(a) ident(e') :=
  cbn [Engine.run Engine.bind Engine.call World.with_store];
  match goal with
  | |- context [env ?X ?op ?e] => destruct (env X op e) as [a e']
  end.

(** X5. backupVolume on a store with a healthy connection, whatever the
    rest of the world does: it never panics; when it returns an error,
    the data mover produced no archive and the store is exactly as it
    was; when it returns nil, the data mover produced one archive of the
    volume, one record was added to the ledger (the id counter moved by
    one), the volume's backup count is one more than before, and no other
    volume's metadata changed. *)
Theorem backupVolume_commits_to_the_store_only_on_success
    (c : Commands.Context) (volumeName outputDir : string)
    (opts : Commands.BackupOptions) (db : Database.DB) (e : E) :
  let '(ended, (db', _), tr) :=
    Engine.run (World.with_store sorter env)
      (Commands.backupVolume time_Format c volumeName outputDir opts) (db, e) in
  match ended with
  | Engine.Returned (Some err) => db' = db /\ Observed.artifacts tr = []
  | Engine.Returned None =>
      (exists outputPath, Observed.artifacts tr = [(volumeName, outputPath)])
      /\ Database.last_id db' = Database.last_id db + 1
      /\ Database.BackupCount (Database.GetVolumeMetadata db' volumeName)
         = Database.BackupCount (Database.GetVolumeMetadata db volumeName) + 1
      /\ Database.LastAccessed (Database.GetVolumeMetadata db' volumeName)
         = Database.LastAccessed (Database.GetVolumeMetadata db volumeName)
      /\ (forall other, other <> volumeName ->
            Database.GetVolumeMetadata db' other = Database.GetVolumeMetadata db other)
  | Engine.Panicked => False
  end.
Proof.
  unfold Commands.backupVolume, Commands.GenerateBackupFilename.
  answer as present e1. destruct present; cbn [negb]; [|now cbn].
  match goal with
  | |- context [Engine.bind (if ?b then ?x else ?y) ?k] => set (tail := k)
  end.
  assert (Htail : forall e0,
    let '(ended, (db', _), tr) :=
      Engine.run (World.with_store sorter env) (tail None) (db, e0) in
    match ended with
    | Engine.Returned (Some err) => db' = db /\ Observed.artifacts tr = []
    | Engine.Returned None =>
        (exists outputPath, Observed.artifacts tr = [(volumeName, outputPath)])
        /\ Database.last_id db' = Database.last_id db + 1
        /\ Database.BackupCount (Database.GetVolumeMetadata db' volumeName)
           = Database.BackupCount (Database.GetVolumeMetadata db volumeName) + 1
        /\ Database.LastAccessed (Database.GetVolumeMetadata db' volumeName)
           = Database.LastAccessed (Database.GetVolumeMetadata db volumeName)
        /\ (forall other, other <> volumeName ->
              Database.GetVolumeMetadata db' other = Database.GetVolumeMetadata db other)
    | Engine.Panicked => False
    end).
  { clear e e1. intros e. unfold tail.
    answer as now e1. answer as moved e2. destruct moved as [err|]; [now cbn|].
    answer as sized e3. answer as summed e4. answer as added_at e5.
    cbn [Engine.run Engine.bind Engine.call World.with_store].
    answer as updated_at e6.
    cbn [Engine.run Engine.bind Engine.call World.with_store].
    match goal with
    | |- context [Database.AddBackupRecord db added_at ?record] =>
        set (db1 := Database.AddBackupRecord db added_at record)
    end.
    set (db2 := Database.UpdateLastBackup db1 updated_at volumeName).
    assert (Hcount : Database.last_id db2 = Database.last_id db + 1
      /\ Database.BackupCount (Database.GetVolumeMetadata db2 volumeName)
         = Database.BackupCount (Database.GetVolumeMetadata db volumeName) + 1
      /\ Database.LastAccessed (Database.GetVolumeMetadata db2 volumeName)
         = Database.LastAccessed (Database.GetVolumeMetadata db volumeName)
      /\ (forall other, other <> volumeName ->
            Database.GetVolumeMetadata db2 other = Database.GetVolumeMetadata db other)).
    { destruct (UpdateLastBackup_counts_one_more_aux db1 updated_at volumeName)
        as (Hsame & Hother). split; [reflexivity|].
      unfold db2. rewrite Hsame. cbn. repeat split. exact Hother. }
    destruct (0 <? Commands.keepGenerations_of c) eqn:Hkeep.
    - cbn [Engine.run Engine.bind Engine.call World.with_store].
      apply Z.ltb_lt in Hkeep.
      destruct (Database.CleanupOldBackups sorter db2 volumeName
                  (Commands.keepGenerations_of c)) as [[deleted db3]|] eqn:Hclean;
        [|now elim (CleanupOldBackups_positive sorter db2 volumeName _ Hkeep)].
      rewrite run_bind.
      destruct (remove_files_with_store sorter env deleted db3 e6)
        as (e7 & tr7 & Hremove & _).
      pose proof (remove_files_loop_trace (World.with_store sorter env) deleted (db3, e6))
        as (_ & _ & Hnone & _).
      rewrite Hremove in *. cbn [snd] in Hnone. cbn [Engine.run].
      destruct (CleanupOldBackups_metadata sorter db2 db3 volumeName _ deleted Hclean)
        as [Hmeta Hid].
      split.
      { eexists. unfold Observed.artifacts in *. cbn [omap list_omap Observed.artifact].
        rewrite omap_app, Hnone. cbn. reflexivity. }
      unfold Database.GetVolumeMetadata in *. rewrite Hid, Hmeta. exact Hcount.
    - cbn [Engine.run]. split; [|exact Hcount].
      eexists. cbn. reflexivity. }
  destruct (Commands.Stop opts).
  - answer as stopped e2. destruct stopped as [err|]; [now cbn|].
    specialize (Htail e2).
    destruct (Engine.run (World.with_store sorter env) (tail None) (db, e2))
      as [[ended [db' e']] tr].
    exact Htail.
  - cbn [Engine.bind]. specialize (Htail e1).
    destruct (Engine.run (World.with_store sorter env) (tail None) (db, e1))
      as [[ended [db' e']] tr].
    exact Htail.
Qed.

End BackupCommits.

(** ** The ledger of backups *)

Lemma ids_in_order_delete (db : Database.DB) (id : Z) :
  Assumed.ids_in_order db -> Assumed.ids_in_order (Database.DeleteBackupRecord db id).
Proof.
  intros [Hids Hmax]. split; cbn [Database.DeleteBackupRecord Database.backup_records
    Database.last_id].
  - now apply NoDup_map_filter.
  - intros r Hr. apply List.filter_In in Hr as [Hr _]. now apply Hmax.
Qed.

Lemma filter_all {A : Type} (p : A -> bool) (l : list A) :
  (forall x, In x l -> p x = true) -> List.filter p l = l.
Proof.
  induction l as [|a l IH]; intros H; [reflexivity|].
  cbn [List.filter]. rewrite (H a (or_introl eq_refl)).
  f_equal. apply IH. intros x Hx. apply H. now right.
Qed.

(** X6. AddBackupRecord on tables with distinct ids.  The row stored
    carries the fields of the record given, except that its id and its
    creation time are the store's: the id is one above the counter, so
    above every id in the table, and the creation time is the current
    instant in whole seconds, whatever ID and CreatedAt the caller put in
    the record.  The row is then among the records GetBackupRecords
    lists for its volume, the lists of other volumes are what they were,
    and ids stay distinct. *)
Theorem AddBackupRecord_gives_a_fresh_id
    (sorter : list Database.BackupRecord -> list Database.BackupRecord)
    (db : Database.DB) (now : Time.Time) (record : Database.BackupRecord) :
  Assumed.orders_newest_first sorter ->
  Assumed.ids_in_order db ->
  let db' := Database.AddBackupRecord db now record in
  exists row,
    Database.backup_records db' = (Database.backup_records db ++ [row])%list
    /\ row = {| Database.ID := Database.last_id db + 1;
                Database.VolumeName := Database.VolumeName record;
                Database.ServiceName := Database.ServiceName record;
                Database.ProjectName := Database.ProjectName record;
                Database.FilePath := Database.FilePath record;
                Database.Size := Database.Size record;
                Database.CreatedAt := Time.to_seconds now;
                Database.Tag := Database.Tag record;
                Database.Checksum := Database.Checksum record |}
    /\ (forall old, In old (Database.backup_records db) ->
          Database.ID old < Database.ID row)
    /\ In row (Database.GetBackupRecords sorter db' (Database.VolumeName record) 0)
    /\ (forall other limit, other <> Database.VolumeName record ->
          Database.GetBackupRecords sorter db' other limit
          = Database.GetBackupRecords sorter db other limit)
    /\ Assumed.ids_in_order db'.
Proof.
  intros Hsorter Hids. cbv zeta. eexists. split; [reflexivity|].
  split; [reflexivity|]. split; [|split; [|split]].
  - intros old Hold. apply (proj2 Hids) in Hold. cbn. lia.
  - unfold Database.GetBackupRecords. cbn [Z.ltb Z.compare].
    apply (Permutation_in _ (Permutation_sym (proj1 (Hsorter _)))).
    apply List.filter_In. split.
    + cbn [Database.AddBackupRecord Database.backup_records].
      apply in_or_app. right. now left.
    + cbn. apply String.eqb_refl.
  - intros other limit Hne. unfold Database.GetBackupRecords.
    cbn [Database.AddBackupRecord Database.backup_records].
    rewrite List.filter_app. cbn [List.filter Database.VolumeName].
    destruct (String.eqb_spec (Database.VolumeName record) other) as [Heq|_];
      [congruence|].
    now rewrite app_nil_r.
  - now apply ids_in_order_add.
Qed.

Lemma AddBackupRecord_gives_a_fresh_id_witness :
  exists row,
    Database.backup_records
      (Database.AddBackupRecord Scenarios.empty_db Scenarios.day
         {| Database.ID := 77; Database.VolumeName := "p_data";
            Database.ServiceName := "db"; Database.ProjectName := "p";
            Database.FilePath := "/b/p_data_T.tar.gz"; Database.Size := 10;
            Database.CreatedAt := 5; Database.Tag := ""; Database.Checksum := "" |})
    = [row]
    /\ Database.ID row = 1 /\ Database.CreatedAt row = Scenarios.day.
Proof.
  destruct (AddBackupRecord_gives_a_fresh_id Database.sort_desc Scenarios.empty_db
    Scenarios.day
    {| Database.ID := 77; Database.VolumeName := "p_data";
       Database.ServiceName := "db"; Database.ProjectName := "p";
       Database.FilePath := "/b/p_data_T.tar.gz"; Database.Size := 10;
       Database.CreatedAt := 5; Database.Tag := ""; Database.Checksum := "" |}
    sort_desc_orders_newest_first
    (conj (NoDup_nil_2 : NoDup (map Database.ID [])) (fun r (H : In r []) => match H with end)))
    as (row & Hrows & Hrow & _).
  exists row. split; [exact Hrows|]. rewrite Hrow. split; reflexivity.
Defined.

(** X7. DeleteBackupRecord on tables with distinct ids removes the one
    record of that id and nothing else, and an id that is not in the
    table changes nothing.  An id is never given out twice: after a
    record is added and deleted again the table is what it was, but the
    counter has moved, so the next record gets a new id. *)
Theorem DeleteBackupRecord_removes_one_record_and_ids_are_not_reused
    (db : Database.DB) (now later : Time.Time) (record next : Database.BackupRecord) :
  Assumed.ids_in_order db ->
  (forall r, In r (Database.backup_records db) ->
     Permutation (r :: Database.backup_records (Database.DeleteBackupRecord db (Database.ID r)))
       (Database.backup_records db)
     /\ ~ In r (Database.backup_records (Database.DeleteBackupRecord db (Database.ID r))))
  /\ (forall id, ~ In id (map Database.ID (Database.backup_records db)) ->
        Database.DeleteBackupRecord db id = db)
  /\ (let added := Database.AddBackupRecord db now record in
      let deleted := Database.DeleteBackupRecord added (Database.last_id db + 1) in
      Database.backup_records deleted = Database.backup_records db
      /\ Database.last_id deleted = Database.last_id db + 1
      /\ exists row,
           Database.backup_records (Database.AddBackupRecord deleted later next)
           = (Database.backup_records db ++ [row])%list
           /\ Database.ID row = Database.last_id db + 2).
Proof.
  intros [Hids Hmax]. split; [|split].
  - intros r Hr. cbn [Database.DeleteBackupRecord Database.backup_records]. split.
    + revert Hids Hr. clear Hmax.
      induction (Database.backup_records db) as [|x rest IH]; intros Hids Hr;
        [destruct Hr|].
      cbn in Hids. apply NoDup_cons in Hids as [Hx Hrest].
      cbn [List.filter]. destruct Hr as [->|Hr].
      * rewrite Z.eqb_refl. cbn [negb]. apply perm_skip.
        rewrite filter_all; [reflexivity|].
        intros y Hy. apply Bool.negb_true_iff, Z.eqb_neq. intros Heq.
        apply Hx. rewrite <- Heq. apply list_elem_of_In. now apply in_map.
      * assert (Hne : Database.ID x <> Database.ID r).
        { intros Heq. apply Hx. rewrite Heq. apply list_elem_of_In. now apply in_map. }
        apply Z.eqb_neq in Hne. rewrite Hne. cbn [negb].
        rewrite perm_swap. apply perm_skip. now apply IH.
    + intros Hin. apply List.filter_In in Hin as [_ Hin].
      now rewrite Z.eqb_refl in Hin.
  - intros id Hid. destruct db as [meta records last]. unfold Database.DeleteBackupRecord.
    cbn [Database.volume_metadata Database.backup_records Database.last_id] in *.
    f_equal. apply filter_all. intros x Hx.
    apply Bool.negb_true_iff, Z.eqb_neq. intros Heq. apply Hid.
    rewrite <- Heq. now apply in_map.
  - cbv zeta. cbn [Database.AddBackupRecord Database.DeleteBackupRecord
      Database.backup_records Database.last_id].
    assert (Hback : List.filter (fun r => negb (Database.ID r =? Database.last_id db + 1))
              (Database.backup_records db ++
               [{| Database.ID := Database.last_id db + 1;
                   Database.VolumeName := Database.VolumeName record;
                   Database.ServiceName := Database.ServiceName record;
                   Database.ProjectName := Database.ProjectName record;
                   Database.FilePath := Database.FilePath record;
                   Database.Size := Database.Size record;
                   Database.CreatedAt := Time.to_seconds now;
                   Database.Tag := Database.Tag record;
                   Database.Checksum := Database.Checksum record |}])
            = Database.backup_records db).
    { rewrite List.filter_app. cbn [List.filter Database.ID].
      rewrite Z.eqb_refl. cbn [negb]. rewrite app_nil_r.
      apply filter_all. intros x Hx. apply Hmax in Hx.
      apply Bool.negb_true_iff, Z.eqb_neq. lia. }
    rewrite Hback. split; [reflexivity|]. split; [reflexivity|].
    eexists. split; [reflexivity|]. cbn. lia.
Qed.

Lemma DeleteBackupRecord_removes_one_record_and_ids_are_not_reused_witness :
  Database.backup_records
    (Database.DeleteBackupRecord
       (Database.AddBackupRecord Scenarios.empty_db Scenarios.day
          {| Database.ID := 0; Database.VolumeName := "p_data";
             Database.ServiceName := "db"; Database.ProjectName := "p";
             Database.FilePath := "/b/one"; Database.Size := 0;
             Database.CreatedAt := 0; Database.Tag := ""; Database.Checksum := "" |}) 1)
  = []
  /\ exists row,
       Database.backup_records
         (Database.AddBackupRecord
            (Database.DeleteBackupRecord
               (Database.AddBackupRecord Scenarios.empty_db Scenarios.day
                  {| Database.ID := 0; Database.VolumeName := "p_data";
                     Database.ServiceName := "db"; Database.ProjectName := "p";
                     Database.FilePath := "/b/one"; Database.Size := 0;
                     Database.CreatedAt := 0; Database.Tag := "";
                     Database.Checksum := "" |}) 1)
            Scenarios.day
            {| Database.ID := 0; Database.VolumeName := "p_data";
               Database.ServiceName := "db"; Database.ProjectName := "p";
               Database.FilePath := "/b/two"; Database.Size := 0;
               Database.CreatedAt := 0; Database.Tag := ""; Database.Checksum := "" |})
       = [row]
       /\ Database.ID row = 2.
Proof.
  destruct (DeleteBackupRecord_removes_one_record_and_ids_are_not_reused
    Scenarios.empty_db Scenarios.day Scenarios.day
    {| Database.ID := 0; Database.VolumeName := "p_data";
       Database.ServiceName := "db"; Database.ProjectName := "p";
       Database.FilePath := "/b/one"; Database.Size := 0;
       Database.CreatedAt := 0; Database.Tag := ""; Database.Checksum := "" |}
    {| Database.ID := 0; Database.VolumeName := "p_data";
       Database.ServiceName := "db"; Database.ProjectName := "p";
       Database.FilePath := "/b/two"; Database.Size := 0;
       Database.CreatedAt := 0; Database.Tag := ""; Database.Checksum := "" |}
    (conj (NoDup_nil_2 : NoDup (map Database.ID [])) (fun r (H : In r []) => match H with end)))
    as (_ & _ & Hback & _ & row & Hrow & Hid).
  split; [exact Hback|]. exists row. split; [exact Hrow|exact Hid].
Defined.

(** X8. Retention is idempotent: on tables with distinct ids and with a
    keep count that is not negative, a second CleanupOldBackups for the
    same volume right after the first deletes nothing and leaves the
    tables as the first left them; and it deletes nothing in the first
    place when the volume has no more than [keep] records. *)
Theorem CleanupOldBackups_is_idempotent
    (sorter : list Database.BackupRecord -> list Database.BackupRecord)
    (db db' : Database.DB) (volumeName : string) (keep : Z)
    (deleted : list Database.BackupRecord) :
  Assumed.orders_newest_first sorter ->
  Assumed.ids_in_order db ->
  0 <= keep ->
  Database.CleanupOldBackups sorter db volumeName keep = Some (deleted, db') ->
  Database.CleanupOldBackups sorter db' volumeName keep = Some ([], db')
  /\ ((length (Stated.ledger_of volumeName db) <= Z.to_nat keep)%nat ->
      deleted = [] /\ db' = db).
Proof.
  intros Hsorter Hids Hkeep Hclean.
  destruct (CleanupOldBackups_spec sorter Hsorter db volumeName keep Hids Hkeep)
    as (db1 & Hclean1 & _ & Hmine & _).
  rewrite Hclean in Hclean1. injection Hclean1 as -> <-.
  assert (Hlen : forall d,
    length (Database.GetBackupRecords sorter d volumeName 0)
    = length (Stated.ledger_of volumeName d)).
  { intros d. exact (Permutation_length (proj1 (Hsorter (Stated.ledger_of volumeName d)))). }
  split.
  - unfold Database.CleanupOldBackups. rewrite Hlen, (Permutation_length Hmine).
    replace (keep <? _) with false; [reflexivity|].
    symmetry. apply Z.ltb_ge. rewrite length_firstn. lia.
  - intros Hfew. revert Hclean.
    unfold Database.CleanupOldBackups. rewrite Hlen.
    replace (keep <? _) with false; [now intros [= <- <-]|].
    symmetry. apply Z.ltb_ge. lia.
Qed.

(** The theorem on the ledger of three generations with one to keep: the
    first call deletes the two older records, the second call deletes
    nothing and leaves the one record in place. *)
Lemma CleanupOldBackups_is_idempotent_witness :
  exists deleted db',
    Database.CleanupOldBackups Database.sort_desc Scenarios.three_generations "p_data" 1
    = Some (deleted, db')
    /\ map Database.FilePath deleted = ["/b/second"; "/b/first"]
    /\ map Database.FilePath (Database.backup_records db') = ["/b/third"]
    /\ Database.CleanupOldBackups Database.sort_desc db' "p_data" 1 = Some ([], db').
Proof.
  destruct (Database.CleanupOldBackups Database.sort_desc Scenarios.three_generations
              "p_data" 1) as [[deleted db']|] eqn:Hfirst; [|discriminate Hfirst].
  exists deleted, db'. split; [reflexivity|].
  assert (Hids : Assumed.ids_in_order Scenarios.three_generations).
  { split.
    - cbn. repeat (apply NoDup_cons_2; [rewrite ?elem_of_cons, elem_of_nil; lia|]).
      apply NoDup_nil_2.
    - intros r Hr. cbn in Hr. destruct Hr as [<-|[<-|[<-|[]]]]; cbn; lia. }
  pose proof (CleanupOldBackups_is_idempotent Database.sort_desc
                Scenarios.three_generations db' "p_data" 1 deleted
                sort_desc_orders_newest_first Hids ltac:(lia) Hfirst) as [Hsecond _].
  vm_compute in Hfirst. injection Hfirst as <- <-.
  split; [reflexivity|]. split; [reflexivity|exact Hsecond].
Defined.

(** ** Restore: which file FindBackupFile picks *)

(** The loop of FindBackupFile once a file is held: the file it ends with
    can be read, is the one held or a later match, and no match that can
    be read is newer. *)
Lemma latest_loop_holding (dir : Commands.directory) (matches : list string) :
  (forall m, In m matches -> m <> "") ->
  forall (latest : string) (latestTime : Time.Time) (held : Engine.FileInfo),
    latest <> "" ->
    Commands.Stat dir latest = Some held ->
    Engine.ModTime held = latestTime ->
    let chosen := Commands.latest_loop dir matches latest latestTime in
    chosen <> ""
    /\ (chosen = latest \/ In chosen matches)
    /\ exists info,
         Commands.Stat dir chosen = Some info
         /\ latestTime <= Engine.ModTime info
         /\ forall g info', In g matches -> Commands.Stat dir g = Some info' ->
              Engine.ModTime info' <= Engine.ModTime info.
Proof.
  induction matches as [|m rest IH]; intros Hnames latest latestTime held Hne Hstat Htime;
    cbn [Commands.latest_loop].
  - split; [exact Hne|]. split; [now left|]. exists held.
    split; [exact Hstat|]. split; [lia|]. intros g info' [].
  - assert (Hrest : forall x, In x rest -> x <> "") by (intros x Hx; apply Hnames; now right).
    specialize (IH Hrest).
    destruct (Commands.Stat dir m) as [info|] eqn:Hm.
    + apply String.eqb_neq in Hne. rewrite Hne. cbn [orb]. unfold Time.After.
      apply String.eqb_neq in Hne.
      destruct (latestTime <? Engine.ModTime info) eqn:Hnewer.
      * apply Z.ltb_lt in Hnewer.
        destruct (IH m (Engine.ModTime info) info (Hnames m (or_introl eq_refl)) Hm eq_refl)
          as (Hc & Hin & info1 & Hs1 & Hle1 & Hmax1).
        split; [exact Hc|]. split; [destruct Hin as [->|Hin]; right; [now left|now right]|].
        exists info1. split; [exact Hs1|]. split; [lia|].
        intros g info' [<-|Hg] Hsg; [|now apply (Hmax1 g)].
        rewrite Hm in Hsg. injection Hsg as <-. exact Hle1.
      * apply Z.ltb_ge in Hnewer.
        destruct (IH latest latestTime held Hne Hstat Htime)
          as (Hc & Hin & info1 & Hs1 & Hle1 & Hmax1).
        split; [exact Hc|]. split; [destruct Hin as [->|Hin]; [now left|right; now right]|].
        exists info1. split; [exact Hs1|]. split; [exact Hle1|].
        intros g info' [<-|Hg] Hsg; [|now apply (Hmax1 g)].
        rewrite Hm in Hsg. injection Hsg as <-. lia.
    + destruct (IH latest latestTime held Hne Hstat Htime)
        as (Hc & Hin & info1 & Hs1 & Hle1 & Hmax1).
      split; [exact Hc|]. split; [destruct Hin as [->|Hin]; [now left|right; now right]|].
      exists info1. split; [exact Hs1|]. split; [exact Hle1|].
      intros g info' [<-|Hg] Hsg; [congruence|now apply (Hmax1 g)].
Qed.

(** The loop from its start, with nothing held. *)
Lemma latest_loop_from_start (dir : Commands.directory) (matches : list string) :
  (forall m, In m matches -> m <> "") ->
  let chosen := Commands.latest_loop dir matches "" 0 in
  (chosen = "" /\ forall g, In g matches -> Commands.Stat dir g = None)
  \/ (chosen <> "" /\ In chosen matches
      /\ exists info,
           Commands.Stat dir chosen = Some info
           /\ forall g info', In g matches -> Commands.Stat dir g = Some info' ->
                Engine.ModTime info' <= Engine.ModTime info).
Proof.
  induction matches as [|m rest IH]; intros Hnames; cbn [Commands.latest_loop].
  - left. split; [reflexivity|]. intros g [].
  - assert (Hrest : forall x, In x rest -> x <> "") by (intros x Hx; apply Hnames; now right).
    destruct (Commands.Stat dir m) as [info|] eqn:Hm.
    + cbn [String.eqb orb]. right.
      destruct (latest_loop_holding dir rest Hrest m (Engine.ModTime info) info
                  (Hnames m (or_introl eq_refl)) Hm eq_refl)
        as (Hc & Hin & info1 & Hs1 & Hle1 & Hmax1).
      split; [exact Hc|]. split; [destruct Hin as [->|Hin]; [now left|now right]|].
      exists info1. split; [exact Hs1|].
      intros g info' [<-|Hg] Hsg; [|now apply (Hmax1 g)].
      rewrite Hm in Hsg. injection Hsg as <-. exact Hle1.
    + destruct (IH Hrest) as [[Hc Hall]|(Hc & Hin & info1 & Hs1 & Hmax1)].
      * left. split; [exact Hc|]. intros g [<-|Hg]; [exact Hm|now apply Hall].
      * right. split; [exact Hc|]. split; [now right|].
        exists info1. split; [exact Hs1|].
        intros g info' [<-|Hg] Hsg; [congruence|now apply (Hmax1 g)].
Qed.

Lemma Glob_names (dir : Commands.directory) (pattern g : string) :
  In g (Commands.Glob dir pattern) -> In g (map fst dir).
Proof.
  unfold Commands.Glob. intros H. apply in_map_iff in H as ([name info] & <- & Hin).
  apply List.filter_In in Hin as [Hin _]. now apply (in_map fst) in Hin.
Qed.

(** X9. FindBackupFile on a directory whose files have names, for a
    backup directory and a service name without pattern syntax ([*], [?],
    [[], backslash), so that the two patterns it builds are well formed
    and filepath.Glob cannot fail.  The files it looks at are the
    matches of [serviceName_*.tar.gz] in the backup directory or, only
    when there is none, the matches of [serviceName_*.tar.zst].  It
    returns one of them that os.Stat can read, and none of them that
    os.Stat can read has a later modification time; it reports
    ErrBackupNotFound exactly when os.Stat can read none of them (in
    particular when there is none). *)
Theorem FindBackupFile_returns_the_newest_of_its_group
    (dir : Commands.directory) (backupDir serviceName : string) :
  Assumed.literal_in_patterns backupDir ->
  Assumed.literal_in_patterns serviceName ->
  (forall f, In f (map fst dir) -> f <> "") ->
  let gz := Commands.Glob dir (Filepath.Join backupDir (serviceName +:+ "_*.tar.gz")) in
  let zst := Commands.Glob dir (Filepath.Join backupDir (serviceName +:+ "_*.tar.zst")) in
  let group := match gz with [] => zst | _ => gz end in
  match Commands.FindBackupFile dir backupDir serviceName with
  | Errors.Ok file =>
      In file group
      /\ exists info,
           Commands.Stat dir file = Some info
           /\ forall g info', In g group -> Commands.Stat dir g = Some info' ->
                Engine.ModTime info' <= Engine.ModTime info
  | Errors.Err err =>
      err = Commands.ErrBackupNotFound
      /\ forall g, In g group -> Commands.Stat dir g = None
  end.
Proof.
  intros _ _ Hnames gz zst group. unfold Commands.FindBackupFile.
  fold gz. fold zst. fold group.
  assert (Hgroup : forall m, In m group -> m <> "").
  { intros m Hm. apply Hnames. unfold group in Hm.
    destruct gz eqn:Hgz; [exact (Glob_names _ _ _ Hm)|].
    rewrite <- Hgz in Hm. exact (Glob_names _ _ _ Hm). }
  destruct (latest_loop_from_start dir group Hgroup)
    as [[Hc Hall]|(Hc & Hin & info & Hs & Hmax)].
  - destruct group as [|g0 rest] eqn:Hg; [split; [reflexivity|intros g []]|].
    rewrite Hc. cbn. split; [reflexivity|exact Hall].
  - destruct group as [|g0 rest] eqn:Hg; [destruct Hin|].
    apply String.eqb_neq in Hc. rewrite Hc. split; [exact Hin|].
    exists info. split; [exact Hs|exact Hmax].
Qed.

(** The theorem on a directory with two .tar.gz archives of db. *)
Lemma FindBackupFile_returns_the_newest_of_its_group_witness :
  Assumed.literal_in_patterns "/b/p" /\ Assumed.literal_in_patterns "db"
  /\ (forall f, In f (map fst Scenarios.two_archives) -> f <> "")
  /\ match Commands.FindBackupFile Scenarios.two_archives "/b/p" "db" with
     | Errors.Ok file =>
         In file (Commands.Glob Scenarios.two_archives "/b/p/db_*.tar.gz")
         /\ exists info,
              Commands.Stat Scenarios.two_archives file = Some info
              /\ forall g info',
                   In g (Commands.Glob Scenarios.two_archives "/b/p/db_*.tar.gz") ->
                   Commands.Stat Scenarios.two_archives g = Some info' ->
                   Engine.ModTime info' <= Engine.ModTime info
     | Errors.Err err =>
         err = Commands.ErrBackupNotFound
         /\ forall g,
              In g (Commands.Glob Scenarios.two_archives "/b/p/db_*.tar.gz") ->
              Commands.Stat Scenarios.two_archives g = None
     end.
Proof.
  assert (Hnames : forall f, In f (map fst Scenarios.two_archives) -> f <> "")
    by (intros f [<-|[<-|[]]]; discriminate).
  assert (Hdir : Assumed.literal_in_patterns "/b/p") by (repeat split).
  assert (Hservice : Assumed.literal_in_patterns "db") by (repeat split).
  split; [exact Hdir|]. split; [exact Hservice|]. split; [exact Hnames|].
  exact (FindBackupFile_returns_the_newest_of_its_group
           Scenarios.two_archives "/b/p" "db" Hdir Hservice Hnames).
Defined.

(** There the archive modified last is returned, although it is listed
    first. *)
Example FindBackupFile_newest_listed_first :
  Commands.FindBackupFile Scenarios.two_archives "/b/p" "db"
  = Errors.Ok "/b/p/db_2024-01-01_000000.tar.gz".
Proof. vm_compute. reflexivity. Qed.

(** ** What a command never does *)

Lemma never_bind {A B : Type} (kind : forall X : Type, Engine.Op X -> bool)
    (m : Engine.prog A) (f : A -> Engine.prog B) :
  Observed.never kind m -> (forall a, Observed.never kind (f a)) ->
  Observed.never kind (Engine.bind m f).
Proof.
  intros Hm Hf. induction m as [a| |X op k IH]; cbn [Engine.bind Observed.never] in *.
  - apply Hf.
  - exact I.
  - destruct Hm as [Hop Hk]. split; [exact Hop|]. intros x. apply IH, Hk.
Qed.

Lemma never_call {X : Type} (kind : forall X : Type, Engine.Op X -> bool)
    (op : Engine.Op X) :
  kind _ op = false -> Observed.never kind (Engine.call op).
Proof. intros H. cbn. split; [exact H|]. intros x. exact I. Qed.

(** A command that never makes a call of a kind shows none in any run. *)
Lemma never_in_any_run {W A : Type} (kind : forall X : Type, Engine.Op X -> bool)
    (h : Engine.handler W) (m : Engine.prog A) :
  Observed.never kind m ->
  forall w, Observed.calls kind (snd (Engine.run h m w)) = [].
Proof.
  induction m as [a| |X op k IH]; intros Hm w; cbn [Engine.run]; try reflexivity.
  destruct Hm as [Hop Hk].
  destruct (h X op w) as [x w1]. specialize (IH x (Hk x) w1).
  destruct (Engine.run h (k x) w1) as [[o w2] tr]. cbn [snd] in *.
  unfold Observed.calls in *. cbn [List.filter]. now rewrite Hop.
Qed.

Lemma calls_app (kind : forall X : Type, Engine.Op X -> bool) (tr1 tr2 : list Engine.event) :
  Observed.calls kind (tr1 ++ tr2) = (Observed.calls kind tr1 ++ Observed.calls kind tr2)%list.
Proof. unfold Observed.calls. apply List.filter_app. Qed.

Lemma run_bind_trace {W A B : Type} (h : Engine.handler W) (m : Engine.prog A)
    (f : A -> Engine.prog B) (w : W) :
  exists tr1 tr2,
    snd (Engine.run h (Engine.bind m f) w) = (tr1 ++ tr2)%list
    /\ tr1 = snd (Engine.run h m w)
    /\ (tr2 = []
        \/ exists a w1, fst (Engine.run h m w) = (Engine.Returned a, w1)
                        /\ tr2 = snd (Engine.run h (f a) w1)).
Proof.
  rewrite run_bind.
  destruct (Engine.run h m w) as [[[a|] w1] tr1]; cbn [snd fst].
  - destruct (Engine.run h (f a) w1) as [[o2 w2] tr2] eqn:H2. cbn [snd].
    exists tr1, tr2. split; [reflexivity|]. split; [reflexivity|].
    right. exists a, w1. split; [reflexivity|]. now rewrite H2.
  - exists tr1, []. split; [now rewrite app_nil_r|]. split; [reflexivity|now left].
Qed.

(** One step of a proof that a command never makes a call of a kind. *)
Ltac never_step :=
  lazymatch goal with
  | |- Observed.never _ (Engine.Ret _) => exact I
  | |- Observed.never _ Engine.Panic => exact I
  | |- Observed.never _ (Engine.Vis _ _) => split; [reflexivity|intros ?]
  | |- Observed.never _ (Engine.call _) => apply never_call; reflexivity
  | |- Observed.never _ (Engine.bind _ _) => apply never_bind; [|intros ?]
  | |- Observed.never _ (match ?x with _ => _ end) => destruct x
  end.

Ltac never_steps := repeat (cbn [Engine.bind Engine.call]; never_step).

Section NeverInBackup.

Variable time_Format : string -> Time.Time -> string.

Lemma remove_files_loop_never (kind : forall X : Type, Engine.Op X -> bool)
    (deleted : list Database.BackupRecord) :
  (forall file, kind _ (Engine.Remove file) = false) ->
  Observed.never kind (Commands.remove_files_loop deleted).
Proof.
  intros Hkind. induction deleted as [|record rest IH]; cbn; [exact I|].
  split; [apply Hkind|]. intros _. exact IH.
Qed.

Lemma ResolveVolumeName_never (kind : forall X : Type, Engine.Op X -> bool)
    (c : Commands.Context) (serviceOrVolume : string) :
  (forall name, kind _ (Engine.VolumeExists name) = false) ->
  Observed.never kind (Commands.ResolveVolumeName c serviceOrVolume).
Proof.
  intros Hkind. unfold Commands.ResolveVolumeName.
  destruct (match Commands.Compose c with Some _ => _ | None => _ end); [exact I|].
  cbn. split; [apply Hkind|]. intros [|]; [exact I|].
  destruct (negb _); [|exact I].
  cbn. split; [apply Hkind|]. intros [|]; exact I.
Qed.

Lemma backupVolume_never_alters (c : Commands.Context) (volumeName outputDir : string)
    (opts : Commands.BackupOptions) :
  Observed.never Observed.alters_a_volume
    (Commands.backupVolume time_Format c volumeName outputDir opts)
  /\ Observed.never Observed.restarts_containers
       (Commands.backupVolume time_Format c volumeName outputDir opts)
  /\ Observed.never Observed.asks_the_user
       (Commands.backupVolume time_Format c volumeName outputDir opts).
Proof.
  unfold Commands.backupVolume, Commands.GenerateBackupFilename.
  split; [|split]; never_steps; apply remove_files_loop_never; reflexivity.
Qed.

Lemma backup_loop_never (kind : forall X : Type, Engine.Op X -> bool)
    (c : Commands.Context) (outputDir : string) (opts : Commands.BackupOptions)
    (volumes : list string) :
  (forall v, Observed.never kind (Commands.backupVolume time_Format c v outputDir opts)) ->
  Observed.never kind (Commands.backup_loop time_Format c volumes outputDir opts).
Proof.
  intros Hone. induction volumes as [|v rest IH]; cbn [Commands.backup_loop]; [exact I|].
  apply never_bind; [apply Hone|]. intros _. exact IH.
Qed.

Lemma resolve_loop_never (kind : forall X : Type, Engine.Op X -> bool)
    (c : Commands.Context) (services : list string) :
  (forall name, kind _ (Engine.VolumeExists name) = false) ->
  forall volumes, Observed.never kind (Commands.resolve_loop c services volumes).
Proof.
  intros Hkind. induction services as [|s rest IH]; intros volumes;
    cbn [Commands.resolve_loop]; [exact I|].
  apply never_bind; [now apply ResolveVolumeName_never|].
  intros [v|err]; apply IH.
Qed.

Lemma Backup_never (kind : forall X : Type, Engine.Op X -> bool)
    (c : Commands.Context) (opts : Commands.BackupOptions) :
  (forall name, kind _ (Engine.VolumeExists name) = false) ->
  (forall dir, kind _ (Engine.EnsureDirectory dir) = false) ->
  (forall v dir, Observed.never kind (Commands.backupVolume time_Format c v dir opts)) ->
  Observed.never kind (Commands.Backup time_Format c opts).
Proof.
  intros Hexists Hdir Hone.
  assert (Hvolumes : forall volumes,
    Observed.never kind (Commands.backup_volumes time_Format c volumes opts)).
  { intros [|v rest]; [exact I|]. unfold Commands.backup_volumes.
    apply never_bind; [apply never_call, Hdir|].
    intros [err|]; [exact I|].
    apply never_bind; [now apply backup_loop_never|]. intros _. exact I. }
  unfold Commands.Backup. destruct (Commands.BackupServices opts) as [|s rest].
  - destruct (Commands.Compose c) as [cf|]; [|exact I].
    destruct (Compose.GetAllFullVolumeNames cf (Commands.ProjectName c)); [exact I|].
    apply Hvolumes.
  - apply never_bind; [now apply resolve_loop_never|]. intros volumes. apply Hvolumes.
Qed.

End NeverInBackup.

(** X10. Backup, with any options and in any world, only reads from the
    volumes: it makes no call that creates, removes, overwrites or copies
    a volume, it never asks the user anything, and it never restarts
    containers, so the containers it stops under [Stop] stay stopped
    when it returns. *)
Theorem Backup_never_alters_a_volume_nor_restarts_containers
    (time_Format : string -> Time.Time -> string) {W : Type} (h : Engine.handler W)
    (c : Commands.Context) (opts : Commands.BackupOptions) (w : W) :
  let tr := snd (Engine.run h (Commands.Backup time_Format c opts) w) in
  Observed.calls Observed.alters_a_volume tr = []
  /\ Observed.calls Observed.restarts_containers tr = []
  /\ Observed.calls Observed.asks_the_user tr = [].
Proof.
  cbv zeta.
  split; [|split]; apply never_in_any_run; apply Backup_never; try reflexivity;
    intros v dir; apply (backupVolume_never_alters time_Format c v dir opts).
Qed.

(** What an observer reads off a run that holds no call of its kind. *)
Lemma observed_none {B : Type} (f : Engine.event -> option B)
    (kind : forall X : Type, Engine.Op X -> bool) (tr : list Engine.event) :
  (forall X (op : Engine.Op X) (a : X), kind X op = false -> f (Engine.Event op a) = None) ->
  Observed.calls kind tr = [] -> omap f tr = [].
Proof.
  intros Hf. induction tr as [|[X op a] tr IH]; [reflexivity|].
  unfold Observed.calls. cbn [List.filter omap list_omap].
  destruct (kind X op) eqn:Hk; [discriminate|].
  intros Hrest. rewrite (Hf X op a Hk). now apply IH.
Qed.

Lemma existence_checks_none (tr : list Engine.event) :
  Observed.calls Observed.checks_existence tr = [] -> Observed.existence_checks tr = [].
Proof. apply observed_none. intros X op a. now destruct op. Qed.

Lemma removals_none (tr : list Engine.event) :
  Observed.calls Observed.removes_a_volume tr = [] -> Observed.removals tr = [].
Proof. apply observed_none. intros X op a. now destruct op. Qed.

Lemma data_mover_runs_none (tr : list Engine.event) :
  Observed.calls Observed.runs_the_data_mover tr = [] -> Observed.data_mover_runs tr = [].
Proof. apply observed_none. intros X op a. now destruct op. Qed.

Lemma artifacts_none (tr : list Engine.event) :
  Observed.calls Observed.runs_the_data_mover tr = [] -> Observed.artifacts tr = [].
Proof. apply observed_none. intros X op a. now destruct op. Qed.

Lemma confirmations_none (tr : list Engine.event) :
  Observed.calls Observed.asks_the_user tr = [] -> Observed.confirmations tr = [].
Proof. apply observed_none. intros X op a. now destruct op. Qed.

Section BackupAttempts.

Variable time_Format : string -> Time.Time -> string.
Context {W : Type}.
Variable h : Engine.handler W.

(** backupVolume asks once whether a volume exists: for the volume it is
    given, first of all. *)
Lemma backupVolume_asks_for_its_volume (c : Commands.Context)
    (volumeName outputDir : string) (opts : Commands.BackupOptions) (w : W) :
  Observed.existence_checks
    (snd (Engine.run h (Commands.backupVolume time_Format c volumeName outputDir opts) w))
  = [volumeName].
Proof.
  assert (Hshape : exists k,
    Commands.backupVolume time_Format c volumeName outputDir opts
    = Engine.Vis (Engine.VolumeExists volumeName) k
    /\ forall x, Observed.never Observed.checks_existence (k x)).
  { eexists. split; [reflexivity|]. intros x.
    unfold Commands.GenerateBackupFilename.
    never_steps; apply remove_files_loop_never; reflexivity. }
  destruct Hshape as (k & -> & Hk). cbn [Engine.run].
  destruct (h _ (Engine.VolumeExists volumeName) w) as [x w1].
  pose proof (never_in_any_run _ h (k x) (Hk x) w1) as Hnone.
  destruct (Engine.run h (k x) w1) as [[o w2] tr]. cbn [snd] in *.
  unfold Observed.existence_checks. cbn [omap list_omap Observed.existence_check].
  fold (Observed.existence_checks tr). now rewrite existence_checks_none.
Qed.

Lemma backup_loop_attempts (c : Commands.Context) (outputDir : string)
    (opts : Commands.BackupOptions) (volumes : list string) :
  forall w,
    let '(ended, _, tr) :=
      Engine.run h (Commands.backup_loop time_Format c volumes outputDir opts) w in
    match ended with
    | Engine.Returned _ => Observed.existence_checks tr = volumes
    | Engine.Panicked => True
    end.
Proof.
  induction volumes as [|v rest IH]; intros w; cbn [Commands.backup_loop]; [now cbn|].
  rewrite run_bind.
  pose proof (backupVolume_asks_for_its_volume c v outputDir opts w) as Hone.
  destruct (Engine.run h (Commands.backupVolume time_Format c v outputDir opts) w)
    as [[[err|] w1] tr1]; [|exact I].
  cbn [snd] in Hone. specialize (IH w1).
  destruct (Engine.run h (Commands.backup_loop time_Format c rest outputDir opts) w1)
    as [[[u|] w2] tr2]; [|exact I].
  unfold Observed.existence_checks in *. now rewrite omap_app, Hone, IH.
Qed.

End BackupAttempts.

(** X11. A backup of all project volumes does not stop at a volume that
    fails.  In any world, when Backup returns it has asked for every
    project volume in turn (each backupVolume starts by asking whether
    its volume exists) and it returns nil, whatever happened to the
    single volumes; the one error it returns is that the output
    directory could not be created, and then no volume was tried.  It
    ends otherwise only if the store call panics. *)
Theorem Backup_all_attempts_every_volume_and_returns_nil
    (time_Format : string -> Time.Time -> string) {W : Type} (h : Engine.handler W)
    (c : Commands.Context) (opts : Commands.BackupOptions)
    (cf : Compose.ComposeFile) (w : W) :
  Commands.BackupServices opts = [] ->
  Commands.Compose c = Some cf ->
  let '(ended, _, tr) := Engine.run h (Commands.Backup time_Format c opts) w in
  match ended with
  | Engine.Returned None =>
      Observed.existence_checks tr
      = Compose.GetAllFullVolumeNames cf (Commands.ProjectName c)
  | Engine.Returned (Some err) =>
      Observed.existence_checks tr = []
      /\ exists cause,
           tr = [Engine.Event (Engine.EnsureDirectory
                   (if String.eqb (Commands.Output opts) ""
                    then Filepath.Join (Config.Backups (Config.paths (Commands.config c)))
                           (Commands.ProjectName c)
                    else Commands.Output opts)) (Some cause)]
           /\ err = Errors.Errorf_w "failed to create output directory: " cause
  | Engine.Panicked => True
  end.
Proof.
  intros Hall Hcf. unfold Commands.Backup. rewrite Hall, Hcf.
  destruct (Compose.GetAllFullVolumeNames cf (Commands.ProjectName c)) as [|v rest] eqn:Hv;
    [now cbn|].
  unfold Commands.backup_volumes. cbn [Engine.run Engine.bind Engine.call].
  destruct (h _ (Engine.EnsureDirectory _) w) as [[cause|] w1].
  - cbn. split; [reflexivity|]. now exists cause.
  - rewrite run_bind.
    pose proof (backup_loop_attempts time_Format h c
      (if String.eqb (Commands.Output opts) ""
       then Filepath.Join (Config.Backups (Config.paths (Commands.config c)))
              (Commands.ProjectName c)
       else Commands.Output opts) opts (v :: rest) w1) as Hloop.
    destruct (Engine.run h (Commands.backup_loop time_Format c (v :: rest) _ opts) w1)
      as [[[u|] w2] tr2]; [|exact I].
    cbn [Engine.run]. rewrite app_nil_r.
    unfold Observed.existence_checks in *. cbn [omap list_omap Observed.existence_check].
    exact Hloop.
Qed.

(** The theorem on the project with the shared volume, in the quiet
    world. *)
Lemma Backup_all_attempts_every_volume_and_returns_nil_witness :
  let '(ended, _, tr) :=
    Engine.run World.quiet
      (Commands.Backup Scenarios.no_format
         (Scenarios.context 5 (Some Scenarios.shared_volume_project) "p")
         Scenarios.plain_backup) tt in
  ended = Engine.Returned None /\ Observed.existence_checks tr = ["p_data"].
Proof.
  pose proof (Backup_all_attempts_every_volume_and_returns_nil Scenarios.no_format
    World.quiet (Scenarios.context 5 (Some Scenarios.shared_volume_project) "p")
    Scenarios.plain_backup Scenarios.shared_volume_project tt eq_refl eq_refl) as H.
  destruct (Engine.run World.quiet _ tt) as [[[[err|]|] w1] tr] eqn:Hrun;
    vm_compute in Hrun; try discriminate Hrun.
  split; [reflexivity|]. rewrite H. reflexivity.
Defined.

(** ** Swap, Clone and Clean: what happens before a volume is touched *)

Lemma always_returns_bind {A B : Type} (m : Engine.prog A) (f : A -> Engine.prog B) :
  Observed.always_returns m -> (forall a, Observed.always_returns (f a)) ->
  Observed.always_returns (Engine.bind m f).
Proof.
  intros Hm Hf. induction m as [a| |X op k IH]; cbn [Engine.bind Observed.always_returns] in *.
  - apply Hf.
  - exact Hm.
  - intros x. apply IH, Hm.
Qed.

Lemma always_returns_in_any_run {W A : Type} (h : Engine.handler W) (m : Engine.prog A) :
  Observed.always_returns m ->
  forall w, exists a, fst (fst (Engine.run h m w)) = Engine.Returned a.
Proof.
  induction m as [a| |X op k IH]; intros Hm w; cbn [Engine.run].
  - now exists a.
  - destruct Hm.
  - destruct (h X op w) as [x w1]. destruct (IH x (Hm x) w1) as [a Ha].
    destruct (Engine.run h (k x) w1) as [[o w2] tr]. now exists a.
Qed.

Ltac returns_step :=
  lazymatch goal with
  | |- Observed.always_returns (Engine.Ret _) => exact I
  | |- Observed.always_returns (Engine.Vis _ _) => intros ?
  | |- Observed.always_returns (Engine.call _) => intros ?; exact I
  | |- Observed.always_returns (Engine.bind _ _) => apply always_returns_bind; [|intros ?]
  | |- Observed.always_returns (match ?x with _ => _ end) => destruct x
  end.

Ltac returns_steps := repeat (cbn [Engine.bind Engine.call]; returns_step).

Lemma ResolveVolumeName_returns (c : Commands.Context) (serviceOrVolume : string) :
  Observed.always_returns (Commands.ResolveVolumeName c serviceOrVolume).
Proof.
  unfold Commands.ResolveVolumeName.
  destruct (match Commands.Compose c with Some _ => _ | None => _ end); [exact I|].
  returns_steps.
Qed.

(** A run taken apart call by call: each answer of the world and each
    test of the command is a case. *)
Ltac run_split h :=
  repeat (cbn [Engine.run Engine.bind Engine.call negb andb orb];
    first
    [ match goal with
      | |- context [h ?X ?op ?w] =>
          let a := fresh "a" in let w' := fresh "w" in
          destruct (h X op w) as [a w'];
          try match type of a with
              | bool => destruct a
              | option _ => destruct a
              | Errors.result _ => destruct a
              end
      end
    | match goal with
      | |- context [Engine.run _ (match ?x with _ => _ end) _] => destruct x
      | |- context [Engine.run _ (Engine.bind (match ?x with _ => _ end) _) _] =>
          destruct x
      end ]);
  cbn [Engine.run Engine.bind Engine.call negb andb orb].

Ltac observe :=
  unfold Observed.artifacts, Observed.calls, Observed.removals, Observed.confirmations,
    Observed.copies, Observed.restores, Observed.data_mover_runs,
    Observed.existence_checks, Observed.creations;
  cbn [omap list_omap List.filter Observed.artifact Observed.removal
       Observed.creation
       Observed.confirmation Observed.copy Observed.restore Observed.data_mover_run
       Observed.existence_check Observed.changes_a_volume Observed.alters_a_volume
       Observed.removes_a_volume Observed.runs_the_data_mover Observed.asks_the_user
       Observed.restarts_containers Observed.writes Observed.checks_existence
       Observed.copies_a_volume Observed.restores_a_volume fst snd].

Section SwapSafety.

Variable time_Format : string -> Time.Time -> string.
Context {W : Type}.
Variable h : Engine.handler W.

(** The archive Swap makes first: the data mover runs at most once, for
    the volume, and the step succeeds only with the archive made; no
    volume and no container is touched. *)
Lemma swap_backup_calls (c : Commands.Context) (volumeName serviceName : string) (w : W) :
  let '(ended, _, tr) :=
    Engine.run h (Commands.swap_backup time_Format c volumeName serviceName) w in
  Observed.calls Observed.changes_a_volume tr = []
  /\ match ended with
     | Engine.Returned None => exists path, Observed.artifacts tr = [(volumeName, path)]
     | Engine.Returned (Some _) => Observed.artifacts tr = []
     | Engine.Panicked => False
     end.
Proof.
  unfold Commands.swap_backup, Commands.GenerateBackupFilename.
  run_split h; observe; split; solve [reflexivity | eexists; reflexivity].
Qed.

(** Swap from the stop of the containers on: the volume is the only one
    removed or restored into, and the data mover does not run. *)
Lemma swap_volume_calls (opts : Commands.SwapOptions) (volumeName : string) (w : W) :
  let '(ended, _, tr) := Engine.run h (Commands.swap_volume opts volumeName) w in
  ended <> Engine.Panicked
  /\ (Observed.removals tr = [] \/ Observed.removals tr = [(volumeName, true)])
  /\ (Observed.restores tr = []
      \/ Observed.restores tr = [(volumeName, Commands.Source opts)])
  /\ Observed.copies tr = []
  /\ Observed.artifacts tr = [].
Proof.
  unfold Commands.swap_volume, Commands.restartOnError.
  run_split h; observe.
  all: split; [discriminate|].
  all: split; [first [now left | now right]|].
  all: split; [first [now left | now right]|].
  all: split; reflexivity.
Qed.

End SwapSafety.

(** X12. Swap with the backup of the current data not switched off, in
    any world.  Until the data mover has archived the volume nothing is
    changed: if no archive was produced, Swap made no call that stops or
    restarts containers or creates, removes, overwrites or copies a
    volume, and it returns an error.  If an archive was produced it is
    of the volume Swap works on, and that volume is the only one Swap
    removes (once at most, by force) or restores into (from [Source]). *)
Theorem Swap_changes_nothing_before_the_volume_is_archived
    (time_Format : string -> Time.Time -> string) {W : Type} (h : Engine.handler W)
    (c : Commands.Context) (opts : Commands.SwapOptions) (w : W) :
  Commands.NoBackup opts = false ->
  let '(ended, _, tr) := Engine.run h (Commands.Swap time_Format c opts) w in
  match Observed.artifacts tr with
  | [] =>
      Observed.calls Observed.changes_a_volume tr = []
      /\ exists err, ended = Engine.Returned (Some err)
  | [(volumeName, _)] =>
      (Observed.removals tr = [] \/ Observed.removals tr = [(volumeName, true)])
      /\ (Observed.restores tr = []
          \/ Observed.restores tr = [(volumeName, Commands.Source opts)])
      /\ Observed.copies tr = []
  | _ => False
  end.
Proof.
  intros Hbackup. unfold Commands.Swap. rewrite Hbackup. cbn [negb].
  destruct (String.eqb (Commands.SwapService opts) "");
    [cbn; split; [reflexivity|eexists; reflexivity]|].
  rewrite run_bind.
  pose proof (never_in_any_run Observed.changes_a_volume h _
    (ResolveVolumeName_never _ c (Commands.SwapService opts) (fun _ => eq_refl)) w) as Hquiet.
  pose proof (never_in_any_run Observed.runs_the_data_mover h _
    (ResolveVolumeName_never _ c (Commands.SwapService opts) (fun _ => eq_refl)) w) as Hnone.
  pose proof (never_in_any_run Observed.removes_a_volume h _
    (ResolveVolumeName_never _ c (Commands.SwapService opts) (fun _ => eq_refl)) w) as Hkept.
  pose proof (never_in_any_run Observed.restores_a_volume h _
    (ResolveVolumeName_never _ c (Commands.SwapService opts) (fun _ => eq_refl)) w) as Hsame.
  pose proof (never_in_any_run Observed.copies_a_volume h _
    (ResolveVolumeName_never _ c (Commands.SwapService opts) (fun _ => eq_refl)) w) as Hcopy.
  destruct (always_returns_in_any_run h _
    (ResolveVolumeName_returns c (Commands.SwapService opts)) w) as [resolved Hreturns].
  destruct (Engine.run h (Commands.ResolveVolumeName c (Commands.SwapService opts)) w)
    as [[ended1 w1] tr1].
  cbn [fst snd] in *. subst ended1.
  apply artifacts_none in Hnone. apply removals_none in Hkept.
  assert (Hrestores : Observed.restores tr1 = []).
  { revert Hsame. apply observed_none. intros X op a. now destruct op. }
  assert (Hcopies : Observed.copies tr1 = []).
  { revert Hcopy. apply observed_none. intros X op a. now destruct op. }
  destruct resolved as [volumeName|err].
  2: { cbn [Engine.run]. rewrite app_nil_r, Hnone.
       split; [exact Hquiet|eexists; reflexivity]. }
  cbn [Engine.run Engine.bind Engine.call].
  destruct (h _ (Engine.VolumeExists volumeName) w1) as [[|] w2]; cbn [negb].
  2: { cbn [Engine.run]. unfold Observed.artifacts in *. rewrite omap_app, Hnone. cbn.
       rewrite calls_app, Hquiet. split; [reflexivity|eexists; reflexivity]. }
  rewrite run_bind.
  pose proof (swap_backup_calls time_Format h c volumeName
    (if String.eqb (Commands.GetServiceName c volumeName) ""
     then Commands.SwapService opts else Commands.GetServiceName c volumeName) w2) as Hb.
  destruct (Engine.run h (Commands.swap_backup time_Format c volumeName _) w2)
    as [[[[err|]|] w3] tr3]; destruct Hb as [Hb1 Hb2]; [| |destruct Hb2].
  - cbn [Engine.run]. rewrite app_nil_r.
    unfold Observed.artifacts in *. rewrite omap_app, Hnone.
    cbn [omap list_omap Observed.artifact app]. rewrite Hb2.
    rewrite calls_app, Hquiet. unfold Observed.calls in *.
    cbn [List.filter Observed.changes_a_volume app]. rewrite Hb1.
    split; [reflexivity|eexists; reflexivity].
  - destruct Hb2 as [path Hb2].
    pose proof (swap_volume_calls h opts volumeName w3) as Hv.
    destruct (Engine.run h (Commands.swap_volume opts volumeName) w3)
      as [[ended4 w4] tr4].
    destruct Hv as (_ & Hrem & Hres & Hcop & Hart).
    assert (Hb3 : Observed.removals tr3 = [] /\ Observed.restores tr3 = []
                  /\ Observed.copies tr3 = []).
    { repeat split; revert Hb1; apply observed_none; intros X op a; now destruct op. }
    destruct Hb3 as (Hb3 & Hb4 & Hb5).
    unfold Observed.artifacts, Observed.removals, Observed.restores, Observed.copies in *.
    rewrite !omap_app. cbn [omap list_omap Observed.artifact Observed.removal
      Observed.restore Observed.copy]. rewrite !omap_app.
    rewrite Hnone, Hb2, Hart, Hkept, Hb3, Hrestores, Hb4, Hcopies, Hb5, Hcop.
    cbn [app]. split; [exact Hrem|]. split; [exact Hres|reflexivity].
Qed.

(** The theorem in the quiet world, on the volume of a declared service:
    one archive, then the volume is removed and made again. *)
Lemma Swap_changes_nothing_before_the_volume_is_archived_witness :
  let '(ended, _, tr) :=
    Engine.run World.quiet
      (Commands.Swap Scenarios.no_format
         (Scenarios.context 5 (Some Scenarios.shared_volume_project) "p")
         {| Commands.Empty := true; Commands.NoBackup := false;
            Commands.Restart := false; Commands.SwapService := "db";
            Commands.Source := "" |}) tt in
  ended = Engine.Returned None
  /\ Observed.artifacts tr
     = [("p_data", "/home/u/.dvm/backups/p/db_swap_backup_T.tar.gz")]
  /\ (Observed.removals tr = [] \/ Observed.removals tr = [("p_data", true)]).
Proof.
  pose proof (Swap_changes_nothing_before_the_volume_is_archived Scenarios.no_format
    World.quiet (Scenarios.context 5 (Some Scenarios.shared_volume_project) "p")
    {| Commands.Empty := true; Commands.NoBackup := false;
       Commands.Restart := false; Commands.SwapService := "db";
       Commands.Source := "" |} tt eq_refl) as H.
  destruct (Engine.run World.quiet _ tt) as [[ended w1] tr] eqn:Hrun.
  assert (Hended : ended = Engine.Returned None
    /\ Observed.artifacts tr
       = [("p_data", "/home/u/.dvm/backups/p/db_swap_backup_T.tar.gz")]).
  { vm_compute in Hrun. injection Hrun as <- _ <-. split; reflexivity. }
  destruct Hended as [Hended Hart]. rewrite Hart in H.
  split; [exact Hended|]. split; [exact Hart|]. exact (proj1 H).
Defined.

(** A run without a call that changes a volume shows none to the
    observers of such calls. *)
Lemma unchanged_run (tr : list Engine.event) :
  Observed.calls Observed.changes_a_volume tr = [] ->
  Observed.removals tr = [] /\ Observed.creations tr = []
  /\ Observed.restores tr = [] /\ Observed.copies tr = []
  /\ omap Observed.failed_step tr = [].
Proof.
  intros H. repeat split; revert H; apply observed_none; intros X op a; now destruct op.
Qed.

Section SwapSuccess.

Variable time_Format : string -> Time.Time -> string.
Context {W : Type}.
Variable h : Engine.handler W.

Lemma swap_volume_success (opts : Commands.SwapOptions) (volumeName : string) (w : W) :
  let '(ended, _, tr) := Engine.run h (Commands.swap_volume opts volumeName) w in
  ended = Engine.Returned None ->
  Observed.removals tr = [(volumeName, true)]
  /\ Observed.creations tr = [volumeName]
  /\ Observed.restores tr
     = (if negb (String.eqb (Commands.Source opts) "") && negb (Commands.Empty opts)
        then [(volumeName, Commands.Source opts)] else [])
  /\ Observed.copies tr = []
  /\ omap Observed.failed_step tr = []
  /\ Observed.data_mover_runs tr = [].
Proof.
  unfold Commands.swap_volume, Commands.restartOnError.
  destruct (negb (String.eqb (Commands.Source opts) "") && negb (Commands.Empty opts)).
  all: run_split h; try discriminate.
  all: intros _; observe; cbn; repeat split.
Qed.

(** The steps of the archive Swap makes first, when it succeeds: one run
    of the data mover, on the volume. *)
Lemma swap_backup_steps (c : Commands.Context) (volumeName serviceName : string) (w : W) :
  let '(ended, _, tr) :=
    Engine.run h (Commands.swap_backup time_Format c volumeName serviceName) w in
  ended = Engine.Returned None ->
  exists path,
    Observed.calls Observed.archives_or_alters tr
    = [Engine.Event (Engine.BackupVolume volumeName path true) None].
Proof.
  unfold Commands.swap_backup, Commands.GenerateBackupFilename.
  run_split h; try discriminate.
  all: intros _; eexists; unfold Observed.calls;
    cbn [List.filter Observed.archives_or_alters Observed.runs_the_data_mover
         Observed.alters_a_volume orb]; reflexivity.
Qed.

(** The steps of the replacement, when it succeeds: the volume is removed
    by force, created again, and restored into when a source is given
    and [Empty] is not set, in this order and each without error. *)
Lemma swap_volume_steps (opts : Commands.SwapOptions) (volumeName : string) (w : W) :
  let '(ended, _, tr) := Engine.run h (Commands.swap_volume opts volumeName) w in
  ended = Engine.Returned None ->
  Observed.calls Observed.archives_or_alters tr
  = Engine.Event (Engine.RemoveVolume volumeName true) None
    :: Engine.Event (Engine.CreateVolume volumeName) None
    :: (if negb (String.eqb (Commands.Source opts) "") && negb (Commands.Empty opts)
        then [Engine.Event (Engine.RestoreVolume volumeName (Commands.Source opts)) None]
        else []).
Proof.
  unfold Commands.swap_volume, Commands.restartOnError.
  destruct (negb (String.eqb (Commands.Source opts) "") && negb (Commands.Empty opts)).
  all: run_split h; try discriminate.
  all: intros _; unfold Observed.calls;
    cbn [List.filter Observed.archives_or_alters Observed.runs_the_data_mover
         Observed.alters_a_volume orb]; reflexivity.
Qed.

End SwapSuccess.

(** X13. What a successful Swap has done, and in which order, in any
    world.  When Swap returns nil it has asked whether the resolved
    volume exists and was told yes, having archived and altered nothing
    before; after that answer it has, in this order and each call
    without error, archived the volume (unless [NoBackup] is set, and
    then the data mover did not run), removed the volume by force,
    created it again, and restored the [Source] archive into it exactly
    when a source was given and [Empty] is not set.  These are all the
    calls of the run that archive, create, remove, overwrite or copy a
    volume, so the previous data were archived before the volume was
    removed. *)
Theorem Swap_on_success_has_replaced_the_volume
    (time_Format : string -> Time.Time -> string) {W : Type} (h : Engine.handler W)
    (c : Commands.Context) (opts : Commands.SwapOptions) (w : W) :
  let '(ended, _, tr) := Engine.run h (Commands.Swap time_Format c opts) w in
  ended = Engine.Returned None ->
  exists volumeName,
    In (Engine.Event (Engine.VolumeExists volumeName) true) tr
    /\ Observed.removals tr = [(volumeName, true)]
    /\ Observed.creations tr = [volumeName]
    /\ Observed.restores tr
       = (if negb (String.eqb (Commands.Source opts) "") && negb (Commands.Empty opts)
          then [(volumeName, Commands.Source opts)] else [])
    /\ Observed.copies tr = []
    /\ Observed.first_failed_step tr = None
    /\ (if Commands.NoBackup opts then Observed.data_mover_runs tr = []
        else exists path, Observed.artifacts tr = [(volumeName, path)])
    /\ exists before after archived,
         tr = (before ++ Engine.Event (Engine.VolumeExists volumeName) true :: after)%list
         /\ Observed.calls Observed.archives_or_alters before = []
         /\ Observed.calls Observed.archives_or_alters after
            = (archived
               ++ Engine.Event (Engine.RemoveVolume volumeName true) None
                  :: Engine.Event (Engine.CreateVolume volumeName) None
                  :: (if negb (String.eqb (Commands.Source opts) "")
                         && negb (Commands.Empty opts)
                      then [Engine.Event
                              (Engine.RestoreVolume volumeName (Commands.Source opts)) None]
                      else []))%list
         /\ if Commands.NoBackup opts then archived = []
            else exists path,
                   archived = [Engine.Event (Engine.BackupVolume volumeName path true) None].
Proof.
  unfold Commands.Swap.
  destruct (String.eqb (Commands.SwapService opts) ""); [cbn; discriminate|].
  rewrite run_bind.
  pose proof (never_in_any_run Observed.changes_a_volume h _
    (ResolveVolumeName_never _ c (Commands.SwapService opts) (fun _ => eq_refl)) w) as Hquiet.
  pose proof (never_in_any_run Observed.runs_the_data_mover h _
    (ResolveVolumeName_never _ c (Commands.SwapService opts) (fun _ => eq_refl)) w) as Hnone.
  pose proof (never_in_any_run Observed.archives_or_alters h _
    (ResolveVolumeName_never _ c (Commands.SwapService opts) (fun _ => eq_refl)) w) as Hsteps1.
  destruct (Engine.run h (Commands.ResolveVolumeName c (Commands.SwapService opts)) w)
    as [[[[volumeName|err]|] w1] tr1]; cbn [fst snd] in *;
    [|cbn [Engine.run]; discriminate|discriminate].
  apply unchanged_run in Hquiet as (Hrem1 & Hcre1 & Hres1 & Hcop1 & Hfail1).
  pose proof (artifacts_none _ Hnone) as Hart1. apply data_mover_runs_none in Hnone.
  cbn [Engine.run Engine.bind Engine.call].
  destruct (h _ (Engine.VolumeExists volumeName) w1) as [[|] w2]; cbn [negb];
    [|cbn [Engine.run]; discriminate].
  rewrite run_bind.
  set (serviceName := if String.eqb (Commands.GetServiceName c volumeName) ""
                      then Commands.SwapService opts
                      else Commands.GetServiceName c volumeName).
  assert (Hbackup : forall w0,
    let '(ended, _, tr) :=
      Engine.run h (if negb (Commands.NoBackup opts)
                    then Commands.swap_backup time_Format c volumeName serviceName
                    else Engine.Ret None) w0 in
    Observed.calls Observed.changes_a_volume tr = []
    /\ (ended = Engine.Returned None ->
        if Commands.NoBackup opts then Observed.data_mover_runs tr = []
        else exists path, Observed.artifacts tr = [(volumeName, path)])
    /\ (Commands.NoBackup opts = true -> Observed.artifacts tr = [])
    /\ (ended = Engine.Returned None ->
        if Commands.NoBackup opts
        then Observed.calls Observed.archives_or_alters tr = []
        else exists path,
               Observed.calls Observed.archives_or_alters tr
               = [Engine.Event (Engine.BackupVolume volumeName path true) None])).
  { intros w0. destruct (Commands.NoBackup opts); cbn [negb]; [now cbn|].
    pose proof (swap_backup_calls time_Format h c volumeName serviceName w0) as Hb.
    pose proof (swap_backup_steps time_Format h c volumeName serviceName w0) as Hs.
    destruct (Engine.run h (Commands.swap_backup time_Format c volumeName serviceName) w0)
      as [[ended3 w3] tr3].
    destruct Hb as [Hb1 Hb2]. split; [exact Hb1|]. split; [|split; [discriminate|exact Hs]].
    intros ->. exact Hb2. }
  specialize (Hbackup w2).
  destruct (Engine.run h (if negb (Commands.NoBackup opts) then _ else _) w2)
    as [[[[err|]|] w3] tr3]; [cbn [Engine.run]; discriminate| |discriminate].
  destruct Hbackup as (Hb1 & Hb2 & Hb3 & Hb4).
  specialize (Hb2 eq_refl). specialize (Hb4 eq_refl).
  apply unchanged_run in Hb1 as (Hrem3 & Hcre3 & Hres3 & Hcop3 & Hfail3).
  pose proof (swap_volume_success h opts volumeName w3) as Hv.
  pose proof (swap_volume_calls h opts volumeName w3) as Hc.
  pose proof (swap_volume_steps h opts volumeName w3) as Hsteps4.
  destruct (Engine.run h (Commands.swap_volume opts volumeName) w3) as [[ended4 w4] tr4].
  intros ->. destruct (Hv eq_refl) as (Hrem4 & Hcre4 & Hres4 & Hcop4 & Hfail4 & Hmov4).
  specialize (Hsteps4 eq_refl).
  destruct Hc as (_ & _ & _ & _ & Hart4).
  exists volumeName. split.
  { apply in_or_app. right. now left. }
  assert (Horder : exists before after archived,
    (tr1 ++ Engine.Event (Engine.VolumeExists volumeName) true :: tr3 ++ tr4)%list
    = (before ++ Engine.Event (Engine.VolumeExists volumeName) true :: after)%list
    /\ Observed.calls Observed.archives_or_alters before = []
    /\ Observed.calls Observed.archives_or_alters after
       = (archived
          ++ Engine.Event (Engine.RemoveVolume volumeName true) None
             :: Engine.Event (Engine.CreateVolume volumeName) None
             :: (if negb (String.eqb (Commands.Source opts) "")
                    && negb (Commands.Empty opts)
                 then [Engine.Event
                         (Engine.RestoreVolume volumeName (Commands.Source opts)) None]
                 else []))%list
    /\ if Commands.NoBackup opts then archived = []
       else exists path,
              archived = [Engine.Event (Engine.BackupVolume volumeName path true) None]).
  { exists tr1, (tr3 ++ tr4)%list, (Observed.calls Observed.archives_or_alters tr3).
    split; [reflexivity|]. split; [exact Hsteps1|].
    split; [now rewrite calls_app, Hsteps4|].
    destruct (Commands.NoBackup opts); exact Hb4. }
  unfold Observed.first_failed_step, Observed.removals, Observed.creations,
    Observed.restores, Observed.copies, Observed.artifacts, Observed.data_mover_runs in *.
  rewrite !omap_app.
  cbn [omap list_omap Observed.removal Observed.creation Observed.restore Observed.copy
       Observed.failed_step Observed.artifact Observed.data_mover_run].
  rewrite !omap_app.
  rewrite Hrem1, Hrem3, Hrem4, Hcre1, Hcre3, Hcre4, Hres1, Hres3, Hres4,
    Hcop1, Hcop3, Hcop4, Hfail1, Hfail3, Hfail4, Hart1, Hart4, Hnone, Hmov4.
  cbn [app head]. repeat (split; [reflexivity|]).
  split; [|exact Horder].
  destruct (Commands.NoBackup opts).
  - now rewrite Hb2.
  - destruct Hb2 as [path ->]. now exists path.
Qed.

(** The theorem in the quiet world, on the volume of a declared service,
    swapped for an empty one: the volume is archived, then removed, then
    created. *)
Lemma Swap_on_success_has_replaced_the_volume_witness :
  let '(ended, _, tr) :=
    Engine.run World.quiet
      (Commands.Swap Scenarios.no_format
         (Scenarios.context 5 (Some Scenarios.shared_volume_project) "p")
         {| Commands.Empty := true; Commands.NoBackup := false;
            Commands.Restart := false; Commands.SwapService := "db";
            Commands.Source := "/b/old.tar.gz" |}) tt in
  ended = Engine.Returned None
  /\ exists volumeName path,
       Observed.removals tr = [(volumeName, true)]
       /\ Observed.creations tr = [volumeName]
       /\ Observed.restores tr = []
       /\ Observed.calls Observed.archives_or_alters tr
          = [Engine.Event (Engine.BackupVolume volumeName path true) None;
             Engine.Event (Engine.RemoveVolume volumeName true) None;
             Engine.Event (Engine.CreateVolume volumeName) None].
Proof.
  pose proof (Swap_on_success_has_replaced_the_volume Scenarios.no_format
    World.quiet (Scenarios.context 5 (Some Scenarios.shared_volume_project) "p")
    {| Commands.Empty := true; Commands.NoBackup := false;
       Commands.Restart := false; Commands.SwapService := "db";
       Commands.Source := "/b/old.tar.gz" |} tt) as H.
  destruct (Engine.run World.quiet _ tt) as [[ended w1] tr] eqn:Hrun.
  assert (Hended : ended = Engine.Returned None).
  { vm_compute in Hrun. now injection Hrun as <- _ _. }
  split; [exact Hended|].
  destruct (H Hended)
    as (volumeName & _ & Hrem & Hcre & Hres & _ & _ & _
        & before & after & archived & -> & Hbefore & Hafter & path & ->).
  exists volumeName, path. split; [exact Hrem|]. split; [exact Hcre|].
  split; [exact Hres|].
  rewrite calls_app, Hbefore.
  change (Observed.calls Observed.archives_or_alters
            (Engine.Event (Engine.VolumeExists volumeName) true :: after))
    with (Observed.calls Observed.archives_or_alters after).
  exact Hafter.
Defined.

(** X14. Clone overwrites an existing target only with the user's
    consent, in any world.  Clone removes at most one volume: the target,
    by force, and only after the engine said the target exists and the
    user answered yes to the one question asked.  When the user answers
    no, Clone returns "clone cancelled" and has removed and copied
    nothing.  When Clone returns nil it has made exactly one copy, into
    the target.  Clone never panics once the target name is formed. *)
Theorem Clone_removes_the_target_only_on_consent
    {W : Type} (h : Engine.handler W)
    (c : Commands.Context) (opts : Commands.CloneOptions) (targetVolume : string) (w : W) :
  Commands.Clone_targetVolume (Commands.ProjectName c) (Commands.NewName opts)
  = Some targetVolume ->
  let '(ended, _, tr) := Engine.run h (Commands.Clone c opts) w in
  ended <> Engine.Panicked
  /\ (Observed.removals tr = []
      \/ (Observed.removals tr = [(targetVolume, true)]
          /\ Observed.confirmations tr = [true]
          /\ In (Engine.Event (Engine.VolumeExists targetVolume) true) tr))
  /\ (Observed.confirmations tr = [false] ->
      ended = Engine.Returned (Some (Errors.errorString "clone cancelled"))
      /\ Observed.removals tr = [] /\ Observed.copies tr = [])
  /\ (ended = Engine.Returned None ->
      exists sourceVolume,
        Observed.copies tr = [(sourceVolume, targetVolume)]
        /\ In (Engine.Event (Engine.CopyVolume sourceVolume targetVolume) None) tr)
  /\ Observed.creations tr = [] /\ Observed.restores tr = []
  /\ Observed.data_mover_runs tr = [].
Proof.
  intros Htarget. unfold Commands.Clone. rewrite Htarget.
  destruct (String.eqb (Commands.CloneService opts) "");
    [cbn; repeat split; try discriminate; now left|].
  destruct (String.eqb (Commands.NewName opts) "");
    [cbn; repeat split; try discriminate; now left|].
  unfold Commands.ResolveVolumeName.
  destruct (match Commands.Compose c with Some _ => _ | None => _ end).
  all: run_split h; observe.
  all: split; [discriminate|].
  all: split; [first [now left | right; repeat split; cbn; auto 10]|].
  all: split; [intros Hno; first [discriminate Hno | repeat split]|].
  all: split;
    [intros Hnil; first [discriminate Hnil | eexists; split; [reflexivity|cbn; auto 10]]|].
  all: repeat split.
Qed.

(** The theorem in the quiet world, where the target exists and the user
    agrees: the target is removed, then the volume of db is copied. *)
Lemma Clone_removes_the_target_only_on_consent_witness :
  let '(ended, _, tr) :=
    Engine.run World.quiet
      (Commands.Clone (Scenarios.context 5 (Some Scenarios.shared_volume_project) "p")
         {| Commands.CloneService := "db"; Commands.NewName := "copy" |}) tt in
  ended = Engine.Returned None
  /\ Observed.removals tr = [("p_copy", true)]
  /\ Observed.confirmations tr = [true]
  /\ Observed.copies tr = [("p_data", "p_copy")].
Proof.
  pose proof (Clone_removes_the_target_only_on_consent World.quiet
    (Scenarios.context 5 (Some Scenarios.shared_volume_project) "p")
    {| Commands.CloneService := "db"; Commands.NewName := "copy" |} "p_copy" tt eq_refl)
    as H.
  destruct (Engine.run World.quiet _ tt) as [[ended w1] tr] eqn:Hrun.
  destruct H as (_ & Hrem & _ & Hcopy & _).
  assert (Hended : ended = Engine.Returned None
                   /\ Observed.removals tr <> []).
  { vm_compute in Hrun. injection Hrun as <- _ <-. split; [reflexivity|discriminate]. }
  destruct Hended as [Hended Hsome].
  destruct Hrem as [Hrem|(Hrem & Hyes & _)]; [contradiction|].
  destruct (Hcopy Hended) as (sourceVolume & Hcopies & Hin).
  split; [exact Hended|]. split; [exact Hrem|]. split; [exact Hyes|].
  rewrite Hcopies. f_equal. f_equal.
  vm_compute in Hrun. injection Hrun as _ _ <-.
  vm_compute in Hcopies. now injection Hcopies as <-.
Defined.

Section CleanSafety.

Variable time_Format : string -> Time.Time -> string.

Lemma clean_filter_loop_never (kind : forall X : Type, Engine.Op X -> bool)
    (opts : Commands.CleanOptions) (volumes : list string) :
  (forall v, kind _ (Engine.IsVolumeInUse v) = false) ->
  (forall v, kind _ (Engine.GetVolumeMetadata v) = false) ->
  forall selected, Observed.never kind (Commands.clean_filter_loop opts volumes selected).
Proof.
  intros Huse Hmeta. induction volumes as [|v rest IH]; intros selected;
    cbn [Commands.clean_filter_loop]; [exact I|].
  apply never_bind.
  { destruct (Commands.Unused opts); [|exact I].
    cbn. split; [apply Huse|]. intros x. exact I. }
  intros unusedClean. apply never_bind.
  { destruct (0 <? Commands.Stale opts); [|exact I].
    cbn. split; [apply Hmeta|]. intros [meta|err]; [|exact I].
    destruct (negb _); [|exact I]. destruct (_ <=? _); exact I. }
  intros [|]; apply IH.
Qed.

Lemma clean_filter_loop_returns (opts : Commands.CleanOptions) (volumes : list string) :
  forall selected,
    Observed.always_returns (Commands.clean_filter_loop opts volumes selected).
Proof.
  induction volumes as [|v rest IH]; intros selected;
    cbn [Commands.clean_filter_loop]; [exact I|].
  apply always_returns_bind.
  { destruct (Commands.Unused opts); [|exact I]. cbn. intros x. exact I. }
  intros unusedClean. apply always_returns_bind.
  { destruct (0 <? Commands.Stale opts); [|exact I].
    cbn. intros [meta|err]; [|exact I].
    destruct (negb _); [|exact I]. destruct (_ <=? _); exact I. }
  intros [|]; apply IH.
Qed.

Lemma clean_show_loop_never (kind : forall X : Type, Engine.Op X -> bool)
    (volumes : list string) :
  (forall v, kind _ (Engine.GetVolumeMetadata v) = false) ->
  Observed.never kind (Commands.clean_show_loop volumes).
Proof.
  intros Hmeta. induction volumes as [|v rest IH]; cbn; [exact I|].
  split; [apply Hmeta|]. intros _. exact IH.
Qed.

Lemma clean_show_loop_returns (volumes : list string) :
  Observed.always_returns (Commands.clean_show_loop volumes).
Proof. induction volumes as [|v rest IH]; cbn; [exact I|]. intros _. exact IH. Qed.

Lemma cleanVolume_never_asks (c : Commands.Context) (volumeName archiveDir : string) :
  Observed.never Observed.asks_the_user
    (Commands.cleanVolume time_Format c volumeName archiveDir).
Proof.
  unfold Commands.cleanVolume, Commands.GenerateBackupFilename. never_steps.
Qed.

Lemma clean_each_loop_never_asks (c : Commands.Context) (archiveDir : string)
    (volumes : list string) :
  Observed.never Observed.asks_the_user
    (Commands.clean_each_loop time_Format c volumes archiveDir).
Proof.
  induction volumes as [|v rest IH]; cbn [Commands.clean_each_loop]; [exact I|].
  apply never_bind; [apply cleanVolume_never_asks|]. intros _. exact IH.
Qed.

Context {W : Type}.
Variable h : Engine.handler W.

(** How a run of Clean stands with the user: nothing was written and
    the user was not asked or said no, or the user was asked once and
    said yes (not asked under [Force]). *)
Lemma Clean_consent (c : Commands.Context) (opts : Commands.CleanOptions) (w : W) :
  let '(ended, _, tr) := Engine.run h (Commands.Clean time_Format c opts) w in
  (Observed.calls Observed.writes tr = []
   /\ (Observed.confirmations tr = []
       \/ (Observed.confirmations tr = [false]
           /\ ended = Engine.Returned (Some (Errors.errorString "cleanup cancelled"))
           /\ Commands.DryRun opts = false)))
  \/ (Commands.DryRun opts = false
      /\ Observed.confirmations tr = (if Commands.Force opts then [] else [true])).
Proof.
  unfold Commands.Clean. cbn [Engine.run Engine.bind Engine.call].
  destruct (h _ Engine.ListVolumes w) as [[volumes|err] w0];
    [|cbn; left; split; [reflexivity|now left]].
  rewrite run_bind.
  pose proof (never_in_any_run Observed.writes h _
    (clean_filter_loop_never _ opts volumes (fun _ => eq_refl) (fun _ => eq_refl) []) w0)
    as Hw1.
  pose proof (never_in_any_run Observed.asks_the_user h _
    (clean_filter_loop_never _ opts volumes (fun _ => eq_refl) (fun _ => eq_refl) []) w0)
    as Ha1.
  destruct (always_returns_in_any_run h _ (clean_filter_loop_returns opts volumes []) w0)
    as [selected Hr1].
  destruct (Engine.run h (Commands.clean_filter_loop opts volumes []) w0)
    as [[ended1 w1] tr1]. cbn [fst snd] in *. subst ended1.
  apply confirmations_none in Ha1.
  destruct selected as [|v rest].
  { cbn [Engine.run]. rewrite app_nil_r. left.
    unfold Observed.calls, Observed.confirmations in *. cbn. split; [exact Hw1|now left]. }
  rewrite run_bind.
  pose proof (never_in_any_run Observed.writes h _
    (clean_show_loop_never _ (v :: rest) (fun _ => eq_refl)) w1) as Hw2.
  pose proof (never_in_any_run Observed.asks_the_user h _
    (clean_show_loop_never _ (v :: rest) (fun _ => eq_refl)) w1) as Ha2.
  destruct (always_returns_in_any_run h _ (clean_show_loop_returns (v :: rest)) w1)
    as [[] Hr2].
  destruct (Engine.run h (Commands.clean_show_loop (v :: rest)) w1)
    as [[ended2 w2] tr2]. cbn [fst snd] in *. subst ended2.
  apply confirmations_none in Ha2.
  assert (Hprefix : forall tr3,
    Observed.confirmations
      (Engine.Event Engine.ListVolumes (Errors.Ok volumes) :: tr1 ++ tr2 ++ tr3)
    = Observed.confirmations tr3
    /\ Observed.calls Observed.writes
         (Engine.Event Engine.ListVolumes (Errors.Ok volumes) :: tr1 ++ tr2 ++ tr3)
       = Observed.calls Observed.writes tr3).
  { intros tr3. unfold Observed.confirmations in *. split.
    - cbn [omap list_omap Observed.confirmation]. now rewrite !omap_app, Ha1, Ha2.
    - unfold Observed.calls at 1. cbn [List.filter Observed.writes].
      fold (Observed.calls Observed.writes (tr1 ++ tr2 ++ tr3)).
      now rewrite !calls_app, Hw1, Hw2. }
  destruct (Commands.DryRun opts).
  { cbn [Engine.run]. left. destruct (Hprefix []) as [-> ->]. split; [reflexivity|now left]. }
  rewrite run_bind.
  destruct (Commands.Force opts); cbn [negb Engine.run Engine.call].
  - (* forced: the user is not asked *)
    match goal with
    | |- context [Engine.run h ?m w2] =>
        assert (Hrest : Observed.calls Observed.asks_the_user (snd (Engine.run h m w2)) = [])
          by (apply never_in_any_run; destruct (Commands.Archive opts); never_steps;
              apply clean_each_loop_never_asks);
        destruct (Engine.run h m w2) as [[ended3 w3] tr3]
    end.
    cbn [snd] in Hrest.
    right. split; [reflexivity|]. cbn [app].
    destruct (Hprefix tr3) as [-> _].
    now apply confirmations_none.
  - destruct (h _ (Engine.Confirm _) w2) as [[|] w3]; cbn [negb Engine.run].
    + match goal with
      | |- context [Engine.run h ?m w3] =>
          assert (Hrest : Observed.calls Observed.asks_the_user (snd (Engine.run h m w3)) = [])
            by (apply never_in_any_run; destruct (Commands.Archive opts); never_steps;
                apply clean_each_loop_never_asks);
          destruct (Engine.run h m w3) as [[ended3 w4] tr3]
      end.
      cbn [snd] in Hrest.
      right. split; [reflexivity|].
      match goal with
      | |- context [([?e] ++ tr3)%list] => destruct (Hprefix (e :: tr3)) as [Hc _]
      end.
      cbn [app] in *. rewrite Hc.
      unfold Observed.confirmations. cbn [omap list_omap Observed.confirmation].
      f_equal. now apply confirmations_none.
    + left.
      match goal with
      | |- context [([?e] ++ [])%list] => destruct (Hprefix [e]) as [Hc Hw]
      end.
      cbn [app] in *. rewrite Hc, Hw. split; [reflexivity|]. right. now repeat split.
Qed.

End CleanSafety.

(** X15. Clean writes nothing without consent, in any world.  Under
    [DryRun] it only reads: it makes no call that changes a volume, the
    containers, the store or the file system, and it does not ask the
    user.  When the user answers no to its question it returns "cleanup
    cancelled" and has written nothing.  Without [Force], whenever it has
    written anything the user was asked exactly once and answered yes. *)
Theorem Clean_writes_nothing_without_consent
    (time_Format : string -> Time.Time -> string) {W : Type} (h : Engine.handler W)
    (c : Commands.Context) (opts : Commands.CleanOptions) (w : W) :
  let '(ended, _, tr) := Engine.run h (Commands.Clean time_Format c opts) w in
  (Commands.DryRun opts = true ->
   Observed.calls Observed.writes tr = [] /\ Observed.confirmations tr = [])
  /\ (Observed.confirmations tr = [false] ->
      Observed.calls Observed.writes tr = []
      /\ ended = Engine.Returned (Some (Errors.errorString "cleanup cancelled")))
  /\ (Commands.Force opts = false ->
      Observed.calls Observed.writes tr <> [] ->
      Observed.confirmations tr = [true]).
Proof.
  pose proof (Clean_consent time_Format h c opts w) as H.
  destruct (Engine.run h (Commands.Clean time_Format c opts) w) as [[ended w1] tr].
  destruct H as [[Hw [Hc|(Hc & He & Hd)]]|[Hd Hc]].
  - split; [now intros _|]. split; [rewrite Hc; discriminate|]. now intros _ Hne.
  - split; [rewrite Hd; discriminate|]. split; [now intros _|]. now intros _ Hne.
  - split; [rewrite Hd; discriminate|].
    split; [rewrite Hc; destruct (Commands.Force opts); discriminate|].
    intros Hforce _. now rewrite Hc, Hforce.
Qed.

(** The theorem in a world with one unused volume where the user
    declines. *)
Lemma Clean_writes_nothing_without_consent_witness :
  let '(ended, _, tr) :=
    Engine.run (Scenarios.declining ["old_data"])
      (Commands.Clean Scenarios.no_format (Scenarios.context 5 None "")
         {| Commands.Unused := true; Commands.Stale := 0; Commands.DryRun := false;
            Commands.Archive := true; Commands.Force := false |}) tt in
  Observed.confirmations tr = [false]
  /\ Observed.calls Observed.writes tr = []
  /\ ended = Engine.Returned (Some (Errors.errorString "cleanup cancelled")).
Proof.
  pose proof (Clean_writes_nothing_without_consent Scenarios.no_format
    (Scenarios.declining ["old_data"]) (Scenarios.context 5 None "")
    {| Commands.Unused := true; Commands.Stale := 0; Commands.DryRun := false;
       Commands.Archive := true; Commands.Force := false |} tt) as H.
  destruct (Engine.run (Scenarios.declining ["old_data"]) _ tt) as [[ended w1] tr] eqn:Hrun.
  assert (Hno : Observed.confirmations tr = [false]).
  { vm_compute in Hrun. now injection Hrun as _ _ <-. }
  split; [exact Hno|]. exact (proj1 (proj2 H) Hno).
Defined.

(** ** Clean with [Archive]: a volume goes only after its archive *)

Lemma Clean_not_empty (p : string) : Filepath.Clean p <> "".
Proof.
  unfold Filepath.Clean.
  destruct (Strings.HasPrefix p "/"); [now rewrite app_String|].
  match goal with
  | |- context [String.eqb ?body ""] => destruct (String.eqb_spec body "")
  end; [discriminate|assumption].
Qed.

Lemma Join_not_empty (a b : string) : b <> "" -> Filepath.Join a b <> "".
Proof.
  intros Hb. unfold Filepath.Join.
  destruct (String.eqb a "").
  - destruct (String.eqb_spec b ""); [contradiction|apply Clean_not_empty].
  - destruct (String.eqb b ""); apply Clean_not_empty.
Qed.

Section CleanArchives.

Variable time_Format : string -> Time.Time -> string.
Context {W : Type}.
Variable h : Engine.handler W.

(** cleanVolume removes at most its volume, not by force, and with an
    archive directory only after the data mover has archived it. *)
Lemma cleanVolume_calls (c : Commands.Context) (volumeName archiveDir : string) (w : W) :
  let tr := snd (Engine.run h (Commands.cleanVolume time_Format c volumeName archiveDir) w) in
  (Observed.removals tr = [] \/ Observed.removals tr = [(volumeName, false)])
  /\ (Observed.artifacts tr = [] \/ exists path, Observed.artifacts tr = [(volumeName, path)])
  /\ (archiveDir <> "" -> Observed.removals tr <> [] -> Observed.artifacts tr <> [])
  /\ (archiveDir = "" -> Observed.data_mover_runs tr = []).
Proof.
  unfold Commands.cleanVolume, Commands.GenerateBackupFilename.
  destruct (String.eqb_spec archiveDir "") as [Hdir|Hdir]; cbn [negb].
  all: run_split h; observe.
  all: split; [first [now left | now right]|].
  all: split; [first [now left | right; eexists; reflexivity]|].
  all: split; [intros Hd Hr; first [contradiction | discriminate]|].
  all: intros Hd; first [reflexivity | contradiction].
Qed.

Lemma clean_each_loop_calls (c : Commands.Context) (archiveDir : string)
    (volumes : list string) :
  forall w,
    let tr := snd (Engine.run h (Commands.clean_each_loop time_Format c volumes archiveDir) w) in
    (forall v force, In (v, force) (Observed.removals tr) ->
       force = false /\ In v volumes
       /\ (archiveDir <> "" -> In v (map fst (Observed.artifacts tr))))
    /\ (archiveDir = "" -> Observed.data_mover_runs tr = []).
Proof.
  induction volumes as [|v0 rest IH]; intros w; cbn [Commands.clean_each_loop].
  - cbn. split; [intros v force []|reflexivity].
  - destruct (run_bind_trace h (Commands.cleanVolume time_Format c v0 archiveDir)
      (fun _ => Commands.clean_each_loop time_Format c rest archiveDir) w)
      as (tr1 & tr2 & -> & -> & Htr2).
    pose proof (cleanVolume_calls c v0 archiveDir w) as (Hrem & Hart & Hguard & Hnone).
    assert (Hrest : (forall v force, In (v, force) (Observed.removals tr2) ->
        force = false /\ In v rest
        /\ (archiveDir <> "" -> In v (map fst (Observed.artifacts tr2))))
      /\ (archiveDir = "" -> Observed.data_mover_runs tr2 = [])).
    { destruct Htr2 as [->|(a & w1 & _ & ->)].
      - split; [intros v force []|reflexivity].
      - apply IH. }
    destruct Hrest as [Hrest Hnone2].
    unfold Observed.removals, Observed.artifacts, Observed.data_mover_runs in *.
    rewrite !omap_app. split.
    + intros v force Hin. apply in_app_or in Hin as [Hin|Hin].
      * destruct Hrem as [Hrem|Hrem]; rewrite Hrem in *; [destruct Hin|].
        destruct Hin as [[= <- <-]|[]].
        split; [reflexivity|]. split; [now left|].
        intros Hdir. rewrite map_app. apply in_or_app. left.
        destruct Hart as [Hart|[path Hart]].
        -- exfalso. apply (Hguard Hdir); [discriminate|exact Hart].
        -- rewrite Hart. now left.
      * destruct (Hrest v force Hin) as (Hf & Hv & Ha).
        split; [exact Hf|]. split; [now right|].
        intros Hdir. rewrite map_app. apply in_or_app. right. now apply Ha.
    + intros Hdir. now rewrite (Hnone Hdir), (Hnone2 Hdir).
Qed.

(** The volumes the filter of Clean selects are among those listed. *)
Lemma clean_filter_loop_selects_listed (opts : Commands.CleanOptions)
    (volumes : list string) :
  forall selected w,
    match fst (fst (Engine.run h (Commands.clean_filter_loop opts volumes selected) w)) with
    | Engine.Returned chosen =>
        forall v, In v chosen -> In v selected \/ In v volumes
    | Engine.Panicked => True
    end.
Proof.
  induction volumes as [|v0 rest IH]; intros selected w;
    cbn [Commands.clean_filter_loop]; [cbn; now left|].
  rewrite run_bind.
  destruct (Engine.run h (if Commands.Unused opts then _ else _) w)
    as [[[unusedClean|] w1] tr1]; [|exact I].
  rewrite run_bind.
  destruct (Engine.run h (if 0 <? Commands.Stale opts then _ else _) w1)
    as [[[shouldClean|] w2] tr2]; [|exact I].
  destruct shouldClean.
  - specialize (IH (selected ++ [v0])%list w2).
    destruct (Engine.run h (Commands.clean_filter_loop opts rest _) w2)
      as [[[chosen|] w3] tr3]; [|exact I].
    cbn [fst] in *. intros v Hv. destruct (IH v Hv) as [Hs|Hr].
    + apply in_app_or in Hs as [Hs|[<-|[]]]; [now left|right; now left].
    + right. now right.
  - specialize (IH selected w2).
    destruct (Engine.run h (Commands.clean_filter_loop opts rest _) w2)
      as [[[chosen|] w3] tr3]; [|exact I].
    cbn [fst] in *. intros v Hv. destruct (IH v Hv) as [Hs|Hr]; [now left|right; now right].
Qed.

End CleanArchives.

Section CleanCommand.

Variable time_Format : string -> Time.Time -> string.
Context {W : Type}.
Variable h : Engine.handler W.

(** What Clean does once the user has agreed: the removals are those of
    the loop over the selected volumes. *)
Lemma Clean_after_consent (c : Commands.Context) (opts : Commands.CleanOptions)
    (selected : list string) (w : W) :
  let archiveDir :=
    if Commands.Archive opts
    then Filepath.Join (Config.Archives (Config.paths (Commands.config c))) "cleanup"
    else "" in
  let tr := snd (Engine.run h
    (let! made := (if Commands.Archive opts
                   then Engine.call (Engine.EnsureDirectory archiveDir)
                   else Engine.Ret None) in
     match made with
     | Some err =>
         Engine.Ret (Some (Errors.Errorf_w "failed to create archive directory: " err))
     | None =>
         let! _done := Commands.clean_each_loop time_Format c selected archiveDir in
         Engine.Ret None
     end) w) in
  (forall v force, In (v, force) (Observed.removals tr) ->
     force = false /\ In v selected
     /\ (Commands.Archive opts = true -> In v (map fst (Observed.artifacts tr))))
  /\ (Commands.Archive opts = false -> Observed.data_mover_runs tr = []).
Proof.
  cbv zeta. destruct (Commands.Archive opts).
  - cbn [Engine.run Engine.bind Engine.call].
    destruct (h _ (Engine.EnsureDirectory _) w) as [[err|] w1].
    + cbn. split; [intros v force []|discriminate].
    + rewrite run_bind.
      pose proof (clean_each_loop_calls time_Format h c
        (Filepath.Join (Config.Archives (Config.paths (Commands.config c))) "cleanup")
        selected w1) as [Hloop _].
      destruct (Engine.run h (Commands.clean_each_loop time_Format c selected _) w1)
        as [[[[]|] w2] tr2]; cbn [snd Engine.run] in *; try rewrite app_nil_r.
      all: split; [|discriminate].
      all: intros v force Hin; destruct (Hloop v force Hin) as (Hf & Hv & Ha).
      all: split; [exact Hf|]; split; [exact Hv|]; intros _.
      all: apply Ha, Join_not_empty; discriminate.
  - cbn [Engine.bind]. rewrite run_bind.
    pose proof (clean_each_loop_calls time_Format h c "" selected w) as [Hloop Hnone].
    destruct (Engine.run h (Commands.clean_each_loop time_Format c selected "") w)
      as [[[[]|] w2] tr2]; cbn [snd Engine.run] in *; try rewrite app_nil_r.
    all: split; [|intros _; now apply Hnone].
    all: intros v force Hin; destruct (Hloop v force Hin) as (Hf & Hv & _).
    all: split; [exact Hf|]; split; [exact Hv|discriminate].
Qed.

End CleanCommand.

(** X16. What Clean removes, in any world.  Every volume Clean removes is
    one the engine listed, and it is removed without force, so the
    engine's own refusal to remove a volume in use stays in effect.
    With [Archive], a volume is removed only after the data mover has
    produced an archive of it in this run: a volume whose archive failed
    is left alone.  Without [Archive] the data mover does not run. *)
Theorem Clean_removes_only_listed_volumes_and_only_after_their_archive
    (time_Format : string -> Time.Time -> string) {W : Type} (h : Engine.handler W)
    (c : Commands.Context) (opts : Commands.CleanOptions) (w : W) :
  let '(_, _, tr) := Engine.run h (Commands.Clean time_Format c opts) w in
  (forall v force, In (v, force) (Observed.removals tr) ->
     force = false
     /\ (exists volumes,
           In (Engine.Event Engine.ListVolumes (Errors.Ok volumes)) tr /\ In v volumes)
     /\ (Commands.Archive opts = true -> In v (map fst (Observed.artifacts tr))))
  /\ (Commands.Archive opts = false -> Observed.data_mover_runs tr = []).
Proof.
  unfold Commands.Clean. cbn [Engine.run Engine.bind Engine.call].
  destruct (h _ Engine.ListVolumes w) as [[volumes|err] w0];
    [|cbn; split; [intros v force []|reflexivity]].
  rewrite run_bind.
  pose proof (never_in_any_run Observed.removes_a_volume h _
    (clean_filter_loop_never _ opts volumes (fun _ => eq_refl) (fun _ => eq_refl) []) w0)
    as Hr1.
  pose proof (never_in_any_run Observed.runs_the_data_mover h _
    (clean_filter_loop_never _ opts volumes (fun _ => eq_refl) (fun _ => eq_refl) []) w0)
    as Hm1.
  pose proof (clean_filter_loop_selects_listed h opts volumes [] w0) as Hsel.
  destruct (Engine.run h (Commands.clean_filter_loop opts volumes []) w0)
    as [[ended1 w1] tr1]. cbn [fst snd] in *.
  apply removals_none in Hr1. pose proof (artifacts_none _ Hm1) as Ha1.
  apply data_mover_runs_none in Hm1.
  assert (Hquiet : forall tr2, Observed.removals tr2 = [] ->
    Observed.data_mover_runs tr2 = [] ->
    (forall v force,
       In (v, force) (Observed.removals
         (Engine.Event Engine.ListVolumes (Errors.Ok volumes) :: tr1 ++ tr2)) ->
       force = false
       /\ (exists volumes0,
             In (Engine.Event Engine.ListVolumes (Errors.Ok volumes0))
               (Engine.Event Engine.ListVolumes (Errors.Ok volumes) :: tr1 ++ tr2)
             /\ In v volumes0)
       /\ (Commands.Archive opts = true ->
           In v (map fst (Observed.artifacts
             (Engine.Event Engine.ListVolumes (Errors.Ok volumes) :: tr1 ++ tr2)))))
    /\ (Commands.Archive opts = false ->
        Observed.data_mover_runs
          (Engine.Event Engine.ListVolumes (Errors.Ok volumes) :: tr1 ++ tr2) = [])).
  { intros tr2 Hr2 Hm2. unfold Observed.removals, Observed.data_mover_runs in *.
    cbn [omap list_omap Observed.removal Observed.data_mover_run].
    rewrite !omap_app, Hr1, Hr2, Hm1, Hm2. split; [intros v force []|reflexivity]. }
  destruct ended1 as [[|v0 rest]|].
  - cbn [Engine.run]. now apply Hquiet.
  - rewrite run_bind.
    pose proof (never_in_any_run Observed.removes_a_volume h _
      (clean_show_loop_never _ (v0 :: rest) (fun _ => eq_refl)) w1) as Hr2.
    pose proof (never_in_any_run Observed.runs_the_data_mover h _
      (clean_show_loop_never _ (v0 :: rest) (fun _ => eq_refl)) w1) as Hm2.
    destruct (Engine.run h (Commands.clean_show_loop (v0 :: rest)) w1)
      as [[ended2 w2] tr2]. cbn [fst snd] in *.
    apply removals_none in Hr2. pose proof (artifacts_none _ Hm2) as Ha2.
    apply data_mover_runs_none in Hm2.
    assert (Hlate : forall tr3 tr4,
      Observed.removals tr3 = [] -> Observed.data_mover_runs tr3 = [] ->
      Observed.artifacts tr3 = [] ->
      ((forall v force, In (v, force) (Observed.removals tr4) ->
          force = false /\ In v (v0 :: rest)
          /\ (Commands.Archive opts = true -> In v (map fst (Observed.artifacts tr4))))
       /\ (Commands.Archive opts = false -> Observed.data_mover_runs tr4 = [])) ->
      (forall v force,
         In (v, force) (Observed.removals
           (Engine.Event Engine.ListVolumes (Errors.Ok volumes)
            :: tr1 ++ tr2 ++ tr3 ++ tr4)) ->
         force = false
         /\ (exists volumes0,
               In (Engine.Event Engine.ListVolumes (Errors.Ok volumes0))
                 (Engine.Event Engine.ListVolumes (Errors.Ok volumes)
                  :: tr1 ++ tr2 ++ tr3 ++ tr4)
               /\ In v volumes0)
         /\ (Commands.Archive opts = true ->
             In v (map fst (Observed.artifacts
               (Engine.Event Engine.ListVolumes (Errors.Ok volumes)
                :: tr1 ++ tr2 ++ tr3 ++ tr4)))))
      /\ (Commands.Archive opts = false ->
          Observed.data_mover_runs
            (Engine.Event Engine.ListVolumes (Errors.Ok volumes)
             :: tr1 ++ tr2 ++ tr3 ++ tr4) = [])).
    { intros tr3 tr4 Hr3 Hm3 Ha3 [Hloop Hnone].
      unfold Observed.removals, Observed.data_mover_runs, Observed.artifacts in *.
      cbn [omap list_omap Observed.removal Observed.data_mover_run Observed.artifact].
      rewrite !omap_app, Hr1, Hr2, Hr3, Hm1, Hm2, Hm3, Ha1, Ha2, Ha3. cbn [app].
      split; [|exact Hnone].
      intros v force Hin. destruct (Hloop v force Hin) as (Hf & Hv & Ha).
      split; [exact Hf|]. split; [|exact Ha].
      exists volumes. split; [now left|].
      destruct (Hsel v Hv) as [[]|Hlisted]. exact Hlisted. }
    destruct ended2 as [[]|].
    2: { specialize (Hquiet tr2 Hr2 Hm2). exact Hquiet. }
    destruct (Commands.DryRun opts).
    { cbn [Engine.run]. rewrite app_nil_r. now apply Hquiet. }
    rewrite run_bind.
    destruct (Commands.Force opts); cbn [negb Engine.run Engine.call].
    + pose proof (Clean_after_consent time_Format h c opts (v0 :: rest) w2) as Hafter.
      cbv zeta in Hafter.
      match goal with
      | |- context [Engine.run h ?m w2] =>
          destruct (Engine.run h m w2) as [[ended3 w3] tr3]
      end.
      cbn [snd] in Hafter. exact (Hlate [] tr3 eq_refl eq_refl eq_refl Hafter).
    + destruct (h _ (Engine.Confirm _) w2) as [[|] w3]; cbn [negb Engine.run].
      * pose proof (Clean_after_consent time_Format h c opts (v0 :: rest) w3) as Hafter.
        cbv zeta in Hafter.
        match goal with
        | |- context [Engine.run h ?m w3] =>
            destruct (Engine.run h m w3) as [[ended3 w4] tr3]
        end.
        cbn [snd] in Hafter.
        refine (Hlate [_] tr3 _ _ _ Hafter); reflexivity.
      * refine (Hlate [_] [] _ _ _ _); try reflexivity.
        split; [intros v force []|reflexivity].
  - cbn [app]. specialize (Hquiet [] eq_refl eq_refl). now rewrite app_nil_r in Hquiet.
Qed.

(** The theorem in a world with one unused volume whose archive fails:
    nothing is removed. *)
Lemma Clean_removes_only_listed_volumes_and_only_after_their_archive_witness :
  let '(_, _, tr) :=
    Engine.run (Scenarios.mover_fails ["old_data"])
      (Commands.Clean Scenarios.no_format (Scenarios.context 5 None "")
         {| Commands.Unused := true; Commands.Stale := 0; Commands.DryRun := false;
            Commands.Archive := true; Commands.Force := true |}) tt in
  Observed.data_mover_runs tr
  = [("old_data", "/home/u/.dvm/archives/cleanup/old_data_T.tar.gz")]
  /\ Observed.removals tr = [].
Proof.
  pose proof (Clean_removes_only_listed_volumes_and_only_after_their_archive
    Scenarios.no_format (Scenarios.mover_fails ["old_data"]) (Scenarios.context 5 None "")
    {| Commands.Unused := true; Commands.Stale := 0; Commands.DryRun := false;
       Commands.Archive := true; Commands.Force := true |} tt) as H.
  destruct (Engine.run (Scenarios.mover_fails ["old_data"]) _ tt) as [[ended w1] tr] eqn:Hrun.
  assert (Hfacts : Observed.data_mover_runs tr
                   = [("old_data", "/home/u/.dvm/archives/cleanup/old_data_T.tar.gz")]
                   /\ Observed.artifacts tr = []).
  { vm_compute in Hrun. injection Hrun as _ _ <-. split; reflexivity. }
  destruct Hfacts as [Hruns Hnone]. split; [exact Hruns|].
  destruct (Observed.removals tr) as [|[v force] rest]; [reflexivity|].
  destruct (proj1 H v force (or_introl eq_refl)) as (_ & _ & Harchived).
  specialize (Harchived eq_refl). rewrite Hnone in Harchived. destruct Harchived.
Defined.

(** ** Archive: a volume is deleted only after its archive *)

Lemma removals_follow_archives_nil : Observed.removals_follow_archives [].
Proof. intros [|e0 before] e after v force Heq; discriminate Heq. Qed.

Lemma removals_follow_archives_none (tr : list Engine.event) :
  Observed.removals tr = [] -> Observed.removals_follow_archives tr.
Proof.
  intros Hnone before e after v force -> Hr. exfalso.
  unfold Observed.removals in Hnone. rewrite omap_app in Hnone.
  cbn [omap list_omap] in Hnone. rewrite Hr in Hnone.
  apply app_eq_nil in Hnone as [_ Hnone]. discriminate Hnone.
Qed.

Lemma removals_follow_archives_app (tr1 tr2 : list Engine.event) :
  Observed.removals_follow_archives tr1 -> Observed.removals_follow_archives tr2 ->
  Observed.removals_follow_archives (tr1 ++ tr2).
Proof.
  intros H1 H2 before e after v force Heq Hr.
  symmetry in Heq. apply app_eq_app in Heq as [l [[-> Hl]|[-> Hl]]].
  - destruct (H2 l e after v force Hl Hr) as [Hf Hin]. split; [exact Hf|].
    unfold Observed.artifacts in *. rewrite omap_app, map_app.
    apply in_or_app. now right.
  - destruct l as [|e0 l]; cbn [app] in Hl.
    + destruct (H2 [] e after v force (eq_sym Hl) Hr) as [Hf []].
    + injection Hl as <- ->.
      exact (H1 before e l v force eq_refl Hr).
Qed.

Ltac observe_archive :=
  unfold Observed.volumes_found_in_use, Observed.deletions, Observed.summed_files;
  observe;
  cbn [omap list_omap Observed.found_in_use Observed.deletion Observed.summed_file].

Ltac find_removal Heq Hr :=
  repeat match type of Heq with
         | [] = (?b ++ _ :: _)%list => destruct b; discriminate Heq
         | (_ :: _) = (?b ++ _ :: _)%list =>
             destruct b as [|? b]; cbn [app] in Heq; injection Heq as ? Heq; subst;
             [cbn in Hr; try discriminate Hr|]
         end.

(** Runs the clock call of GenerateBackupFilename and gives the archive
    path a name. *)
Ltac name_the_archive h outputDir :=
  unfold Commands.GenerateBackupFilename;
  cbn [Engine.run Engine.bind Engine.call];
  try match goal with
      | |- context [h _ Engine.Now ?w'] =>
          let now := fresh "now" in let wn := fresh "w" in
          destruct (h _ Engine.Now w') as [now wn];
          cbn [Engine.run Engine.bind Engine.call];
          match goal with
          | |- context [Filepath.Join outputDir ?f] =>
              let archivePath := fresh "archivePath" in
              generalize (Filepath.Join outputDir f); intros archivePath
          end
      end.

Section ArchiveSafety.

Variable time_Format : string -> Time.Time -> string.
Context {W : Type}.
Variable h : Engine.handler W.

(** archiveVolume asks nothing, and removes its volume only as its last
    step, without force, after the archive. *)
Lemma archiveVolume_calls (c : Commands.Context) (volumeName outputDir : string)
    (opts : ArchiveCommand.ArchiveOptions) (w : W) :
  let tr := snd (Engine.run h
                   (ArchiveCommand.archiveVolume time_Format c volumeName outputDir opts) w) in
  Observed.removals_follow_archives tr
  /\ Observed.confirmations tr = []
  /\ (forall v path, In (v, path) (Observed.data_mover_runs tr) -> v = volumeName).
Proof.
  unfold ArchiveCommand.archiveVolume.
  destruct (ArchiveCommand.Verify opts).
  all: run_split h; name_the_archive h outputDir; run_split h; cbn [fst snd].
  all: split; [|split; [reflexivity|]].
  all: try (intros before ev after v force Heq Hr; find_removal Heq Hr;
            (injection Hr as <- <-; split; [reflexivity|]; cbn; auto 10)).
  all: observe; intros v path Hin; cbn in Hin.
  all: repeat match type of Hin with
              | False => destruct Hin
              | _ \/ _ => destruct Hin as [Hin|Hin]; [now injection Hin|]
              end.
Qed.

Lemma archive_loop_calls (c : Commands.Context) (outputDir : string)
    (opts : ArchiveCommand.ArchiveOptions) (volumes : list string) :
  forall w,
    let tr := snd (Engine.run h
                     (ArchiveCommand.archive_loop time_Format c volumes outputDir opts) w) in
    Observed.removals_follow_archives tr
    /\ Observed.confirmations tr = []
    /\ (forall v path, In (v, path) (Observed.data_mover_runs tr) -> In v volumes).
Proof.
  induction volumes as [|v0 rest IH]; intros w; cbn [ArchiveCommand.archive_loop].
  - cbn. split; [exact removals_follow_archives_nil|]. split; [reflexivity|intros v path []].
  - destruct (run_bind_trace h
      (ArchiveCommand.archiveVolume time_Format c v0 outputDir opts)
      (fun _ => ArchiveCommand.archive_loop time_Format c rest outputDir opts) w)
      as (tr1 & tr2 & -> & -> & Htr2).
    pose proof (archiveVolume_calls c v0 outputDir opts w) as (Hfollow & Hasks & Hmover).
    assert (Hrest : Observed.removals_follow_archives tr2
      /\ Observed.confirmations tr2 = []
      /\ (forall v path, In (v, path) (Observed.data_mover_runs tr2) -> In v rest)).
    { destruct Htr2 as [->|(a & w1 & _ & ->)]; [|apply IH].
      split; [exact removals_follow_archives_nil|]. split; [reflexivity|intros v path []]. }
    destruct Hrest as (Hfollow2 & Hasks2 & Hmover2).
    split; [now apply removals_follow_archives_app|].
    unfold Observed.confirmations, Observed.data_mover_runs in *.
    rewrite !omap_app. split; [now rewrite Hasks, Hasks2|].
    intros v path Hin. apply in_app_or in Hin as [Hin|Hin].
    + left. symmetry. exact (Hmover v path Hin).
    + right. exact (Hmover2 v path Hin).
Qed.

(** Archive from the list of volumes on: what it asks, and what it does
    on each answer. *)
Lemma archive_volumes_calls (c : Commands.Context) (volumes : list string)
    (opts : ArchiveCommand.ArchiveOptions) (w : W) :
  let '(ended, _, tr) :=
    Engine.run h (ArchiveCommand.archive_volumes time_Format c volumes opts) w in
  Observed.removals_follow_archives tr
  /\ (forall v path, In (v, path) (Observed.data_mover_runs tr) -> In v volumes)
  /\ (ArchiveCommand.Force opts = false -> Observed.confirmations tr <> [true] ->
      Observed.data_mover_runs tr = [] /\ Observed.removals tr = [])
  /\ (Observed.confirmations tr = [false] ->
      ended = Engine.Returned (Some (Errors.errorString "archive cancelled")))
  /\ (ArchiveCommand.Force opts = true -> Observed.confirmations tr = []).
Proof.
  unfold ArchiveCommand.archive_volumes.
  destruct volumes as [|v0 rest].
  { cbn. split; [exact removals_follow_archives_nil|]. split; [intros v path []|].
    split; [now split|]. split; [discriminate|reflexivity]. }
  set (volumes := v0 :: rest).
  set (outputDir := if String.eqb (ArchiveCommand.Output opts) "" then _ else _).
  cbn [Engine.run Engine.bind Engine.call].
  destruct (h _ (Engine.EnsureDirectory outputDir) w) as [[err|] w1].
  { cbn. split; [apply removals_follow_archives_none; reflexivity|].
    split; [intros v path []|].
    split; [now split|]. split; [discriminate|reflexivity]. }
  destruct (ArchiveCommand.Force opts); cbn [negb Engine.run Engine.bind Engine.call].
  - rewrite run_bind.
    pose proof (archive_loop_calls c outputDir opts volumes w1) as (Hfollow & Hasks & Hmover).
    destruct (Engine.run h (ArchiveCommand.archive_loop time_Format c volumes outputDir opts) w1)
      as [[ended2 w2] tr2]. cbn [fst snd] in *.
    assert (Hshape : forall tr,
      tr = (Engine.Event (Engine.EnsureDirectory outputDir) None :: tr2)%list ->
      Observed.removals_follow_archives tr
      /\ (forall v path, In (v, path) (Observed.data_mover_runs tr) -> In v volumes)
      /\ Observed.confirmations tr = []).
    { intros tr ->. split; [|split].
      - apply (removals_follow_archives_app [_] tr2); [|exact Hfollow].
        apply removals_follow_archives_none. reflexivity.
      - exact Hmover.
      - exact Hasks. }
    destruct ended2 as [[]|]; cbn [Engine.run]; rewrite ?app_nil_r.
    all: destruct (Hshape _ eq_refl) as (H1 & H2 & H3).
    all: split; [exact H1|]; split; [exact H2|]; rewrite H3.
    all: split; [discriminate|]; split; [discriminate|reflexivity].
  - destruct (h _ (Engine.Confirm "Continue?") w1) as [[|] w2];
      cbn [negb Engine.run Engine.bind Engine.call].
    2:{ cbn. split; [apply removals_follow_archives_none; reflexivity|].
        split; [intros v path []|].
        split; [now split|]. split; [reflexivity|discriminate]. }
    rewrite run_bind.
    pose proof (archive_loop_calls c outputDir opts volumes w2) as (Hfollow & Hasks & Hmover).
    destruct (Engine.run h (ArchiveCommand.archive_loop time_Format c volumes outputDir opts) w2)
      as [[ended2 w3] tr2]. cbn [fst snd] in *.
    assert (Hshape : forall tr,
      tr = (Engine.Event (Engine.EnsureDirectory outputDir) None
            :: Engine.Event (Engine.Confirm "Continue?") true :: tr2)%list ->
      Observed.removals_follow_archives tr
      /\ (forall v path, In (v, path) (Observed.data_mover_runs tr) -> In v volumes)
      /\ Observed.confirmations tr = [true]).
    { intros tr ->. split; [|split].
      - apply (removals_follow_archives_app [_; _] tr2); [|exact Hfollow].
        apply removals_follow_archives_none. reflexivity.
      - exact Hmover.
      - unfold Observed.confirmations in *.
        cbn [omap list_omap Observed.confirmation]. now rewrite Hasks. }
    destruct ended2 as [[]|]; cbn [Engine.run]; rewrite ?app_nil_r.
    all: destruct (Hshape _ eq_refl) as (H1 & H2 & H3).
    all: split; [exact H1|]; split; [exact H2|]; rewrite H3.
    all: split; [intros _ Hne; now destruct Hne|]; split; discriminate.
Qed.

End ArchiveSafety.

(** X17. archiveVolume and a volume in use, a failed checksum, and
    success.  Without [Force], a volume the engine reports in use is
    neither archived nor removed.  archiveVolume returns nil exactly
    when the removal of its volume succeeded.  With [Verify], the volume
    is removed only when the archive was produced and its checksum could
    be computed. *)
Theorem archiveVolume_spares_a_volume_in_use_and_reports_the_deletion
    (time_Format : string -> Time.Time -> string) {W : Type} (h : Engine.handler W)
    (c : Commands.Context) (volumeName outputDir : string)
    (opts : ArchiveCommand.ArchiveOptions) (w : W) :
  let '(ended, _, tr) :=
    Engine.run h (ArchiveCommand.archiveVolume time_Format c volumeName outputDir opts) w in
  (ArchiveCommand.Force opts = false -> Observed.volumes_found_in_use tr <> [] ->
   Observed.data_mover_runs tr = [] /\ Observed.removals tr = []
   /\ ended <> Engine.Returned None)
  /\ (ended = Engine.Returned None <-> Observed.deletions tr = [volumeName])
  /\ (ArchiveCommand.Verify opts = true -> Observed.removals tr <> [] ->
      exists path,
        Observed.artifacts tr = [(volumeName, path)] /\ Observed.summed_files tr = [path]).
Proof.
  unfold ArchiveCommand.archiveVolume.
  cbn [Engine.run Engine.bind Engine.call].
  destruct (h _ (Engine.VolumeExists volumeName) w) as [[|] w0];
    cbn [negb Engine.run Engine.bind Engine.call].
  2:{ observe_archive. split; [intros _ Hne; now destruct Hne|].
      split; [split; discriminate|]. intros _ Hne; now destruct Hne. }
  destruct (h _ (Engine.IsVolumeInUse volumeName) w0) as [[[|]|err] w1];
    destruct (ArchiveCommand.Force opts), (ArchiveCommand.Verify opts);
    cbn [negb andb Engine.run Engine.bind Engine.call].
  all: run_split h; name_the_archive h outputDir; run_split h; observe_archive.
  all: split; [intros Hf Hne; first [discriminate Hf | now destruct Hne
                                    | split; [reflexivity|]; split; [reflexivity|discriminate]]|].
  all: split; [split; first [discriminate | reflexivity]|].
  all: intros Hv Hne; first [discriminate Hv | now destruct Hne
                            | eexists; split; reflexivity].
Qed.

(** X18. What Archive deletes, in any world.  Every volume it removes is
    removed without force, and only after the data mover has produced an
    archive of that volume earlier in the same run.  Without [Force],
    unless the user answered yes to the one question, nothing is
    archived and nothing removed, and on a no the command returns
    "archive cancelled"; with [Force] the user is not asked. *)
Theorem Archive_deletes_a_volume_only_after_its_archive_and_on_consent
    (time_Format : string -> Time.Time -> string) {W : Type} (h : Engine.handler W)
    (c : Commands.Context) (opts : ArchiveCommand.ArchiveOptions) (w : W) :
  let '(ended, _, tr) := Engine.run h (ArchiveCommand.Archive time_Format c opts) w in
  (forall before e after volumeName force,
     tr = (before ++ e :: after)%list ->
     Observed.removal e = Some (volumeName, force) ->
     force = false /\ In volumeName (map fst (Observed.artifacts before)))
  /\ (ArchiveCommand.Force opts = false -> Observed.confirmations tr <> [true] ->
      Observed.data_mover_runs tr = [] /\ Observed.removals tr = [])
  /\ (Observed.confirmations tr = [false] ->
      ended = Engine.Returned (Some (Errors.errorString "archive cancelled")))
  /\ (ArchiveCommand.Force opts = true -> Observed.confirmations tr = []).
Proof.
  unfold ArchiveCommand.Archive.
  destruct (ArchiveCommand.Services opts) as [|s0 services].
  - destruct (Commands.Compose c) as [cf|].
    + pose proof (archive_volumes_calls time_Format h c
        (Compose.GetAllFullVolumeNames cf (Commands.ProjectName c)) opts w) as Hcalls.
      destruct (Engine.run h _ w) as [[ended w1] tr].
      destruct Hcalls as (H1 & _ & H2 & H3 & H4).
      split; [exact H1|]. split; [exact H2|]. split; [exact H3|exact H4].
    + cbn. split; [exact removals_follow_archives_nil|].
      split; [now split|]. split; [discriminate|reflexivity].
  - rewrite run_bind.
    pose proof (never_in_any_run Observed.removes_a_volume h _
      (resolve_loop_never _ c (s0 :: services) (fun _ => eq_refl) []) w) as Hr1.
    pose proof (never_in_any_run Observed.runs_the_data_mover h _
      (resolve_loop_never _ c (s0 :: services) (fun _ => eq_refl) []) w) as Hm1.
    pose proof (never_in_any_run Observed.asks_the_user h _
      (resolve_loop_never _ c (s0 :: services) (fun _ => eq_refl) []) w) as Ha1.
    destruct (Engine.run h (Commands.resolve_loop c (s0 :: services) []) w)
      as [[ended1 w1] tr1]. cbn [fst snd] in *.
    apply removals_none in Hr1. apply data_mover_runs_none in Hm1.
    apply confirmations_none in Ha1.
    destruct ended1 as [volumes|].
    2:{ split; [now apply removals_follow_archives_none|].
        rewrite Ha1. split; [now split|]. split; [discriminate|reflexivity]. }
    pose proof (archive_volumes_calls time_Format h c volumes opts w1) as Hcalls.
    destruct (Engine.run h _ w1) as [[ended w2] tr2].
    destruct Hcalls as (H1 & _ & H2 & H3 & H4).
    split; [apply removals_follow_archives_app;
            [now apply removals_follow_archives_none|exact H1]|].
    unfold Observed.confirmations, Observed.data_mover_runs, Observed.removals in *.
    rewrite !omap_app, Ha1, Hm1, Hr1. cbn [app].
    split; [exact H2|]. split; [exact H3|exact H4].
Qed.

(** The theorem in a world where the volume is mounted: archiveVolume
    returns the error naming the container, and neither archives nor
    removes the volume. *)
Lemma archiveVolume_spares_a_volume_in_use_and_reports_the_deletion_witness :
  let '(ended, _, tr) :=
    Engine.run Scenarios.mounted
      (ArchiveCommand.archiveVolume Scenarios.no_format (Scenarios.context 5 None "")
         "app_data" "/a"
         {| ArchiveCommand.Output := ""; ArchiveCommand.Verify := false;
            ArchiveCommand.Force := false; ArchiveCommand.Services := [] |}) tt in
  ended = Engine.Returned (Some (Errors.errorString
            "volume is in use by: [web] (use --force to archive anyway)"))
  /\ Observed.data_mover_runs tr = [] /\ Observed.removals tr = [].
Proof.
  pose proof (archiveVolume_spares_a_volume_in_use_and_reports_the_deletion
    Scenarios.no_format Scenarios.mounted (Scenarios.context 5 None "") "app_data" "/a"
    {| ArchiveCommand.Output := ""; ArchiveCommand.Verify := false;
       ArchiveCommand.Force := false; ArchiveCommand.Services := [] |} tt) as H.
  destruct (Engine.run Scenarios.mounted _ tt) as [[ended w1] tr] eqn:Hrun.
  assert (Hfacts : ended = Engine.Returned (Some (Errors.errorString
                     "volume is in use by: [web] (use --force to archive anyway)"))
                   /\ Observed.volumes_found_in_use tr = ["app_data"]).
  { vm_compute in Hrun. injection Hrun as <- _ <-. split; reflexivity. }
  destruct Hfacts as [Hended Hused]. split; [exact Hended|].
  destruct H as (Hspared & _ & _).
  destruct (Hspared eq_refl) as (Hruns & Hremovals & _);
    [rewrite Hused; discriminate|].
  split; [exact Hruns|exact Hremovals].
Defined.

(** The theorem in a world whose user answers no: the command is
    cancelled, nothing is archived and nothing removed. *)
Lemma Archive_deletes_a_volume_only_after_its_archive_and_on_consent_witness :
  let '(ended, _, tr) :=
    Engine.run (Scenarios.declining [])
      (ArchiveCommand.Archive Scenarios.no_format (Scenarios.context 5 None "")
         {| ArchiveCommand.Output := ""; ArchiveCommand.Verify := false;
            ArchiveCommand.Force := false; ArchiveCommand.Services := ["old_data"] |}) tt in
  ended = Engine.Returned (Some (Errors.errorString "archive cancelled"))
  /\ Observed.data_mover_runs tr = [] /\ Observed.removals tr = [].
Proof.
  pose proof (Archive_deletes_a_volume_only_after_its_archive_and_on_consent
    Scenarios.no_format (Scenarios.declining []) (Scenarios.context 5 None "")
    {| ArchiveCommand.Output := ""; ArchiveCommand.Verify := false;
       ArchiveCommand.Force := false; ArchiveCommand.Services := ["old_data"] |} tt) as H.
  destruct (Engine.run (Scenarios.declining []) _ tt) as [[ended w1] tr] eqn:Hrun.
  assert (Hasked : Observed.confirmations tr = [false]).
  { vm_compute in Hrun. injection Hrun as _ _ <-. reflexivity. }
  destruct H as (_ & Hnothing & Hcancelled & _).
  split; [exact (Hcancelled Hasked)|].
  apply (Hnothing eq_refl). rewrite Hasked. discriminate.
Defined.

(** ** Restore from a file: the service read off the file name *)

Lemma Split_not_nil (s : string) (sep : ascii) : Strings.Split s sep <> [].
Proof.
  destruct s as [|c t]; cbn [Strings.Split]; [discriminate|].
  destruct (Ascii.eqb c sep); [discriminate|].
  destruct (Strings.Split t sep); discriminate.
Qed.

Lemma Split_app_sep (a b : string) (sep : ascii) :
  Strings.Split (a +:+ String sep b) sep
  = (Strings.Split a sep ++ Strings.Split b sep)%list.
Proof.
  induction a as [|c a IH].
  - rewrite app_Empty. cbn [Strings.Split]. now rewrite Ascii.eqb_refl.
  - rewrite app_String. cbn [Strings.Split]. rewrite IH.
    destruct (Ascii.eqb c sep); [reflexivity|].
    pose proof (Split_not_nil a sep) as Hne.
    destruct (Strings.Split a sep) as [|p rest]; [now elim Hne|reflexivity].
Qed.

Lemma Split_without_sep (s : string) (sep : ascii) :
  Strings.contains_byte sep s = false -> Strings.Split s sep = [s].
Proof.
  induction s as [|c s IH]; [reflexivity|].
  cbn [Strings.contains_byte Strings.Split]. intros Hno.
  apply orb_false_iff in Hno as [Hc Hs].
  rewrite Ascii.eqb_sym, Hc, (IH Hs). reflexivity.
Qed.

Lemma Join_cons_byte (c : ascii) (p : string) (rest : list string) (sep : string) :
  Strings.Join (String c p :: rest) sep = String c (Strings.Join (p :: rest) sep).
Proof. destruct rest; reflexivity. Qed.

Lemma Join_cons_more (q p : string) (rest : list string) (sep : string) :
  Strings.Join (q :: p :: rest) sep = q +:+ sep +:+ Strings.Join (p :: rest) sep.
Proof. reflexivity. Qed.

Lemma Join_Split (s : string) (sep : ascii) :
  Strings.Join (Strings.Split s sep) (String sep "") = s.
Proof.
  induction s as [|c s IH]; [reflexivity|].
  cbn [Strings.Split]. pose proof (Split_not_nil s sep) as Hne.
  destruct (Ascii.eqb_spec c sep) as [->|_].
  - destruct (Strings.Split s sep) as [|p rest]; [now elim Hne|].
    rewrite Join_cons_more, app_Empty, app_String, app_Empty. now rewrite IH.
  - destruct (Strings.Split s sep) as [|p rest]; [now elim Hne|].
    rewrite Join_cons_byte. now rewrite IH.
Qed.

Lemma substring_app (a b : string) : String.substring 0 (String.length a) (a +:+ b) = a.
Proof.
  induction a as [|c a IH]; [now destruct b|].
  rewrite app_String. cbn [String.length String.substring]. now rewrite IH.
Qed.

Lemma HasSuffix_app (a suffix : string) : RestoreCommand.HasSuffix (a +:+ suffix) suffix = true.
Proof.
  unfold RestoreCommand.HasSuffix. rewrite length_app, Nat.add_sub, drop_bytes_app.
  rewrite String.eqb_refl, andb_true_r. apply Nat.leb_le. lia.
Qed.

Lemma TrimSuffix_app (a suffix : string) : RestoreCommand.TrimSuffix (a +:+ suffix) suffix = a.
Proof.
  unfold RestoreCommand.TrimSuffix. rewrite HasSuffix_app, length_app, Nat.add_sub.
  apply substring_app.
Qed.

Lemma list_ascii_of_string_app (a b : string) :
  list_ascii_of_string (a +:+ b) = (list_ascii_of_string a ++ list_ascii_of_string b)%list.
Proof.
  induction a as [|c a IH]; [reflexivity|].
  rewrite app_String. cbn [list_ascii_of_string app]. now rewrite IH.
Qed.

(** filepath.Ext of a name that ends in a dot and a text without dot
    or separator: the dot and that text. *)
Lemma ext_loop_plain (word : list ascii) :
  forall before seen,
    forallb (fun c => negb (Ascii.eqb c Filepath.slash) && negb (Ascii.eqb c ".")) word = true ->
    RestoreCommand.ext_loop (rev word ++ "."%char :: before) seen
    = String "." (string_of_list_ascii word +:+ seen).
Proof.
  induction word as [|c word IH] using rev_ind; intros before seen Hplain.
  - reflexivity.
  - rewrite forallb_app in Hplain. apply andb_true_iff in Hplain as [Hword Hc].
    cbn [forallb] in Hc. rewrite andb_true_r in Hc.
    apply andb_true_iff in Hc as [Hslash Hdot].
    rewrite rev_app_distr. cbn [rev app RestoreCommand.ext_loop].
    apply negb_true_iff in Hslash, Hdot. rewrite Hslash, Hdot.
    rewrite (IH before (String c seen) Hword).
    f_equal. clear. induction word as [|d word IH]; [reflexivity|].
    cbn [app string_of_list_ascii]. rewrite !app_String. now rewrite IH.
Qed.

Lemma Ext_of_dotted (name word : string) :
  forallb (fun c => negb (Ascii.eqb c Filepath.slash) && negb (Ascii.eqb c "."))
    (list_ascii_of_string word) = true ->
  RestoreCommand.Ext (name +:+ String "." word) = String "." word.
Proof.
  intros Hplain. unfold RestoreCommand.Ext.
  rewrite list_ascii_of_string_app. cbn [list_ascii_of_string].
  rewrite rev_app_distr. cbn [rev]. rewrite <- app_assoc. cbn [app].
  rewrite (ext_loop_plain _ _ _ Hplain), string_of_list_ascii_of_string.
  f_equal. clear. induction word as [|c word IH]; [reflexivity|].
  rewrite app_String. now rewrite IH.
Qed.

(** What drop_bytes leaves of a text without a given byte is without
    it. *)
Lemma contains_byte_drop (c : ascii) (n : nat) :
  forall s, Strings.contains_byte c s = false ->
            Strings.contains_byte c (Strings.drop_bytes n s) = false.
Proof.
  induction n as [|n IH]; intros s Hno; [exact Hno|].
  destruct s as [|d s]; [reflexivity|].
  cbn [Strings.drop_bytes]. apply IH.
  cbn [Strings.contains_byte] in Hno. now apply orb_false_iff in Hno as [_ Hs].
Qed.

Lemma drop_bytes_past (a b : string) (n : nat) :
  (String.length a <= n)%nat ->
  Strings.drop_bytes n (a +:+ b) = Strings.drop_bytes (n - String.length a) b.
Proof.
  revert n. induction a as [|c a IH]; intros n Hn.
  - rewrite app_Empty. cbn [String.length]. now rewrite Nat.sub_0_r.
  - rewrite app_String. cbn [String.length] in *.
    destruct n as [|n]; [lia|]. cbn [Strings.drop_bytes Nat.sub]. apply IH. lia.
Qed.

Lemma drop_bytes_within (a b : string) (n : nat) :
  (n <= String.length a)%nat ->
  Strings.drop_bytes n (a +:+ b) = Strings.drop_bytes n a +:+ b.
Proof.
  revert n. induction a as [|c a IH]; intros n Hn; cbn [String.length] in Hn.
  - assert (n = 0%nat) as -> by lia. reflexivity.
  - destruct n as [|n]; [reflexivity|].
    rewrite app_String. cbn [Strings.drop_bytes]. apply IH. lia.
Qed.

Lemma length_drop_bytes (n : nat) :
  forall s, String.length (Strings.drop_bytes n s) = (String.length s - n)%nat.
Proof.
  induction n as [|n IH]; intros s; [cbn; lia|].
  destruct s as [|c s]; [reflexivity|]. cbn [Strings.drop_bytes String.length Nat.sub].
  apply IH.
Qed.

(** A name that ends in an underscore and a text without dot does not
    end in ".tar". *)
Lemma HasSuffix_tar_after_underscore (a clock : string) :
  Strings.contains_byte "." clock = false ->
  RestoreCommand.HasSuffix (a +:+ String "_" clock) ".tar" = false.
Proof.
  intros Hno. unfold RestoreCommand.HasSuffix.
  destruct (Nat.leb_spec (String.length ".tar") (String.length (a +:+ String "_" clock)))
    as [Hlen|_]; [|reflexivity].
  cbn [andb]. apply String.eqb_neq. intros Heq.
  rewrite length_app in *. cbn [String.length] in *.
  set (n := (String.length a + S (String.length clock) - 4)%nat) in *.
  destruct (Nat.le_gt_cases (String.length a) n) as [Hpast|Hwithin].
  - rewrite (drop_bytes_past _ _ _ Hpast) in Heq.
    destruct (n - String.length a)%nat as [|k] eqn:Hk.
    + cbn [Strings.drop_bytes] in Heq. discriminate Heq.
    + cbn [Strings.drop_bytes] in Heq.
      pose proof (contains_byte_drop "." k clock Hno) as Hnone.
      rewrite Heq in Hnone. discriminate Hnone.
  - rewrite (drop_bytes_within a _ n) in Heq by lia.
    pose proof (length_drop_bytes n a) as Hl.
    destruct (Strings.drop_bytes n a) as [|c0 [|c1 [|c2 [|c3 rest]]]];
      cbn [String.length] in Hl; rewrite ?app_String, ?app_Empty in Heq.
    + lia.
    + injection Heq as _ Heq. discriminate Heq.
    + injection Heq as _ _ Heq. discriminate Heq.
    + injection Heq as _ _ _ Heq. discriminate Heq.
    + injection Heq as _ _ _ _ Heq. destruct rest; discriminate Heq.
Qed.

Section ServiceOfFilename.

Variable strconv_Quote : string -> string.

(** The service name is read back from a name made of the service, a
    date, a clock time and one of the three extensions, joined as
    GenerateBackupFilename joins them. *)
Lemma service_of_filename_reads_back (backupFile serviceName date clock extension : string) :
  serviceName <> "" ->
  Strings.contains_byte "_" date = false ->
  Strings.contains_byte "_" clock = false ->
  Strings.contains_byte "." clock = false ->
  In extension [".tar.gz"; ".tar.zst"; ".tar"] ->
  Filepath.Base backupFile
  = serviceName +:+ "_" +:+ (date +:+ "_" +:+ clock) +:+ extension ->
  RestoreCommand.service_of_filename strconv_Quote backupFile = Errors.Ok serviceName.
Proof.
  intros Hname Hdate Hclock Hdot Hext Hbase.
  set (stem := serviceName +:+ String "_" date).
  assert (Hshape : serviceName +:+ "_" +:+ (date +:+ "_" +:+ clock) +:+ extension
                   = (stem +:+ String "_" clock) +:+ extension).
  { unfold stem. rewrite ?append_assoc. cbn [append]. rewrite ?append_assoc.
    cbn [append]. reflexivity. }
  rewrite Hshape in Hbase. clear Hshape.
  assert (Hcore :
    (if RestoreCommand.HasSuffix
          (RestoreCommand.TrimSuffix ((stem +:+ String "_" clock) +:+ extension)
             (RestoreCommand.Ext ((stem +:+ String "_" clock) +:+ extension))) ".tar"
     then RestoreCommand.TrimSuffix
            (RestoreCommand.TrimSuffix ((stem +:+ String "_" clock) +:+ extension)
               (RestoreCommand.Ext ((stem +:+ String "_" clock) +:+ extension))) ".tar"
     else RestoreCommand.TrimSuffix ((stem +:+ String "_" clock) +:+ extension)
            (RestoreCommand.Ext ((stem +:+ String "_" clock) +:+ extension)))
    = stem +:+ String "_" clock).
  { destruct Hext as [<-|[<-|[<-|[]]]].
    - replace ((stem +:+ String "_" clock) +:+ ".tar.gz")
        with (((stem +:+ String "_" clock) +:+ ".tar") +:+ String "." "gz")
        by (rewrite !append_assoc; reflexivity).
      rewrite Ext_of_dotted by reflexivity. rewrite TrimSuffix_app.
      now rewrite HasSuffix_app, TrimSuffix_app.
    - replace ((stem +:+ String "_" clock) +:+ ".tar.zst")
        with (((stem +:+ String "_" clock) +:+ ".tar") +:+ String "." "zst")
        by (rewrite !append_assoc; reflexivity).
      rewrite Ext_of_dotted by reflexivity. rewrite TrimSuffix_app.
      now rewrite HasSuffix_app, TrimSuffix_app.
    - rewrite (Ext_of_dotted (stem +:+ String "_" clock) "tar") by reflexivity.
      rewrite (TrimSuffix_app (stem +:+ String "_" clock) ".tar").
      now rewrite (HasSuffix_tar_after_underscore stem clock Hdot). }
  unfold RestoreCommand.service_of_filename. cbv zeta. rewrite Hbase, Hcore.
  unfold stem. rewrite !Split_app_sep.
  rewrite (Split_without_sep date "_" Hdate), (Split_without_sep clock "_" Hclock).
  rewrite <- app_assoc. cbn [app]. rewrite List.length_app. cbn [List.length].
  pose proof (Split_not_nil serviceName "_") as Hne.
  destruct (Nat.ltb_spec (List.length (Strings.Split serviceName "_") + 2) 3) as [Hshort|_].
  { destruct (Strings.Split serviceName "_"); [now elim Hne|cbn [List.length] in Hshort; lia]. }
  rewrite Nat.add_sub.
  rewrite firstn_app, firstn_all, Nat.sub_diag. cbn [firstn]. rewrite app_nil_r.
  change "_"%string with (String "_" "") at 1.
  rewrite Join_Split.
  destruct (String.eqb_spec serviceName ""); [contradiction|reflexivity].
Qed.

End ServiceOfFilename.

(** X19. The file name restoreFromFile reads and the one
    GenerateBackupFilename writes.  When time.Format gives a date and a
    clock time joined by one underscore, the clock time without dot (as
    the layout "2006-01-02_150405" does), GenerateBackupFilename returns
    a name from which restoreFromFile reads back the same service name,
    underscores and dots in the service name included, for each of the
    three formats. *)
Theorem restoreFromFile_reads_back_the_service_GenerateBackupFilename_wrote
    (strconv_Quote : string -> string) (time_Format : string -> Time.Time -> string)
    {W : Type} (h : Engine.handler W) (w : W) (serviceName format backupFile : string) :
  serviceName <> "" ->
  (forall now, exists date clock,
      time_Format "2006-01-02_150405" now = date +:+ "_" +:+ clock
      /\ Strings.contains_byte "_" date = false
      /\ Strings.contains_byte "_" clock = false
      /\ Strings.contains_byte "." clock = false) ->
  exists filename,
    fst (fst (Engine.run h (Commands.GenerateBackupFilename time_Format serviceName format) w))
    = Engine.Returned filename
    /\ (Filepath.Base backupFile = filename ->
        RestoreCommand.service_of_filename strconv_Quote backupFile = Errors.Ok serviceName).
Proof.
  intros Hname Hstamp. unfold Commands.GenerateBackupFilename.
  cbn [Engine.run Engine.bind Engine.call].
  destruct (h _ Engine.Now w) as [now w1]. cbn [fst].
  eexists. split; [reflexivity|]. intros Hbase.
  destruct (Hstamp now) as (date & clock & Hnow & Hdate & Hclock & Hdot).
  rewrite Hnow in Hbase.
  refine (service_of_filename_reads_back strconv_Quote backupFile serviceName date clock _
            Hname Hdate Hclock Hdot _ Hbase).
  destruct (String.eqb format "tar.zst"); [cbn; auto|].
  destruct (String.eqb format "tar"); cbn; auto.
Qed.

(** The theorem for the service my_app.db and the format tar.zst. *)
Lemma restoreFromFile_reads_back_the_service_GenerateBackupFilename_wrote_witness :
  "my_app.db" <> ""
  /\ RestoreCommand.service_of_filename (fun s => s)
       "/b/p/my_app.db_2024-01-01_000000.tar.zst" = Errors.Ok "my_app.db".
Proof.
  split; [discriminate|].
  destruct (restoreFromFile_reads_back_the_service_GenerateBackupFilename_wrote
              (fun s => s) Scenarios.dated World.quiet tt "my_app.db" "tar.zst"
              "/b/p/my_app.db_2024-01-01_000000.tar.zst")
    as (filename & Hrun & Hread).
  - discriminate.
  - intros now. exists "2024-01-01", "000000". repeat split; reflexivity.
  - apply Hread. vm_compute in Hrun. injection Hrun as <-. reflexivity.
Defined.

(** [run_split] through a question asked inside a step of its own. *)
Ltac run_split_nested h :=
  run_split h;
  repeat match goal with
         | |- context [Engine.run _
                         (Engine.bind (Engine.bind (match ?x with _ => _ end) _) _) _] =>
             first [ progress (rewrite ?andb_false_r, ?andb_true_r)
                   | destruct x ];
             run_split h
         end.

Ltac observe_restore :=
  unfold Observed.last_existence_answer, Observed.existence_answers;
  observe;
  cbn [omap list_omap Observed.existence_answer rev app].

(** X20. restoreFromFile writes into a volume only on consent.  It runs
    at most one restore, from the given file, and into the given volume
    when one is given.  When the user answers no to a question, nothing
    is restored and the error is "restore cancelled"; with [Force] no
    question is asked.  Without [Force], a restore happens only after a
    yes, or into a volume the engine has just reported absent. *)
Theorem restoreFromFile_writes_into_a_volume_only_on_consent
    (strconv_Quote : string -> string) {W : Type} (h : Engine.handler W)
    (c : Commands.Context) (backupFile volumeName : string)
    (opts : RestoreCommand.RestoreOptions) (w : W) :
  let '(ended, _, tr) :=
    Engine.run h (RestoreCommand.restoreFromFile strconv_Quote c backupFile volumeName opts) w in
  (Observed.restores tr = [] \/ exists v, Observed.restores tr = [(v, backupFile)])
  /\ (volumeName <> "" ->
      forall v file, In (v, file) (Observed.restores tr) -> v = volumeName)
  /\ (In false (Observed.confirmations tr) ->
      Observed.restores tr = []
      /\ ended = Engine.Returned (Some (Errors.errorString "restore cancelled")))
  /\ (RestoreCommand.Force opts = true -> Observed.confirmations tr = [])
  /\ (RestoreCommand.Force opts = false ->
      forall v file, In (v, file) (Observed.restores tr) ->
        In true (Observed.confirmations tr)
        \/ Observed.last_existence_answer tr = Some (v, false)).
Proof.
  unfold RestoreCommand.restoreFromFile, RestoreCommand.confirm_overwrite,
    Commands.ResolveVolumeName.
  destruct (String.eqb_spec volumeName "") as [Hempty|Hgiven];
    [destruct (RestoreCommand.service_of_filename strconv_Quote backupFile)
       as [serviceName|err];
     [destruct (Commands.Compose c) as [cf|];
      [destruct (Compose.GetFullVolumeName cf serviceName (Commands.ProjectName c))|]|]|];
    destruct (RestoreCommand.Force opts).
  all: run_split_nested h; observe_restore.
  all: split; [first [now left | right; eexists; reflexivity]|].
  all: split; [intros Hne v file Hin; first [contradiction | cbn in Hin; intuition congruence]|].
  all: split; [intros Hin; cbn in Hin;
               first [split; reflexivity | intuition discriminate]|].
  all: split; [intros Hf; first [reflexivity | discriminate Hf]|].
  all: intros Hf v file Hin; try discriminate Hf; cbn in Hin.
  all: repeat match type of Hin with
              | False => destruct Hin
              | _ \/ _ => destruct Hin as [Hin|Hin]
              | (_, _) = (_, _) => injection Hin as <- <-
              end.
  all: first [left; cbn; now auto | right; reflexivity].
Qed.

(** The theorem in a world whose user answers no: the volume exists, the
    question is asked, and nothing is restored. *)
Lemma restoreFromFile_writes_into_a_volume_only_on_consent_witness :
  let '(ended, _, tr) :=
    Engine.run (Scenarios.declining [])
      (RestoreCommand.restoreFromFile (fun s => s) (Scenarios.context 5 None "")
         "/b/p/db_2024-01-01_000000.tar.gz" "app_data"
         {| RestoreCommand.Select := false; RestoreCommand.List := false;
            RestoreCommand.Force := false; RestoreCommand.Restart := false;
            RestoreCommand.Target := "/b/p/db_2024-01-01_000000.tar.gz" |}) tt in
  ended = Engine.Returned (Some (Errors.errorString "restore cancelled"))
  /\ Observed.restores tr = [].
Proof.
  pose proof (restoreFromFile_writes_into_a_volume_only_on_consent
    (fun s => s) (Scenarios.declining []) (Scenarios.context 5 None "")
    "/b/p/db_2024-01-01_000000.tar.gz" "app_data"
    {| RestoreCommand.Select := false; RestoreCommand.List := false;
       RestoreCommand.Force := false; RestoreCommand.Restart := false;
       RestoreCommand.Target := "/b/p/db_2024-01-01_000000.tar.gz" |} tt) as H.
  destruct (Engine.run (Scenarios.declining []) _ tt) as [[ended w1] tr] eqn:Hrun.
  assert (Hasked : Observed.confirmations tr = [false]).
  { vm_compute in Hrun. injection Hrun as _ _ <-. reflexivity. }
  destruct H as (_ & _ & Hno & _).
  destruct Hno as [Hnone Hended]; [rewrite Hasked; now left|].
  split; [exact Hended|exact Hnone].
Defined.

(** ** FormatSize: the unit it picks *)

Lemma int64_small (z : Z) : - 2 ^ 63 <= z < 2 ^ 63 -> Format.int64 z = z.
Proof.
  intros Hz. unfold Format.int64.
  rewrite Z.mod_small by lia. lia.
Qed.

Lemma pow_1024_below_int64 (e : Z) : 0 <= e -> 1024 ^ (e + 1) < 2 ^ 63 -> e <= 5.
Proof.
  intros He Hlt. destruct (Z_le_gt_dec e 5) as [|Hbig]; [assumption|exfalso].
  assert (1024 ^ 7 <= 1024 ^ (e + 1)) by (apply Z.pow_le_mono_r; lia).
  assert (2 ^ 63 < 1024 ^ 7) by reflexivity. lia.
Qed.

(** The loop keeps [div = 1024^(exp+1)] and [div * n <= bytes < div * (n+1)],
    without wrap-around, and ends with [div <= bytes < 1024 * div]. *)
Lemma size_loop_spec (bytes : Z) (n div exp : Z) :
  bytes < 2 ^ 63 -> 0 <= exp -> 1 <= n ->
  div = 1024 ^ (exp + 1) -> div * n <= bytes < div * (n + 1) ->
  let '(div', exp') := Format.size_loop n div exp in
  exp <= exp' /\ div' = 1024 ^ (exp' + 1) /\ div' <= bytes < 1024 * div'.
Proof.
  intros Hmax. funelim (Format.size_loop n div exp); intros Hexp Hn Hdiv Hbytes.
  - clear Heqcall. unfold Format.unit in *.
    assert (Hpos : 0 < div) by (rewrite Hdiv; apply Z.pow_pos_nonneg; lia).
    assert (Hfits : div * 1024 < 2 ^ 63) by nia.
    assert (He : exp <= 5).
    { apply pow_1024_below_int64; [exact Hexp|]. rewrite <- Hdiv. nia. }
    rewrite (int64_small (div * 1024)) in * by lia.
    rewrite (int64_small (exp + 1)) in * by lia.
    assert (Hq : 1024 * (n ÷ 1024) <= n < 1024 * (n ÷ 1024 + 1)).
    { rewrite Z.quot_div_nonneg by lia.
      pose proof (Z.mul_div_le n 1024 ltac:(lia)).
      pose proof (Z.mul_succ_div_gt n 1024 ltac:(lia)). lia. }
    specialize (H bytes Hmax ltac:(lia)).
    assert (Hn' : 1 <= n ÷ 1024) by lia.
    assert (Hdiv' : div * 1024 = 1024 ^ (exp + 1 + 1)).
    { replace (exp + 1 + 1) with (Z.succ (exp + 1)) by lia.
      rewrite (Z.pow_succ_r 1024 (exp + 1)) by lia. lia. }
    specialize (H Hn' Hdiv' ltac:(nia)).
    destruct (Format.size_loop (n ÷ 1024) (div * 1024) (exp + 1)) as [div' exp'].
    destruct H as (Hle & Hd & Hb). split; [lia|]. split; [exact Hd|exact Hb].
  - unfold Format.unit in *. split; [lia|]. split; [exact Hdiv|].
    assert (Hpos : 0 < div) by (rewrite Hdiv; apply Z.pow_pos_nonneg; lia). nia.
Qed.

(** X21. FormatSize picks the largest unit not above the size; its index
    into "KMGTPE" is never out of range.  For every int64 below 1024,
    negative ones included, the result is the number and " B".  From
    1024 on the function does not panic: the divisor is the power
    1024^(exp+1) with [exp] at most 5, computed without wrap-around, and
    the size lies between the divisor and 1024 times the divisor, so the
    number shown is at least 1 and below 1024. *)
Theorem FormatSize_picks_the_largest_unit_not_above_the_size
    (Sprintf_1f : Z -> Z -> string) (bytes : Z) :
  - 2 ^ 63 <= bytes < 2 ^ 63 ->
  (bytes < 1024 ->
   Format.FormatSize Sprintf_1f bytes
   = Some (NilEmpty.string_of_int (Z.to_int bytes) +:+ " B"))
  /\ (1024 <= bytes ->
      exists exp letter,
        0 <= exp <= 5
        /\ 1024 ^ (exp + 1) <= bytes < 1024 ^ (exp + 2)
        /\ String.get (Z.to_nat exp) "KMGTPE" = Some letter
        /\ Format.FormatSize Sprintf_1f bytes
           = Some (Sprintf_1f bytes (1024 ^ (exp + 1)) +:+ " " +:+ String letter "B")).
Proof.
  intros Hrange. unfold Format.FormatSize, Format.unit. split.
  - intros Hsmall. apply Z.ltb_lt in Hsmall. now rewrite Hsmall.
  - intros Hbig. destruct (Z.ltb_spec bytes 1024) as [|_]; [lia|].
    assert (Hq : 1024 * (bytes ÷ 1024) <= bytes < 1024 * (bytes ÷ 1024 + 1)).
    { rewrite Z.quot_div_nonneg by lia.
      pose proof (Z.mul_div_le bytes 1024 ltac:(lia)).
      pose proof (Z.mul_succ_div_gt bytes 1024 ltac:(lia)). lia. }
    pose proof (size_loop_spec bytes (bytes ÷ 1024) 1024 0 ltac:(lia) ltac:(lia)
                  ltac:(lia) eq_refl Hq) as Hloop.
    destruct (Format.size_loop (bytes ÷ 1024) 1024 0) as [div exp].
    destruct Hloop as (Hexp & Hdiv & Hbytes).
    assert (He : exp <= 5).
    { apply pow_1024_below_int64; [exact Hexp|]. rewrite <- Hdiv. lia. }
    unfold Format.unit_letter.
    destruct (Z.leb_spec 0 exp) as [_|]; [|lia].
    destruct (Z.ltb_spec exp 6) as [_|]; [|lia]. cbn [andb].
    assert (Hletter : exists letter, String.get (Z.to_nat exp) "KMGTPE" = Some letter).
    { assert (Hcases : exp = 0 \/ exp = 1 \/ exp = 2 \/ exp = 3 \/ exp = 4 \/ exp = 5) by lia.
      destruct Hcases as [->|[->|[->|[->|[->| ->]]]]]; eexists; reflexivity. }
    destruct Hletter as [letter Hletter]. rewrite Hletter.
    exists exp, letter. split; [lia|]. split.
    { rewrite <- Hdiv. split; [lia|].
      replace (exp + 2) with (Z.succ (exp + 1)) by lia.
      rewrite Z.pow_succ_r by lia. rewrite <- Hdiv. lia. }
    split; [exact Hletter|]. now rewrite Hdiv.
Qed.

(** The theorem for five mebibytes. *)
Lemma FormatSize_picks_the_largest_unit_not_above_the_size_witness :
  - 2 ^ 63 <= 5242880 < 2 ^ 63
  /\ exists exp letter,
       0 <= exp <= 5
       /\ 1024 ^ (exp + 1) <= 5242880 < 1024 ^ (exp + 2)
       /\ String.get (Z.to_nat exp) "KMGTPE" = Some letter
       /\ Format.FormatSize (fun _ _ => "5.0") 5242880
          = Some ("5.0" +:+ " " +:+ String letter "B").
Proof.
  split; [lia|].
  exact (proj2 (FormatSize_picks_the_largest_unit_not_above_the_size
                  (fun _ _ => "5.0") 5242880 ltac:(lia)) ltac:(lia)).
Defined.

(** ** expandPath *)

Lemma Clean_rooted (p : string) :
  Strings.HasPrefix p "/" = true -> Strings.HasPrefix (Filepath.Clean p) "/" = true.
Proof.
  intros Hrooted. unfold Filepath.Clean. rewrite Hrooted.
  unfold Strings.HasPrefix. rewrite app_String, app_Empty. cbn [String.prefix].
  destruct (ascii_dec "/" "/") as [_|Hne]; [|now elim Hne].
  now destruct (Strings.Join _ _).
Qed.

Lemma Join_rooted (home rest : string) :
  Strings.HasPrefix home "/" = true ->
  Strings.HasPrefix (Filepath.Join home rest) "/" = true.
Proof.
  intros Hrooted. unfold Filepath.Join.
  destruct home as [|c home]; [discriminate Hrooted|].
  cbn [String.eqb]. destruct (String.eqb rest ""); [now apply Clean_rooted|].
  apply Clean_rooted. unfold Strings.HasPrefix in *. rewrite app_String.
  cbn [String.prefix] in *. destruct (ascii_dec "/" c); [|discriminate Hrooted].
  now destruct (home +:+ "/" +:+ rest).
Qed.

(** X22. expandPath leaves no leading tilde behind.  When the home
    directory is an absolute path, the result of expandPath never starts
    with "~", whatever follows the tilde in the path given; a path
    without leading tilde is returned as it is; and expanding twice is
    the same as expanding once. *)
Theorem expandPath_leaves_no_leading_tilde (home path : string) :
  Strings.HasPrefix home "/" = true ->
  let expanded := ConfigPaths.expandPath (Errors.Ok home) path in
  Strings.HasPrefix expanded "~" = false
  /\ (Strings.HasPrefix path "~" = false -> expanded = path)
  /\ ConfigPaths.expandPath (Errors.Ok home) expanded = expanded.
Proof.
  intros Hhome. cbv zeta.
  assert (Hplain : forall p, Strings.HasPrefix p "/" = true ->
            Strings.HasPrefix p "~" = false
            /\ ConfigPaths.expandPath (Errors.Ok home) p = p).
  { intros [|c p] Hp; [discriminate Hp|]. unfold Strings.HasPrefix in *.
    cbn [String.prefix] in *. destruct (ascii_dec "/" c) as [<-|]; [|discriminate Hp].
    split; [reflexivity|reflexivity]. }
  destruct path as [|first rest];
    [split; [reflexivity|split; [intros _; reflexivity|reflexivity]]|].
  unfold ConfigPaths.expandPath at 1 2.
  destruct (Ascii.eqb_spec first "~") as [->|Hfirst].
  - assert (Hrooted : Strings.HasPrefix
              (if String.eqb (String "~" rest) "~" then home else Filepath.Join home rest) "/"
            = true).
    { destruct (String.eqb (String "~" rest) "~"); [exact Hhome|now apply Join_rooted]. }
    destruct (Hplain _ Hrooted) as [Hno Hsame].
    split; [exact Hno|]. split; [|exact Hsame].
    unfold Strings.HasPrefix. cbn [String.prefix].
    destruct (ascii_dec "~" "~") as [_|Hne]; [|now elim Hne].
    destruct rest; discriminate.
  - assert (Hno : Strings.HasPrefix (String first rest) "~" = false).
    { unfold Strings.HasPrefix. cbn [String.prefix].
      destruct (ascii_dec "~" first) as [<-|_]; [now elim Hfirst|reflexivity]. }
    split; [exact Hno|]. split; [reflexivity|].
    apply Ascii.eqb_neq in Hfirst. cbn [ConfigPaths.expandPath]. rewrite !Hfirst.
    cbn [ConfigPaths.expandPath]. now rewrite Hfirst.
Qed.

(** The theorem for the home /home/u and a path in another user's
    notation. *)
Lemma expandPath_leaves_no_leading_tilde_witness :
  Strings.HasPrefix "/home/u" "/" = true
  /\ Strings.HasPrefix (ConfigPaths.expandPath (Errors.Ok "/home/u") "~bob/backups") "~" = false.
Proof.
  split; [reflexivity|].
  exact (proj1 (expandPath_leaves_no_leading_tilde "/home/u" "~bob/backups" eq_refl)).
Defined.

(** The path it expands to. *)
Example expandPath_of_another_users_home :
  ConfigPaths.expandPath (Errors.Ok "/home/u") "~bob/backups" = "/home/u/bob/backups".
Proof. reflexivity. Qed.

(** ** The docker client: volumes in use *)

Lemma in_use_mounts_loop_spec (mounts : list string) (volumeName : string) :
  DockerClient.in_use_mounts_loop mounts volumeName = true <-> In volumeName mounts.
Proof.
  induction mounts as [|mnt rest IH]; cbn [DockerClient.in_use_mounts_loop In].
  - split; [discriminate|intros []].
  - destruct (String.eqb_spec mnt volumeName) as [->|Hne].
    + split; [now left|reflexivity].
    + rewrite IH. split; [now right|intros [Heq|Hin]; [now elim Hne|exact Hin]].
Qed.

Lemma using_mounts_loop_spec (mounts names : list string) (volumeName : string)
    (result : list string) :
  DockerClient.using_mounts_loop mounts names volumeName result
  = (result ++ (if DockerClient.in_use_mounts_loop mounts volumeName
                then firstn 1 names else []))%list.
Proof.
  induction mounts as [|mnt rest IH];
    cbn [DockerClient.using_mounts_loop DockerClient.in_use_mounts_loop].
  - now rewrite app_nil_r.
  - destruct (String.eqb mnt volumeName); [|exact IH].
    destruct names; [now rewrite app_nil_r|reflexivity].
Qed.

Lemma using_loop_spec (containers : list DockerClient.Container) (volumeName : string) :
  forall result,
    DockerClient.using_loop containers volumeName result
    = (result ++ flat_map (fun cont =>
         if DockerClient.in_use_mounts_loop (DockerClient.Mounts cont) volumeName
         then firstn 1 (DockerClient.Names cont) else []) containers)%list.
Proof.
  induction containers as [|cont rest IH]; intros result;
    cbn [DockerClient.using_loop flat_map].
  - now rewrite app_nil_r.
  - rewrite IH, using_mounts_loop_spec. now rewrite <- app_assoc.
Qed.

(** X23. IsVolumeInUse and GetContainersUsingVolume on the same listing
    of containers.  IsVolumeInUse answers true exactly when some listed
    container has a mount of the volume.  GetContainersUsingVolume gives
    the first name of each such container, in the order of the listing
    and once per container however many of its mounts are of the
    volume; a container without a name is left out.  So no container is
    reported for a volume that is not in use, and when every container
    has a name the two functions agree on whether the volume is in
    use. *)
Theorem GetContainersUsingVolume_agrees_with_IsVolumeInUse
    {W : Type} (ContainerList : W -> Errors.result (list DockerClient.Container) * W)
    (volumeName : string) (w : W) :
  match ContainerList w with
  | (Errors.Err err, w1) =>
      DockerClient.IsVolumeInUse ContainerList volumeName w = (Errors.Err err, w1)
      /\ DockerClient.GetContainersUsingVolume ContainerList volumeName w
         = (Errors.Err err, w1)
  | (Errors.Ok containers, w1) =>
      exists inUse names,
        DockerClient.IsVolumeInUse ContainerList volumeName w = (Errors.Ok inUse, w1)
        /\ DockerClient.GetContainersUsingVolume ContainerList volumeName w
           = (Errors.Ok names, w1)
        /\ (inUse = true <->
            exists cont, In cont containers /\ In volumeName (DockerClient.Mounts cont))
        /\ names
           = flat_map (fun cont => firstn 1 (DockerClient.Names cont))
               (List.filter (fun cont =>
                  DockerClient.in_use_mounts_loop (DockerClient.Mounts cont) volumeName)
                  containers)
        /\ (inUse = false -> names = [])
        /\ ((forall cont, In cont containers -> DockerClient.Names cont <> []) ->
            inUse = true -> names <> [])
  end.
Proof.
  unfold DockerClient.IsVolumeInUse, DockerClient.GetContainersUsingVolume.
  destruct (ContainerList w) as [[containers|err] w1]; [|now split].
  eexists _, _. split; [reflexivity|]. split; [reflexivity|].
  rewrite using_loop_spec. cbn [app].
  assert (Hin : DockerClient.in_use_loop containers volumeName = true <->
                exists cont, In cont containers /\ In volumeName (DockerClient.Mounts cont)).
  { induction containers as [|cont rest IH]; cbn [DockerClient.in_use_loop].
    - split; [discriminate|intros (cont & [] & _)].
    - destruct (DockerClient.in_use_mounts_loop (DockerClient.Mounts cont) volumeName)
        eqn:Hcont.
      + split; [intros _|reflexivity]. exists cont. split; [now left|].
        now apply in_use_mounts_loop_spec.
      + rewrite IH. split.
        * intros (c & Hc & Hm). exists c. split; [now right|exact Hm].
        * intros (c & [<-|Hc] & Hm); [|now exists c].
          apply in_use_mounts_loop_spec in Hm. congruence. }
  assert (Hfilter : flat_map (fun cont =>
              if DockerClient.in_use_mounts_loop (DockerClient.Mounts cont) volumeName
              then firstn 1 (DockerClient.Names cont) else []) containers
            = flat_map (fun cont => firstn 1 (DockerClient.Names cont))
                (List.filter (fun cont =>
                   DockerClient.in_use_mounts_loop (DockerClient.Mounts cont) volumeName)
                   containers)).
  { clear Hin. induction containers as [|cont rest IH]; [reflexivity|].
    cbn [flat_map List.filter].
    destruct (DockerClient.in_use_mounts_loop (DockerClient.Mounts cont) volumeName);
      cbn [flat_map app]; now rewrite IH. }
  split; [exact Hin|]. split; [exact Hfilter|]. split.
  - intros Hno. clear Hin Hfilter.
    induction containers as [|cont rest IH]; [reflexivity|].
    cbn [DockerClient.in_use_loop flat_map] in *.
    destruct (DockerClient.in_use_mounts_loop (DockerClient.Mounts cont) volumeName);
      [discriminate Hno|]. cbn [app]. now apply IH.
  - intros Hnamed Hyes. apply Hin in Hyes as (cont & Hcont & Hmount).
    apply in_use_mounts_loop_spec in Hmount.
    intros Hnone. pose proof (Hnamed cont Hcont) as Hname.
    assert (Hsub : forall n, In n (firstn 1 (DockerClient.Names cont)) -> False).
    { intros n Hn.
      assert (Hall : In n (flat_map (fun cont =>
                if DockerClient.in_use_mounts_loop (DockerClient.Mounts cont) volumeName
                then firstn 1 (DockerClient.Names cont) else []) containers)).
      { apply in_flat_map. exists cont. split; [exact Hcont|]. now rewrite Hmount. }
      rewrite Hnone in Hall. destruct Hall. }
    destruct (DockerClient.Names cont) as [|n names]; [now elim Hname|].
    apply (Hsub n). now left.
Qed.

Section UnusedVolumes.

Context {W Volume : Type}.
Variable ContainerList : W -> Errors.result (list DockerClient.Container) * W.
Variable Name : Volume -> string.

(** The loop of GetUnusedVolumes while the daemon lists the same
    containers at every call. *)
Lemma unused_loop_stable (containers : list DockerClient.Container) :
  (forall w, ContainerList w = (Errors.Ok containers, w)) ->
  forall vols unused w,
    DockerClient.unused_loop ContainerList Name vols unused w
    = ((unused ++ List.filter (fun vol =>
          negb (DockerClient.in_use_loop containers (Name vol))) vols)%list, w).
Proof.
  intros Hstable. induction vols as [|vol rest IH]; intros unused w;
    cbn [DockerClient.unused_loop List.filter].
  - now rewrite app_nil_r.
  - unfold DockerClient.IsVolumeInUse. rewrite Hstable, IH.
    destruct (DockerClient.in_use_loop containers (Name vol)); cbn [negb]; [reflexivity|].
    now rewrite <- app_assoc.
Qed.

(** The loop while the listing of containers fails. *)
Lemma unused_loop_failing :
  (forall w, exists err, ContainerList w = (Errors.Err err, w)) ->
  forall vols unused w,
    DockerClient.unused_loop ContainerList Name vols unused w = (unused, w).
Proof.
  intros Hfails. induction vols as [|vol rest IH]; intros unused w;
    cbn [DockerClient.unused_loop]; [reflexivity|].
  unfold DockerClient.IsVolumeInUse. destruct (Hfails w) as [err ->]. apply IH.
Qed.

End UnusedVolumes.

(** X24. GetUnusedVolumes.  While the daemon lists the same containers at
    every call, the result is the listed volumes that no container
    mounts, in the order of the listing: the volumes for which
    IsVolumeInUse answers false.  While the listing of containers
    fails, GetUnusedVolumes reports no volume as unused and no error.
    In any world its only error is that of the listing of volumes. *)
Theorem GetUnusedVolumes_lists_the_volumes_no_container_mounts
    {W Volume : Type}
    (ContainerList : W -> Errors.result (list DockerClient.Container) * W)
    (VolumeList : W -> Errors.result (list Volume) * W) (Name : Volume -> string) (w : W) :
  match VolumeList w with
  | (Errors.Err err, w1) =>
      DockerClient.GetUnusedVolumes ContainerList VolumeList Name w = (Errors.Err err, w1)
  | (Errors.Ok vols, w1) =>
      (forall containers,
         (forall w', ContainerList w' = (Errors.Ok containers, w')) ->
         DockerClient.GetUnusedVolumes ContainerList VolumeList Name w
         = (Errors.Ok (List.filter (fun vol =>
               negb (DockerClient.in_use_loop containers (Name vol))) vols), w1)
         /\ forall vol,
              In vol vols ->
              DockerClient.IsVolumeInUse ContainerList (Name vol) w1 = (Errors.Ok false, w1) ->
              exists unused,
                DockerClient.GetUnusedVolumes ContainerList VolumeList Name w
                = (Errors.Ok unused, w1) /\ In vol unused)
      /\ ((forall w', exists err, ContainerList w' = (Errors.Err err, w')) ->
          DockerClient.GetUnusedVolumes ContainerList VolumeList Name w = (Errors.Ok [], w1))
      /\ exists unused w2,
           DockerClient.GetUnusedVolumes ContainerList VolumeList Name w
           = (Errors.Ok unused, w2)
  end.
Proof.
  unfold DockerClient.GetUnusedVolumes, DockerClient.ListVolumes.
  destruct (VolumeList w) as [[vols|err] w1]; [|reflexivity]. split; [|split].
  3:{ destruct (DockerClient.unused_loop ContainerList Name vols [] w1) as [unused w2].
      now exists unused, w2. }
  - intros containers Hstable. rewrite (unused_loop_stable _ _ _ Hstable). cbn [app].
    split; [reflexivity|]. intros vol Hvol Hfree. eexists. split; [reflexivity|].
    apply List.filter_In. split; [exact Hvol|].
    unfold DockerClient.IsVolumeInUse in Hfree. rewrite Hstable in Hfree.
    injection Hfree as ->. reflexivity.
  - intros Hfails. now rewrite (unused_loop_failing _ _ Hfails).
Qed.

(** The theorem on a daemon with two containers: web is reported once
    for app_data, which it mounts twice. *)
Lemma GetContainersUsingVolume_agrees_with_IsVolumeInUse_witness :
  DockerClient.IsVolumeInUse Scenarios.steady_daemon "app_data" tt = (Errors.Ok true, tt)
  /\ DockerClient.GetContainersUsingVolume Scenarios.steady_daemon "app_data" tt
     = (Errors.Ok ["/web"], tt).
Proof.
  destruct (GetContainersUsingVolume_agrees_with_IsVolumeInUse
              Scenarios.steady_daemon "app_data" tt)
    as (inUse & names & Hused & Hnames & _ & Hlist & _).
  rewrite Hused, Hnames, Hlist. split; [|reflexivity].
  vm_compute in Hused. exact (eq_sym Hused).
Defined.

(** The theorem on the same daemon with three volumes: old_data is the
    one no container mounts. *)
Lemma GetUnusedVolumes_lists_the_volumes_no_container_mounts_witness :
  DockerClient.GetUnusedVolumes Scenarios.steady_daemon Scenarios.three_volumes
    (fun name => name) tt
  = (Errors.Ok ["old_data"], tt).
Proof.
  exact (proj1 (proj1 (GetUnusedVolumes_lists_the_volumes_no_container_mounts
                         Scenarios.steady_daemon Scenarios.three_volumes (fun name => name) tt)
                  Scenarios.two_containers (fun _ => eq_refl))).
Defined.

(** ** Clone, the later revision: the new name is validated first *)

Lemma all_bytes_excludes (p : ascii -> bool) (c : ascii) (s : string) :
  p c = false -> Strings.all_bytes p s = true -> Strings.contains_byte c s = false.
Proof.
  intros Hc. induction s as [|d s IH]; [reflexivity|].
  cbn [Strings.all_bytes Strings.contains_byte]. intros Hall.
  apply andb_true_iff in Hall as [Hd Hs]. rewrite (IH Hs), orb_false_r.
  apply Ascii.eqb_neq. intros <-. congruence.
Qed.

(** A name validateVolumeName accepts. *)
Lemma validateVolumeName_accepts (strconv_Quote : string -> string) (name : string) :
  CloneCommand.validateVolumeName strconv_Quote name = None ->
  name <> "" /\ (String.length name <= 255)%nat
  /\ Strings.all_bytes CloneCommand.rest_class name = true
  /\ CloneCommand.Contains_dot_dot name = false.
Proof.
  unfold CloneCommand.validateVolumeName.
  destruct (String.eqb_spec name "") as [|Hne]; [discriminate|].
  destruct (Nat.ltb_spec 255 (String.length name)) as [|Hlen]; [discriminate|].
  destruct (String.eqb name "." || String.eqb name ".."); [discriminate|].
  destruct (CloneCommand.volumeNamePattern_MatchString name) eqn:Hmatch;
    [|discriminate]. cbn [negb].
  destruct (CloneCommand.Contains_dot_dot name); [discriminate|]. intros _.
  split; [exact Hne|]. split; [exact Hlen|]. split; [|reflexivity].
  destruct name as [|c rest]; [discriminate Hmatch|].
  cbn [CloneCommand.volumeNamePattern_MatchString] in Hmatch.
  apply andb_true_iff in Hmatch as [Hc Hrest].
  cbn [Strings.all_bytes]. rewrite Hrest, andb_true_r.
  unfold CloneCommand.rest_class. now rewrite Hc.
Qed.

(** X25. The later revision of Clone validates the new name before it
    makes any call.  It never panics.  When validateVolumeName rejects
    the new name, Clone returns an error without a single call to the
    engine, the store or the user.  So whenever Clone has made a call,
    the new name is at most 255 bytes of letters, digits, underscore,
    hyphen and period, without "..", and in particular without a
    separator.  Every volume Clone removes or copies into is the target
    built from that name, which carries the project prefix when a
    project name is set; the removal is forced and follows a yes of the
    user, and Clone returns nil only when the copy was made and the
    metadata updated. *)
Theorem Clone_validates_the_new_name_before_any_call
    (strconv_Quote : string -> string) {W : Type} (h : Engine.handler W)
    (c : Commands.Context) (opts : Commands.CloneOptions) (w : W) :
  let targetVolume :=
    Commands.Clone_targetVolume_HasPrefix (Commands.ProjectName c) (Commands.NewName opts) in
  let '(ended, _, tr) := Engine.run h (CloneCommand.Clone strconv_Quote c opts) w in
  ended <> Engine.Panicked
  /\ (CloneCommand.validateVolumeName strconv_Quote (Commands.NewName opts) <> None ->
      tr = [] /\ ended <> Engine.Returned None)
  /\ (tr <> [] ->
      (String.length (Commands.NewName opts) <= 255)%nat
      /\ Strings.all_bytes CloneCommand.rest_class (Commands.NewName opts) = true
      /\ CloneCommand.Contains_dot_dot (Commands.NewName opts) = false
      /\ Strings.contains_byte "/" (Commands.NewName opts) = false)
  /\ (forall v force, In (v, force) (Observed.removals tr) ->
      v = targetVolume /\ force = true /\ Observed.confirmations tr = [true])
  /\ (forall source target, In (source, target) (Observed.copies tr) ->
      target = targetVolume)
  /\ (ended = Engine.Returned None ->
      exists sourceVolume,
        Observed.copies tr = [(sourceVolume, targetVolume)]
        /\ In (Engine.Event (Engine.CopyVolume sourceVolume targetVolume) None) tr
        /\ In (Engine.Event (Engine.UpdateLastAccessed targetVolume) None) tr)
  /\ (Commands.ProjectName c <> "" ->
      Strings.HasPrefix targetVolume (Commands.ProjectName c +:+ "_") = true).
Proof.
  cbv zeta.
  assert (Hprefix : Commands.ProjectName c <> "" ->
    Strings.HasPrefix
      (Commands.Clone_targetVolume_HasPrefix (Commands.ProjectName c) (Commands.NewName opts))
      (Commands.ProjectName c +:+ "_") = true).
  { intros Hproject. unfold Commands.Clone_targetVolume_HasPrefix.
    destruct (String.eqb_spec (Commands.ProjectName c) ""); [contradiction|]. cbn [negb].
    destruct (Strings.HasPrefix (Commands.NewName opts) (Commands.ProjectName c +:+ "_"))
      eqn:Hhas; cbn [negb]; [exact Hhas|].
    unfold Strings.HasPrefix. apply prefix_app. }
  unfold CloneCommand.Clone.
  set (targetVolume := Commands.Clone_targetVolume_HasPrefix
                         (Commands.ProjectName c) (Commands.NewName opts)) in *.
  clearbody targetVolume.
  destruct (String.eqb (Commands.CloneService opts) "").
  { cbn. split; [discriminate|]. split; [intros _; split; [reflexivity|discriminate]|].
    split; [intros Hne; now elim Hne|]. split; [intros v force []|].
    split; [intros s t []|]. split; [discriminate|exact Hprefix]. }
  destruct (String.eqb (Commands.NewName opts) "").
  { cbn. split; [discriminate|]. split; [intros _; split; [reflexivity|discriminate]|].
    split; [intros Hne; now elim Hne|]. split; [intros v force []|].
    split; [intros s t []|]. split; [discriminate|exact Hprefix]. }
  destruct (CloneCommand.validateVolumeName strconv_Quote (Commands.NewName opts))
    as [err|] eqn:Hvalid.
  { cbn. split; [discriminate|]. split; [intros _; split; [reflexivity|discriminate]|].
    split; [intros Hne; now elim Hne|]. split; [intros v force []|].
    split; [intros s t []|]. split; [discriminate|exact Hprefix]. }
  apply validateVolumeName_accepts in Hvalid as (_ & Hlen & Hclass & Hdots).
  assert (Hshape : (String.length (Commands.NewName opts) <= 255)%nat
      /\ Strings.all_bytes CloneCommand.rest_class (Commands.NewName opts) = true
      /\ CloneCommand.Contains_dot_dot (Commands.NewName opts) = false
      /\ Strings.contains_byte "/" (Commands.NewName opts) = false).
  { split; [exact Hlen|]. split; [exact Hclass|]. split; [exact Hdots|].
    now apply (all_bytes_excludes CloneCommand.rest_class). }
  clear Hlen Hclass Hdots.
  unfold Commands.ResolveVolumeName.
  destruct (match Commands.Compose c with Some _ => _ | None => _ end).
  all: run_split h; observe.
  all: split; [discriminate|].
  all: split; [intros Hne; now elim Hne|].
  all: split; [intros _; exact Hshape|].
  all: split; [intros v force Hin; cbn in Hin;
               repeat match type of Hin with
                      | False => destruct Hin
                      | _ \/ _ => destruct Hin as [Hin|Hin]
                      | (_, _) = (_, _) => injection Hin as <- <-
                      end; repeat split|].
  all: split; [intros source target Hin; cbn in Hin;
               repeat match type of Hin with
                      | False => destruct Hin
                      | _ \/ _ => destruct Hin as [Hin|Hin]
                      | (_, _) = (_, _) => injection Hin as <- <-
                      end; reflexivity|].
  all: split; [|exact Hprefix].
  all: intros Hnil; first [discriminate Hnil
                          | eexists; split; [reflexivity|split; cbn; auto 10]].
Qed.

(** The theorem for a new name that climbs out of a directory: nothing
    is called. *)
Lemma Clone_validates_the_new_name_before_any_call_witness :
  let '(ended, _, tr) :=
    Engine.run World.quiet
      (CloneCommand.Clone (fun s => s)
         (Scenarios.context 5 (Some Scenarios.shared_volume_project) "p")
         {| Commands.CloneService := "db"; Commands.NewName := "../etc" |}) tt in
  tr = [] /\ ended <> Engine.Returned None.
Proof.
  pose proof (Clone_validates_the_new_name_before_any_call (fun s => s) World.quiet
    (Scenarios.context 5 (Some Scenarios.shared_volume_project) "p")
    {| Commands.CloneService := "db"; Commands.NewName := "../etc" |} tt) as H.
  cbv zeta in H.
  destruct (Engine.run World.quiet _ tt) as [[ended w1] tr].
  destruct H as (_ & Hrejected & _). apply Hrejected. discriminate.
Defined.

(** ** History: the records of the project *)

Lemma project_loop_spec (allRecords : list Database.BackupRecord) (projectName : string)
    (limit : Z) :
  forall records,
    Z.of_nat (List.length records) < Z.max 1 limit ->
    HistoryCommand.project_loop allRecords projectName limit records
    = (records ++ firstn (Z.to_nat (Z.max 1 limit) - List.length records)
         (List.filter (fun rec => String.eqb (Database.ProjectName rec) projectName)
            allRecords))%list.
Proof.
  induction allRecords as [|rec rest IH]; intros records Hroom;
    cbn [HistoryCommand.project_loop List.filter].
  - now rewrite firstn_nil, app_nil_r.
  - destruct (String.eqb (Database.ProjectName rec) projectName); [|now apply IH].
    rewrite List.length_app. cbn [List.length].
    destruct (Z.leb_spec limit (Z.of_nat (List.length records + 1))) as [Hfull|Hmore].
    + assert (Hone : (Z.to_nat (Z.max 1 limit) - List.length records = 1)%nat) by lia.
      rewrite Hone. cbn [firstn]. reflexivity.
    + rewrite IH by (rewrite List.length_app; cbn [List.length]; lia).
      rewrite List.length_app. cbn [List.length]. rewrite <- app_assoc. cbn [app].
      destruct (Z.to_nat (Z.max 1 limit) - List.length records)%nat as [|n] eqn:Hn; [lia|].
      cbn [firstn]. do 3 f_equal. lia.
Qed.

(** X26. The records History shows for the current project.  With no
    service given and [All] not set, History shows the records of the
    current project only, newest first as the store orders them, and
    stops at the limit (10 when the limit given is 0): it shows the
    first [limit] records of the project.  A negative limit shows one
    record, not all of them.  A path longer than 50 bytes is shown as
    50 bytes: three dots and its last 47 bytes. *)
Theorem History_shows_the_newest_records_of_the_project
    (order_by_created_at_desc : list Database.BackupRecord -> list Database.BackupRecord)
    {W : Type} (h : Engine.handler W) (c : Commands.Context)
    (opts : HistoryCommand.HistoryOptions) (db : Database.DB) (w : W) :
  HistoryCommand.Service opts = "" -> HistoryCommand.All opts = false ->
  let limit := if HistoryCommand.Limit opts =? 0 then 10 else HistoryCommand.Limit opts in
  let of_project :=
    List.filter (fun rec => String.eqb (Database.ProjectName rec) (Commands.ProjectName c))
      (order_by_created_at_desc (Database.backup_records db)) in
  Engine.run h (HistoryCommand.History_records order_by_created_at_desc c opts db) w
  = (Engine.Returned (firstn (Z.to_nat (Z.max 1 limit)) of_project), w, [])
  /\ (forall rec, In rec (firstn (Z.to_nat (Z.max 1 limit)) of_project) ->
      Database.ProjectName rec = Commands.ProjectName c)
  /\ Z.of_nat (List.length (firstn (Z.to_nat (Z.max 1 limit)) of_project)) <= Z.max 1 limit
  /\ (forall filePath,
        (String.length (HistoryCommand.displayPath filePath) <= 50)%nat
        /\ ((String.length filePath <= 50)%nat ->
            HistoryCommand.displayPath filePath = filePath)).
Proof.
  intros Hservice Hall limit of_project.
  unfold HistoryCommand.History_records. rewrite Hservice, Hall. cbn [String.eqb negb].
  fold limit. unfold HistoryCommand.GetAllBackupRecords. cbn [Z.ltb Z.compare].
  rewrite project_loop_spec by (cbn [List.length]; lia).
  cbn [List.length app Engine.run]. rewrite Nat.sub_0_r. fold of_project.
  split; [reflexivity|]. split; [|split].
  - intros rec Hin.
    assert (Hall' : In rec of_project)
      by (rewrite <- (firstn_skipn (Z.to_nat (Z.max 1 limit)) of_project);
          apply in_or_app; now left).
    apply List.filter_In in Hall' as [_ Hproject].
    now apply String.eqb_eq.
  - pose proof (firstn_le_length (Z.to_nat (Z.max 1 limit)) of_project). lia.
  - intros filePath. unfold HistoryCommand.displayPath.
    destruct (Nat.ltb_spec 50 (String.length filePath)) as [Hlong|Hshort].
    + split; [|lia]. rewrite length_app, length_drop_bytes. cbn [String.length]. lia.
    + split; [lia|reflexivity].
Qed.

(** The theorem for a limit of -1 on a ledger with two records of the
    project: one record is shown, the newer one. *)
Lemma History_shows_the_newest_records_of_the_project_witness :
  Engine.run World.quiet
    (HistoryCommand.History_records Database.sort_desc (Scenarios.context 5 None "p")
       {| HistoryCommand.Limit := -1; HistoryCommand.All := false;
          HistoryCommand.Service := "" |} Scenarios.ledger) tt
  = (Engine.Returned [Scenarios.record_of "p" 3 30], tt, []).
Proof.
  exact (proj1 (History_shows_the_newest_records_of_the_project Database.sort_desc
                  World.quiet (Scenarios.context 5 None "p")
                  {| HistoryCommand.Limit := -1; HistoryCommand.All := false;
                     HistoryCommand.Service := "" |} Scenarios.ledger tt eq_refl eq_refl)).
Defined.
